(** * awebpage-to-pdf: the job queue, URL normalisation and SSRF checks

    A shallow embedding of the queueing core of the webpage-to-PDF
    service ([app/queue/service.py], [app/security/url_validator.py],
    [app/utils/domain.py], [app/worker/main.py]) together with the parts
    of the Python standard library those functions call ([str] methods,
    [urllib.parse], [ipaddress]), and the properties of the
    specification checked against it.

    Conventions.
    - A Python [str] is a Rocq [string]; each character is one code
      point below 256.
    - The standard library is the one of CPython 3.11 and 3.12:
      [urlsplit] strips C0 controls and removes tabs and line breaks,
      and checks a bracketed host; [ipaddress] refuses leading zeros in
      an octet and knows scope ids.
    - A Python exception is a value of [exn]; a function that may raise
      returns a [result].
    - A [datetime] is the number of microseconds since the Unix epoch
      (UTC), an integer.
    - The database session is a record of the two tables the queue
      touches; every operation returns the database it leaves behind. *)

From Stdlib Require Import ZArith Lia Bool Ascii String List DecimalString.
From stdpp Require Import base option list strings gmap.

Local Open Scope string_scope.
Local Open Scope Z_scope.

(** ** Exceptions *)

Inductive exn : Type :=
  | ValueError
  | SSRFError
  | IntegrityError.

Inductive result (A : Type) : Type :=
  | Ok (a : A)
  | Raise (e : exn).

Arguments Ok {A} a.
Arguments Raise {A} e.

Global Instance result_ret : MRet result := fun A a => Ok a.

Global Instance result_bind : MBind result := fun A B k r =>
  match r with
  | Ok a => k a
  | Raise e => Raise e
  end.

(** ** Python [str] methods *)

Module Str.

Definition ord (c : ascii) : Z := Z.of_nat (nat_of_ascii c).

Definition in_range (lo hi : Z) (c : ascii) : bool :=
  (lo <=? ord c) && (ord c <=? hi).

(** [c in s] for a one-character [c]. *)
Fixpoint contains (c : ascii) (s : string) : bool :=
  match s with
  | EmptyString => false
  | String a s' => Ascii.eqb a c || contains c s'
  end.

Fixpoint forallb (p : ascii -> bool) (s : string) : bool :=
  match s with
  | EmptyString => true
  | String a s' => p a && forallb p s'
  end.

Fixpoint map (f : ascii -> ascii) (s : string) : string :=
  match s with
  | EmptyString => EmptyString
  | String a s' => String (f a) (map f s')
  end.

(** [c.lower()] on the code points below 256: the ASCII capitals and the
    Latin-1 capitals U+00C0..U+00DE (U+00D7, the multiplication sign,
    is not a letter). *)
Definition lower_char (c : ascii) : ascii :=
  if in_range 65 90 c || (in_range 192 222 c && negb (ord c =? 215))
  then ascii_of_nat (nat_of_ascii c + 32)
  else c.

Definition lower (s : string) : string := map lower_char s.

Definition isdigit_char : ascii -> bool := in_range 48 57.

Definition isalpha_ascii (c : ascii) : bool :=
  in_range 65 90 c || in_range 97 122 c.

Definition ishex_char (c : ascii) : bool :=
  isdigit_char c || in_range 65 70 c || in_range 97 102 c.

(** [s.lstrip(chars)], the stripped set given as a predicate. *)
Fixpoint lstrip (p : ascii -> bool) (s : string) : string :=
  match s with
  | EmptyString => EmptyString
  | String a s' => if p a then lstrip p s' else s
  end.

(** [s.rstrip(chars)]: every trailing character of the set is removed. *)
Fixpoint rstrip (p : ascii -> bool) (s : string) : string :=
  match s with
  | EmptyString => EmptyString
  | String a s' =>
      match rstrip p s' with
      | EmptyString => if p a then EmptyString else String a EmptyString
      | r => String a r
      end
  end.

(** Removal of every character of a set: [s.replace(b, "")] for each
    one-character [b] of the set. *)
Fixpoint remove (p : ascii -> bool) (s : string) : string :=
  match s with
  | EmptyString => EmptyString
  | String a s' => if p a then remove p s' else String a (remove p s')
  end.

(** The longest prefix without a character of the set, and the rest
    (which is empty or starts with a character of the set). *)
Fixpoint break (p : ascii -> bool) (s : string) : string * string :=
  match s with
  | EmptyString => (EmptyString, EmptyString)
  | String a s' =>
      if p a then (EmptyString, s)
      else let '(l, r) := break p s' in (String a l, r)
  end.

(** [s.partition(c)] as [(before, Some after)], or [(s, None)] when [c]
    does not occur ([s.split(c, 1)] has the same two cases). *)
Definition partition (c : ascii) (s : string) : string * option string :=
  match break (Ascii.eqb c) s with
  | (l, String _ r) => (l, Some r)
  | (l, EmptyString) => (l, None)
  end.

(** [s.rpartition(c)] as [Some (before, after)] at the last [c], or
    [None] when [c] does not occur. *)
Fixpoint rpartition (c : ascii) (s : string) : option (string * string) :=
  match s with
  | EmptyString => None
  | String a s' =>
      match rpartition c s' with
      | Some (l, r) => Some (String a l, r)
      | None => if Ascii.eqb a c then Some (EmptyString, s') else None
      end
  end.

(** [s.split(c)]: all the fields, at least one. *)
Fixpoint split (c : ascii) (s : string) : list string :=
  match s with
  | EmptyString => [EmptyString]
  | String a s' =>
      if Ascii.eqb a c then EmptyString :: split c s'
      else match split c s' with
           | f :: fs => String a f :: fs
           | [] => [String a EmptyString]
           end
  end.

(** [s.startswith(pre)]. *)
Fixpoint startswith (pre s : string) : bool :=
  match pre, s with
  | EmptyString, _ => true
  | String a pre', String b s' => Ascii.eqb a b && startswith pre' s'
  | String _ _, EmptyString => false
  end.

(** [s.endswith(c)] for a one-character [c]. *)
Fixpoint endswith_char (c : ascii) (s : string) : bool :=
  match s with
  | EmptyString => false
  | String a EmptyString => Ascii.eqb a c
  | String _ s' => endswith_char c s'
  end.

(** [c * k]. *)
Fixpoint repeat (c : ascii) (k : nat) : string :=
  match k with
  | O => EmptyString
  | S k' => String c (repeat c k')
  end.

Definition len (s : string) : Z := Z.of_nat (String.length s).

Definition digit_value (c : ascii) : Z :=
  if isdigit_char c then ord c - 48
  else if in_range 97 102 c then ord c - 87
  else if in_range 65 70 c then ord c - 55
  else 0.

(** [int(s, base)] for a string of digits of that base. *)
Definition to_int (base : Z) (s : string) : Z :=
  (fix go (acc : Z) (s : string) : Z :=
     match s with
     | EmptyString => acc
     | String a s' => go (acc * base + digit_value a) s'
     end) 0 s.

Definition digit_char (d : Z) : ascii :=
  ascii_of_nat (Z.to_nat (if d <? 10 then d + 48 else d + 87)).

(** The [width] lowest digits of [n] in [base], most significant first. *)
Fixpoint digits (base : Z) (width : nat) (n : Z) : string :=
  match width with
  | O => EmptyString
  | S w => digits base w (n / base) +:+ String (digit_char (n mod base)) EmptyString
  end.

(** ["%x" % n] for [0 <= n < 65536]: no leading zero, ["0"] for zero. *)
Definition hex4 (n : Z) : string :=
  match lstrip (Ascii.eqb "0") (digits 16 4 n) with
  | EmptyString => "0"
  | s => s
  end.

End Str.

(** ** [ipaddress]: addresses, networks and membership *)

Module Ipaddress.

Inductive version : Type := V4 | V6.

(** An [IPv4Address] or [IPv6Address]: the version and the integer
    [_ip]. The scope id of an IPv6 address plays no part in network
    membership and is dropped. *)
Record address : Type := Address { addr_version : version; addr_ip : Z }.

(** An [IPv4Network] or [IPv6Network]. *)
Record network : Type :=
  Network { net_version : version; network_address : Z; prefixlen : Z }.

Definition max_prefixlen (v : version) : Z :=
  match v with V4 => 32 | V6 => 128 end.

(** [IPv4Address._parse_octet]; [None] stands for its [ValueError]. *)
Definition parse_octet (s : string) : option Z :=
  if String.eqb s "" then None
  else if negb (Str.forallb Str.isdigit_char s) then None
  else if 3 <? Str.len s then None
  else if negb (String.eqb s "0") && Str.startswith "0" s then None
  else let n := Str.to_int 10 s in
       if 255 <? n then None else Some n.

(** [IPv4Address._ip_int_from_string]. *)
Definition ipv4_int_from_string (s : string) : option Z :=
  if String.eqb s "" then None
  else match Str.split "." s with
       | [a; b; c; d] =>
           a' ← parse_octet a; b' ← parse_octet b;
           c' ← parse_octet c; d' ← parse_octet d;
           Some (((a' * 256 + b') * 256 + c') * 256 + d')
       | _ => None
       end.

(** [IPv4Address(s)]; [None] stands for [AddressValueError]. *)
Definition IPv4Address (s : string) : option address :=
  if Str.contains "/" s then None
  else Address V4 <$> ipv4_int_from_string s.

(** [IPv6Address._parse_hextet]; [int('', 16)] raises as well. *)
Definition parse_hextet (s : string) : option Z :=
  if negb (Str.forallb Str.ishex_char s) then None
  else if 4 <? Str.len s then None
  else if String.eqb s "" then None
  else Some (Str.to_int 16 s).

(** The index of the one empty field strictly between the endpoints of
    [parts] (the ["::"]): [Some None] when there is none, [None] when
    there are two. *)
Fixpoint find_skip (i : nat) (inner : list string) (found : option nat)
  : option (option nat) :=
  match inner with
  | [] => Some found
  | p :: ps =>
      if String.eqb p "" then
        match found with
        | Some _ => None
        | None => find_skip (S i) ps (Some i)
        end
      else find_skip (S i) ps found
  end.

(** The middle of a list: everything but the first and the last field. *)
Definition inner (parts : list string) : list string :=
  removelast (tl parts).

(** The hextets of [parts] shifted into one integer. *)
Definition hextets (parts : list string) : option Z :=
  foldl (fun acc p => a ← acc; h ← parse_hextet p; Some (Z.lor (Z.shiftl a 16) h))
        (Some 0) parts.

(** [IPv6Address._ip_int_from_string]. *)
Definition ipv6_int_from_string (s : string) : option Z :=
  if String.eqb s "" then None
  else
    let parts := Str.split ":" s in
    if (length parts <? 3)%nat then None
    else
      let last_part := List.last parts "" in
      parts ←
        (if Str.contains "." last_part then
           a ← IPv4Address last_part;
           Some (removelast parts ++
                 [Str.hex4 (Z.land (Z.shiftr (addr_ip a) 16) 65535);
                  Str.hex4 (Z.land (addr_ip a) 65535)])%list
         else Some parts);
      if (9 <? length parts)%nat then None
      else
        skip_index ← find_skip 1 (inner parts) None;
        let first_empty := String.eqb (List.hd "" parts) "" in
        let last_empty := String.eqb (List.last parts "") "" in
        match skip_index with
        | Some k =>
            let hi0 := k in
            let lo0 := (length parts - k - 1)%nat in
            '(hi, ok_hi) ←
              Some (if first_empty then ((hi0 - 1)%nat, (hi0 - 1 =? 0)%nat)
                    else (hi0, true));
            '(lo, ok_lo) ←
              Some (if last_empty then ((lo0 - 1)%nat, (lo0 - 1 =? 0)%nat)
                    else (lo0, true));
            if negb ok_hi || negb ok_lo then None
            else
              let skipped := (8 - Z.of_nat (hi + lo)) in
              if skipped <? 1 then None
              else
                h ← hextets (take hi parts);
                l ← foldl (fun acc p => a ← acc; x ← parse_hextet p;
                                        Some (Z.lor (Z.shiftl a 16) x))
                          (Some (Z.shiftl h (16 * skipped)))
                          (drop (length parts - lo) parts);
                Some l
        | None =>
            if negb (length parts =? 8)%nat then None
            else if first_empty || last_empty then None
            else hextets parts
        end.

(** [IPv6Address._split_scope_id] followed by the parse: a scope id, when
    there is a ["%"], must be non-empty and without a second ["%"]. *)
Definition IPv6Address (s : string) : option address :=
  if Str.contains "/" s then None
  else
    match Str.partition "%" s with
    | (a, None) => Address V6 <$> ipv6_int_from_string a
    | (a, Some scope) =>
        if String.eqb scope "" || Str.contains "%" scope then None
        else Address V6 <$> ipv6_int_from_string a
    end.

(** [ipaddress.ip_address(s)]; [None] stands for its [ValueError]. *)
Definition ip_address (s : string) : option address :=
  match IPv4Address s with
  | Some a => Some a
  | None => IPv6Address s
  end.

(** The netmask of a prefix length, as an integer. *)
Definition netmask (v : version) (p : Z) : Z :=
  Z.lxor (Z.ones (max_prefixlen v)) (Z.ones (max_prefixlen v - p)).

(** [ipaddress.ip_network("a/p")] for a literal with a prefix length and
    no host bits set, the only form the program uses. *)
Definition ip_network (s : string) : option network :=
  match Str.partition "/" s with
  | (a, Some p) =>
      if String.eqb p "" || negb (Str.forallb Str.isdigit_char p) then None
      else
        ad ← ip_address a;
        let n := Str.to_int 10 p in
        if max_prefixlen (addr_version ad) <? n then None
        else if negb (Z.land (addr_ip ad) (netmask (addr_version ad) n) =? addr_ip ad)
        then None
        else Some (Network (addr_version ad) (addr_ip ad) n)
  | (_, None) => None
  end.

Definition version_eqb (a b : version) : bool :=
  match a, b with
  | V4, V4 | V6, V6 => true
  | _, _ => false
  end.

(** [ip in network]: false across versions, else the masked address is
    the network address. *)
Definition contains (n : network) (a : address) : bool :=
  version_eqb (net_version n) (addr_version a)
  && (Z.land (addr_ip a) (netmask (net_version n) (prefixlen n)) =? network_address n).

End Ipaddress.

(** ** [urllib.parse]: [urlparse], [urlunparse] and [hostname] *)

Module Urllib.

(** [ParseResult]: the six components of [urlparse]. *)
Record ParseResult : Type := mkParseResult {
  scheme : string;
  netloc : string;
  path : string;
  params : string;
  query : string;
  fragment : string
}.

Definition uses_params : list string :=
  [""; "ftp"; "hdl"; "prospero"; "http"; "imap"; "https"; "shttp"; "rtsp";
   "rtspu"; "sip"; "sips"; "mms"; "sftp"; "tel"].

Definition uses_netloc : list string :=
  [""; "ftp"; "http"; "gopher"; "nntp"; "telnet"; "imap"; "wais"; "file";
   "mms"; "https"; "shttp"; "snews"; "prospero"; "rtsp"; "rtspu"; "rsync";
   "svn"; "svn+ssh"; "sftp"; "nfs"; "git"; "git+ssh"; "ws"; "wss"].

Definition mem (s : string) (l : list string) : bool :=
  existsb (String.eqb s) l.

(** [_WHATWG_C0_CONTROL_OR_SPACE]: the code points up to the space. *)
Definition c0_control_or_space (c : ascii) : bool := Str.ord c <=? 32.

(** [_UNSAFE_URL_BYTES_TO_REMOVE]: tab, carriage return, line feed. *)
Definition unsafe_url_byte (c : ascii) : bool :=
  (Str.ord c =? 9) || (Str.ord c =? 13) || (Str.ord c =? 10).

(** [scheme_chars]: ASCII letters, digits and ["+-."]. *)
Definition scheme_char (c : ascii) : bool :=
  Str.isalpha_ascii c || Str.isdigit_char c
  || Ascii.eqb c "+" || Ascii.eqb c "-" || Ascii.eqb c ".".

(** The scheme test of [urlsplit]: a colon at a position [i > 0], a
    first character that is an ASCII letter, and only scheme characters
    before the colon. Returns the scheme and the rest of the URL. *)
Definition split_scheme (url : string) : string * string :=
  match Str.partition ":" url with
  | (String a pre, Some rest) =>
      if Str.isalpha_ascii a && Str.forallb scheme_char (String a pre)
      then (Str.lower (String a pre), rest)
      else (EmptyString, url)
  | _ => (EmptyString, url)
  end.

Definition netloc_delim (c : ascii) : bool :=
  Ascii.eqb c "/" || Ascii.eqb c "?" || Ascii.eqb c "#".

(** [_splitnetloc(url, 2)] on the text after the two slashes. *)
Definition splitnetloc (after_slashes : string) : string * string :=
  Str.break netloc_delim after_slashes.

(** The regular expression [\Av[a-fA-F0-9]+\..+\Z] of
    [_check_bracketed_host]. *)
Definition ipvfuture (hostname : string) : bool :=
  match hostname with
  | String "v" rest =>
      match Str.break (fun c => negb (Str.ishex_char c)) rest with
      | (String _ _, String "." (String b tail)) =>
          negb (Str.contains "010" (String b tail))
      | _ => false
      end
  | _ => false
  end.

(** [_check_bracketed_host]: [true] when it returns, [false] when it
    raises [ValueError]. *)
Definition check_bracketed_host (hostname : string) : bool :=
  if Str.startswith "v" hostname then ipvfuture hostname
  else match Ipaddress.ip_address hostname with
       | Some a =>
           match Ipaddress.addr_version a with
           | Ipaddress.V4 => false
           | Ipaddress.V6 => true
           end
       | None => false
       end.

(** The text after the last ["@"]: [netloc.rpartition('@')[2]]. *)
Definition hostinfo (netloc : string) : string :=
  match Str.rpartition "@" netloc with
  | Some (_, h) => h
  | None => netloc
  end.

(** [_check_bracketed_netloc], as a boolean in the same way. *)
Definition check_bracketed_netloc (netloc : string) : bool :=
  match Str.partition "[" (hostinfo netloc) with
  | (before_bracket, Some bracketed) =>
      if negb (String.eqb before_bracket "") then false
      else
        let '(hostname, port) := Str.partition "]" bracketed in
        let port := default "" port in
        if negb (String.eqb port "") && negb (Str.startswith ":" port) then false
        else check_bracketed_host hostname
  | (h, None) => check_bracketed_host (fst (Str.partition ":" h))
  end.

(** [url.split('#', 1)] when there is a ["#"]. *)
Definition split_fragment (url : string) : string * string :=
  match Str.partition "#" url with
  | (u, Some f) => (u, f)
  | (u, None) => (u, EmptyString)
  end.

(** [url.split('?', 1)] when there is a ["?"]. *)
Definition split_query (url : string) : string * string :=
  match Str.partition "?" url with
  | (u, Some q) => (u, q)
  | (u, None) => (u, EmptyString)
  end.

(** [url[:-1]]. *)
Fixpoint init (s : string) : string :=
  match s with
  | EmptyString => EmptyString
  | String a EmptyString => EmptyString
  | String a s' => String a (init s')
  end.

(** [_splitparams(url)]. *)
Definition splitparams (url : string) : string * string :=
  match Str.rpartition "/" url with
  | Some (dir, seg) =>
      match Str.partition ";" seg with
      | (name, Some p) => (dir +:+ "/" +:+ name, p)
      | (_, None) => (url, EmptyString)
      end
  | None =>
      match Str.partition ";" url with
      | (name, Some p) => (name, p)
      | (_, None) => (init url, url)
      end
  end.

(** The head of [urlsplit]: the leading C0 controls and spaces are
    stripped, then tabs, carriage returns and line feeds are removed. *)
Definition strip_unsafe (url : string) : string :=
  Str.remove unsafe_url_byte (Str.lstrip c0_control_or_space url).

(** [url[2:]] when [url[:2] == '//']. *)
Definition after_slashes (url : string) : option string :=
  match url with
  | String a (String b after) =>
      if Ascii.eqb a "/" && Ascii.eqb b "/" then Some after else None
  | _ => None
  end.

(** The two bracket tests of [urlsplit] on a netloc: [false] when one of
    them raises [ValueError]. *)
Definition brackets_ok (netloc : string) : bool :=
  let open_br := Str.contains "[" netloc in
  let close_br := Str.contains "]" netloc in
  if (open_br && negb close_br) || (close_br && negb open_br) then false
  else if open_br && close_br then check_bracketed_netloc netloc
  else true.

(** The [if url[:2] == '//'] block of [urlsplit]. *)
Definition split_authority (url : string) : result (string * string) :=
  match after_slashes url with
  | Some after =>
      let '(netloc, rest) := splitnetloc after in
      if brackets_ok netloc then Ok (netloc, rest) else Raise ValueError
  | None => Ok (EmptyString, url)
  end.

(** The parameter split of [urlparse]. *)
Definition split_params (scheme url : string) : string * string :=
  if mem scheme uses_params && Str.contains ";" url
  then splitparams url else (url, EmptyString).

(** [urlparse(url)]: [urlsplit(url)] and the parameter split.
    [_checknetloc] only rejects code points above 255 and is left out. *)
Definition urlparse (url : string) : result ParseResult :=
  let url := strip_unsafe url in
  let '(scheme, url) := split_scheme url in
  '(netloc, url) ← split_authority url;
  let '(url, fragment) := split_fragment url in
  let '(url, query) := split_query url in
  let '(url, params) := split_params scheme url in
  Ok (mkParseResult scheme netloc url params query fragment).

(** The first half of [urlunsplit]: the authority and the scheme are put
    in front of the path. *)
Definition unsplit_hier (scheme netloc url : string) : string :=
  let url :=
    if negb (String.eqb netloc "")
       || (negb (String.eqb scheme "") && mem scheme uses_netloc
           && negb (Str.startswith "//" url))
    then "//" +:+ netloc
         +:+ (if negb (String.eqb url "") && negb (Str.startswith "/" url)
              then "/" +:+ url else url)
    else url in
  if String.eqb scheme "" then url else scheme +:+ ":" +:+ url.

(** [urlunsplit((scheme, netloc, url, query, fragment))]. *)
Definition urlunsplit (scheme netloc url query fragment : string) : string :=
  let url := unsplit_hier scheme netloc url in
  let url := if String.eqb query "" then url else url +:+ "?" +:+ query in
  if String.eqb fragment "" then url else url +:+ "#" +:+ fragment.

(** [urlunparse((scheme, netloc, url, params, query, fragment))]. *)
Definition urlunparse (p : ParseResult) : string :=
  let url := if String.eqb (params p) "" then path p
             else path p +:+ ";" +:+ params p in
  urlunsplit (scheme p) (netloc p) url (query p) (fragment p).

(** The [hostname] property: [None] when the host is empty, else the
    host in lower case, the zone of a scoped IPv6 address kept as is. *)
Definition hostname (p : ParseResult) : option string :=
  let host :=
    match Str.partition "[" (hostinfo (netloc p)) with
    | (_, Some bracketed) => fst (Str.partition "]" bracketed)
    | (h, None) => fst (Str.partition ":" h)
    end in
  if String.eqb host "" then None
  else match Str.partition "%" host with
       | (h, Some zone) => Some (Str.lower h +:+ "%" +:+ zone)
       | (h, None) => Some (Str.lower h)
       end.

End Urllib.

(** ** [app/security/url_validator.py] *)

(** What [socket.getaddrinfo(hostname, None)] does: it returns address
    tuples, of which the program reads the address text [addr[4][0]], or
    raises [socket.gaierror], or raises something else. *)
Inductive getaddrinfo_outcome : Type :=
  | Resolved (addrs : list string)
  | Gaierror
  | OtherError.

Definition PRIVATE_IP_RANGES : list Ipaddress.network :=
  omap Ipaddress.ip_network
    ["10.0.0.0/8"; "172.16.0.0/12"; "192.168.0.0/16"; "127.0.0.0/8";
     "169.254.0.0/16"; "::1/128"; "fc00::/7"; "fe80::/10"].

Definition METADATA_ENDPOINTS : list string :=
  ["169.254.169.254"; "metadata.google.internal"].

Definition normalize_url (url : string) : result string :=
  parsed ← Urllib.urlparse (Str.lower url);
  Ok (Urllib.urlunparse
        (Urllib.mkParseResult
           (Urllib.scheme parsed)
           (Urllib.netloc parsed)
           (if negb (String.eqb (Urllib.path parsed) "/")
            then Str.rstrip (Ascii.eqb "/") (Urllib.path parsed) else "/")
           (Urllib.params parsed)
           (Urllib.query parsed)
           "")).

Definition validate_url_format (url : string) : result unit :=
  if String.eqb url "" then Raise ValueError
  else
    parsed ← Urllib.urlparse url;
    if negb (Urllib.mem (Urllib.scheme parsed) ["http"; "https"]) then Raise ValueError
    else if String.eqb (Urllib.netloc parsed) "" then Raise ValueError
    else Ok ().

Definition is_private_ip (hostname : string) : bool :=
  match Ipaddress.ip_address hostname with
  | Some ip => existsb (fun network => Ipaddress.contains network ip) PRIVATE_IP_RANGES
  | None => false
  end.

Definition is_metadata_endpoint (hostname : string) : bool :=
  Urllib.mem (Str.lower hostname) METADATA_ENDPOINTS.

(** The body of the [try] in [validate_ssrf]: the resolution and the loop
    over the addresses, which raises [SSRFError] at the first private
    one. The result is what the body raises, if anything. *)
Inductive raised : Type :=
  | RaisedSSRFError
  | RaisedGaierror
  | RaisedOther.

Definition resolve_and_check (outcome : getaddrinfo_outcome) : option raised :=
  match outcome with
  | Resolved addrs =>
      if existsb is_private_ip addrs then Some RaisedSSRFError else None
  | Gaierror => Some RaisedGaierror
  | OtherError => Some RaisedOther
  end.

(** [validate_ssrf(url)]. The two handlers of the [try] are
    [except socket.gaierror: pass] and [except Exception: pass];
    [SSRFError] derives from [Exception], so the second one takes the
    [SSRFError] raised inside the [try] as well. *)
Definition validate_ssrf (getaddrinfo : string -> getaddrinfo_outcome)
    (url : string) : result unit :=
  parsed ← Urllib.urlparse url;
  match Urllib.hostname parsed with
  | None => Raise SSRFError
  | Some hostname =>
      if is_metadata_endpoint hostname then Raise SSRFError
      else if is_private_ip hostname then Raise SSRFError
      else if Urllib.mem (Str.lower hostname) ["localhost"; "localhost.localdomain"]
      then Raise SSRFError
      else
        match resolve_and_check (getaddrinfo hostname) with
        | None => Ok ()
        | Some RaisedGaierror => Ok ()
        | Some (RaisedSSRFError | RaisedOther) => Ok ()
        end
  end.

(** ** [app/utils/domain.py] *)

(** [extract_main_domain(url)], over the lookup [psl.privatesuffix] of
    the public-suffix data set. The [except Exception] handler parses
    the URL a second time and falls back to the host name. *)
Definition extract_main_domain (privatesuffix : string -> option string)
    (url : string) : result string :=
  let attempt : result string :=
    parsed ← Urllib.urlparse url;
    match Urllib.hostname parsed with
    | None => Raise ValueError
    | Some hostname =>
        let main_domain :=
          match privatesuffix hostname with
          | Some d => if String.eqb d "" then hostname else d
          | None => hostname
          end in
        Ok (Str.lower main_domain)
    end in
  match attempt with
  | Ok d => Ok d
  | Raise _ =>
      parsed ← Urllib.urlparse url;
      match Urllib.hostname parsed with
      | Some hostname => Ok (Str.lower hostname)
      | None => Raise ValueError
      end
  end.

(** ** [datetime]: the UTC calendar date of an instant *)

Module Datetime.

Definition microseconds_per_day : Z := 86400 * 1000000.

(** Days since 1970-01-01 of an instant. *)
Definition toordinal (t : Z) : Z := t / microseconds_per_day.

(** The proleptic Gregorian year, month and day of a day number. *)
Definition civil (days : Z) : Z * Z * Z :=
  let z := days + 719468 in
  let era := z / 146097 in
  let doe := z - era * 146097 in
  let yoe := (doe - doe / 1460 + doe / 36524 - doe / 146096) / 365 in
  let doy := doe - (365 * yoe + yoe / 4 - yoe / 100) in
  let mp := (5 * doy + 2) / 153 in
  let d := doy - (153 * mp + 2) / 5 + 1 in
  let m := if mp <? 10 then mp + 3 else mp - 9 in
  ((yoe + era * 400 + if m <=? 2 then 1 else 0), m, d).

(** [t.strftime("%Y-%m-%d")] for the years 1000 to 9999. *)
Definition strftime_date (t : Z) : string :=
  let '(y, m, d) := civil (toordinal t) in
  Str.digits 10 4 y +:+ "-" +:+ Str.digits 10 2 m +:+ "-" +:+ Str.digits 10 2 d.

(** [(t1 - t0).total_seconds() > seconds] for an integer [seconds]. The
    quotient by [10**6] is a correctly rounded float; as long as the
    two sides are below 2**33 seconds the rounding cannot change the
    comparison, which is the integer one on microseconds. *)
Definition elapsed_exceeds (t0 t1 seconds : Z) : bool :=
  seconds * 1000000 <? t1 - t0.

End Datetime.

(** ** [app/config.py] and [app/models.py] *)

Record Settings : Type := mkSettings {
  default_render_mode : string;
  settings_navigation_timeout_seconds : Z;
  settings_job_timeout_seconds : Z;
  settings_max_domain_wait_seconds : Z;
  settings_max_retries : Z
}.

(** The values of [Settings()] when the environment sets none. *)
Definition default_settings : Settings := {|
  default_render_mode := "print_to_pdf";
  settings_navigation_timeout_seconds := 45;
  settings_job_timeout_seconds := 120;
  settings_max_domain_wait_seconds := 600;
  settings_max_retries := 2
|}.

Inductive JobStatus : Type :=
  | QUEUED
  | WAITING_DOMAIN_LOCK
  | RUNNING
  | SUCCEEDED
  | FAILED.

Global Instance JobStatus_eq_dec : EqDecision JobStatus.
Proof. solve_decision. Defined.

(** A row of [jobs]. *)
Record Job : Type := mkJob {
  job_id : string;
  normalized_url : string;
  main_domain : string;
  status : JobStatus;
  attempts : Z;
  created_at : Z;
  started_at : option Z;
  finished_at : option Z;
  error_code : option string;
  error_message : option string;
  render_mode : string;
  navigation_timeout_seconds : Z;
  job_timeout_seconds : Z;
  max_domain_wait_seconds : Z;
  max_retries : Z;
  deduplicated : bool;
  submission_date : string;
  metadata_json : option string
}.

(** A row of [domain_locks] without its primary key [main_domain], which
    is the key of the table below. *)
Record DomainLock : Type := mkDomainLock {
  lock_job_id : string;
  locked_at : Z;
  max_wait_seconds : Z
}.

(** The two tables behind a [Session]: the rows of [jobs] in insertion
    order, and [domain_locks] as a map from its primary key. *)
Record Database : Type := mkDatabase {
  jobs : list Job;
  domain_locks : gmap string DomainLock
}.

Definition empty_db : Database := mkDatabase [] ∅.

Definition set_status (st : JobStatus) (j : Job) : Job :=
  mkJob (job_id j) (normalized_url j) (main_domain j) st (attempts j)
    (created_at j) (started_at j) (finished_at j) (error_code j)
    (error_message j) (render_mode j) (navigation_timeout_seconds j)
    (job_timeout_seconds j) (max_domain_wait_seconds j) (max_retries j)
    (deduplicated j) (submission_date j) (metadata_json j).

Definition set_attempts (n : Z) (j : Job) : Job :=
  mkJob (job_id j) (normalized_url j) (main_domain j) (status j) n
    (created_at j) (started_at j) (finished_at j) (error_code j)
    (error_message j) (render_mode j) (navigation_timeout_seconds j)
    (job_timeout_seconds j) (max_domain_wait_seconds j) (max_retries j)
    (deduplicated j) (submission_date j) (metadata_json j).

Definition set_started_at (t : option Z) (j : Job) : Job :=
  mkJob (job_id j) (normalized_url j) (main_domain j) (status j) (attempts j)
    (created_at j) t (finished_at j) (error_code j)
    (error_message j) (render_mode j) (navigation_timeout_seconds j)
    (job_timeout_seconds j) (max_domain_wait_seconds j) (max_retries j)
    (deduplicated j) (submission_date j) (metadata_json j).

Definition set_finished_at (t : option Z) (j : Job) : Job :=
  mkJob (job_id j) (normalized_url j) (main_domain j) (status j) (attempts j)
    (created_at j) (started_at j) t (error_code j)
    (error_message j) (render_mode j) (navigation_timeout_seconds j)
    (job_timeout_seconds j) (max_domain_wait_seconds j) (max_retries j)
    (deduplicated j) (submission_date j) (metadata_json j).

Definition set_error (code message : option string) (j : Job) : Job :=
  mkJob (job_id j) (normalized_url j) (main_domain j) (status j) (attempts j)
    (created_at j) (started_at j) (finished_at j) code
    message (render_mode j) (navigation_timeout_seconds j)
    (job_timeout_seconds j) (max_domain_wait_seconds j) (max_retries j)
    (deduplicated j) (submission_date j) (metadata_json j).

(** The [UPDATE] a commit issues for a modified [Job] object: the row
    with its primary key takes the object's values. *)
Definition update_job (j : Job) (db : Database) : Database :=
  mkDatabase
    (List.map (fun r => if String.eqb (job_id r) (job_id j) then j else r) (jobs db))
    (domain_locks db).

(** The [INSERT] of a new job. The primary key [job_id] and the unique
    index [idx_dedup] on [(normalized_url, submission_date)] make it fail
    with [IntegrityError] ([None]) when a row has the same key. *)
Definition insert_job (j : Job) (db : Database) : option Database :=
  if existsb (fun r => String.eqb (job_id r) (job_id j)
                       || (String.eqb (normalized_url r) (normalized_url j)
                           && String.eqb (submission_date r) (submission_date j)))
             (jobs db)
  then None
  else Some (mkDatabase (jobs db ++ [j]) (domain_locks db)).

(** [x or default] for an [Optional[int]] and an [Optional[str]]. *)
Definition or_int (x : option Z) (d : Z) : Z :=
  match x with
  | Some v => if v =? 0 then d else v
  | None => d
  end.

Definition or_str (x : option string) (d : string) : string :=
  match x with
  | Some v => if String.eqb v "" then d else v
  | None => d
  end.

(** ** [app/queue/service.py] *)

(** What a call reads from outside the program: the clock
    ([datetime.now(timezone.utc)]), the identifier drawn by
    [uuid.uuid4()], the resolver, the public-suffix data set and
    [json.dumps]. *)
Record Env : Type := mkEnv {
  env_now : Z;
  env_uuid4 : string;
  env_getaddrinfo : string -> getaddrinfo_outcome;
  env_privatesuffix : string -> option string;
  env_json_dumps : list (string * string) -> string
}.

(** The overrides of a submission, [None] when a field is not given. *)
Record Overrides : Type := mkOverrides {
  ov_render_mode : option string;
  ov_navigation_timeout_seconds : option Z;
  ov_job_timeout_seconds : option Z;
  ov_max_domain_wait_seconds : option Z;
  ov_max_retries : option Z;
  ov_metadata : option (list (string * string))
}.

Definition no_overrides : Overrides :=
  mkOverrides None None None None None None.

(** [str(n)] of an integer. *)
Definition str_of_int (n : Z) : string :=
  DecimalString.NilZero.string_of_int (Z.to_int n).

(** [QueueService.get_job]: the row with the primary key [job_id]. *)
Definition get_job (db : Database) (id : string) : option Job :=
  List.find (fun r => String.eqb (job_id r) id) (jobs db).

(** The deduplication [SELECT]: the row with the key of the unique index
    [idx_dedup]. *)
Definition select_dedup (db : Database) (url date : string) : option Job :=
  List.find (fun r => String.eqb (normalized_url r) url
                      && String.eqb (submission_date r) date) (jobs db).

(** [ORDER BY created_at LIMIT 1]: the row with the least [created_at],
    the first inserted among equals. *)
Fixpoint oldest (rows : list Job) : option Job :=
  match rows with
  | [] => None
  | r :: rs =>
      match oldest rs with
      | Some b => if created_at b <? created_at r then Some b else Some r
      | None => Some r
      end
  end.

Definition select_oldest (st : JobStatus) (db : Database) : option Job :=
  oldest (List.filter (fun r => bool_decide (status r = st)) (jobs db)).

(** The head of [create_job]: validation, normalisation and main domain.
    Any exception leaves the function. *)
Definition validated_submission (env : Env) (url : string) : result (string * string) :=
  _ ← validate_url_format url;
  _ ← validate_ssrf (env_getaddrinfo env) url;
  normalized_url ← normalize_url url;
  main_domain ← extract_main_domain (env_privatesuffix env) url;
  Ok (normalized_url, main_domain).

(** The [Job(...)] that [create_job] builds. *)
Definition new_job (settings : Settings) (env : Env) (ov : Overrides)
    (normalized_url main_domain submission_date : string) : Job := {|
  job_id := env_uuid4 env;
  normalized_url := normalized_url;
  main_domain := main_domain;
  status := QUEUED;
  attempts := 0;
  created_at := env_now env;
  started_at := None;
  finished_at := None;
  error_code := None;
  error_message := None;
  render_mode := or_str (ov_render_mode ov) (default_render_mode settings);
  navigation_timeout_seconds :=
    or_int (ov_navigation_timeout_seconds ov)
           (settings_navigation_timeout_seconds settings);
  job_timeout_seconds :=
    or_int (ov_job_timeout_seconds ov) (settings_job_timeout_seconds settings);
  max_domain_wait_seconds :=
    or_int (ov_max_domain_wait_seconds ov)
           (settings_max_domain_wait_seconds settings);
  max_retries := or_int (ov_max_retries ov) (settings_max_retries settings);
  deduplicated := false;
  submission_date := submission_date;
  metadata_json :=
    match ov_metadata ov with
    | Some (kv :: m) => Some (env_json_dumps env (kv :: m))
    | _ => None
    end
|}.

(** [create_job]: the result, or the exception, and the database. *)
Definition create_job (settings : Settings) (env : Env) (db : Database)
    (url : string) (ov : Overrides) : result (Job * bool) * Database :=
  match validated_submission env url with
  | Raise e => (Raise e, db)
  | Ok (normalized_url, main_domain) =>
      let submission_date := Datetime.strftime_date (env_now env) in
      match select_dedup db normalized_url submission_date with
      | Some existing_job => (Ok (existing_job, true), db)
      | None =>
          let job := new_job settings env ov normalized_url main_domain submission_date in
          match insert_job job db with
          | Some db' => (Ok (job, false), db')
          | None =>
              (* IntegrityError: rollback, then the same SELECT again *)
              match select_dedup db normalized_url submission_date with
              | Some existing_job => (Ok (existing_job, true), db)
              | None => (Raise IntegrityError, db)
              end
          end
      end
  end.

(** The job [claim_next_job] looks at: the oldest [QUEUED] row, else the
    oldest [WAITING_DOMAIN_LOCK] row. *)
Definition next_candidate (db : Database) : option Job :=
  match select_oldest QUEUED db with
  | Some job => Some job
  | None => select_oldest WAITING_DOMAIN_LOCK db
  end.

(** [claim_next_job], with [now] for [datetime.now(timezone.utc)]. The
    stored [created_at] is read back as UTC, so the wait is the
    difference of the two instants. *)
Definition claim_next_job (now : Z) (db : Database) : option Job * Database :=
  match next_candidate db with
  | None => (None, db)
  | Some job =>
      match domain_locks db !! main_domain job with
      | Some _ =>
          if Datetime.elapsed_exceeds (created_at job) now (max_domain_wait_seconds job)
          then
            let job := set_status FAILED job in
            let job :=
              set_error (Some "DOMAIN_WAIT_TIMEOUT")
                (Some ("Exceeded max domain wait time: "
                       +:+ str_of_int (max_domain_wait_seconds job) +:+ "s")) job in
            let job := set_finished_at (Some now) job in
            (None, update_job job db)
          else if negb (bool_decide (status job = WAITING_DOMAIN_LOCK))
          then (None, update_job (set_status WAITING_DOMAIN_LOCK job) db)
          else (None, db)
      | None =>
          let new_lock := mkDomainLock (job_id job) now (max_domain_wait_seconds job) in
          let job := set_status RUNNING job in
          let job := set_started_at (Some now) job in
          let job := set_attempts (attempts job + 1) job in
          (Some job,
           mkDatabase (jobs (update_job job db))
                      (<[main_domain job := new_lock]> (domain_locks db)))
      end
  end.

(** [complete_job] and [requeue_job]: nothing happens when no row has
    the [job_id]; there is no other test. *)
Definition complete_job (now : Z) (db : Database) (id : string) (success : bool)
    (code message : option string) : Database :=
  match get_job db id with
  | None => db
  | Some job =>
      let job :=
        if success then set_error None None (set_status SUCCEEDED job)
        else set_error code message (set_status FAILED job) in
      let job := set_finished_at (Some now) job in
      mkDatabase (jobs (update_job job db))
                 (delete (main_domain job) (domain_locks db))
  end.

Definition requeue_job (db : Database) (id : string) : Database :=
  match get_job db id with
  | None => db
  | Some job =>
      let job := set_started_at None (set_status QUEUED job) in
      mkDatabase (jobs (update_job job db))
                 (delete (main_domain job) (domain_locks db))
  end.

(** ** [app/worker/main.py] *)

Definition non_retryable : list string :=
  ["INVALID_URL"; "SSRF_BLOCKED"; "HTTP_4XX"; "CAPTCHA_DETECTED";
   "DOMAIN_WAIT_TIMEOUT"].

(** [Worker.should_retry(job, error_code)]. *)
Definition should_retry (job : Job) (code : option string) : bool :=
  if match code with
     | Some c => Urllib.mem c non_retryable
     | None => false
     end
  then false
  else attempts job <? max_retries job.

(** What [Worker.run] decides after [process_job] returned
    [(success, error_code, error_message)]. *)
Inductive decision : Type :=
  | CompleteSucceeded
  | Requeue
  | CompleteFailed (code message : string).

Definition decide_outcome (job : Job) (success : bool)
    (code message : option string) : decision :=
  if success then CompleteSucceeded
  else if should_retry job code then Requeue
  else CompleteFailed (or_str code "RENDER_FAILED") (or_str message "Unknown error").

(** The block of [Worker.run] under "Update job status". *)
Definition update_job_status (now : Z) (db : Database) (job : Job)
    (success : bool) (code message : option string) : Database :=
  match decide_outcome job success code message with
  | CompleteSucceeded => complete_job now db (job_id job) true None None
  | Requeue => requeue_job db (job_id job)
  | CompleteFailed c m => complete_job now db (job_id job) false (Some c) (Some m)
  end.

(** ** States the queue can reach *)

(** One call of a queue operation, with any arguments. *)
Inductive step : Database -> Database -> Prop :=
  | step_create settings env db url ov :
      step db (snd (create_job settings env db url ov))
  | step_claim now db :
      step db (snd (claim_next_job now db))
  | step_complete now db id success code message :
      step db (complete_job now db id success code message)
  | step_requeue db id :
      step db (requeue_job db id).

Inductive reachable : Database -> Prop :=
  | reachable_empty : reachable empty_db
  | reachable_step db db' : reachable db -> step db db' -> reachable db'.

(** [job_id] names a row whose status is [RUNNING]. *)
Definition is_running (db : Database) (id : string) : Prop :=
  exists job, get_job db id = Some job /\ status job = RUNNING.

(** One call as the worker makes it: [complete_job] and [requeue_job]
    only for the job it has claimed, which is [RUNNING]. *)
Inductive worker_step : Database -> Database -> Prop :=
  | wstep_create settings env db url ov :
      worker_step db (snd (create_job settings env db url ov))
  | wstep_claim now db :
      worker_step db (snd (claim_next_job now db))
  | wstep_complete now db id success code message :
      is_running db id ->
      worker_step db (complete_job now db id success code message)
  | wstep_requeue db id :
      is_running db id ->
      worker_step db (requeue_job db id).

Inductive worker_reachable : Database -> Prop :=
  | wreachable_empty : worker_reachable empty_db
  | wreachable_step db db' :
      worker_reachable db -> worker_step db db' -> worker_reachable db'.

(** Exactly one row of [domain_locks] has [job_id = id]. *)
Definition exactly_one_lock (db : Database) (id : string) : Prop :=
  exists d,
    (exists l, domain_locks db !! d = Some l /\ lock_job_id l = id)
    /\ forall d' l', domain_locks db !! d' = Some l' -> lock_job_id l' = id -> d' = d.

(** The invariant of the data model: a job is [RUNNING] if and only if
    exactly one lock row names it. *)
Definition running_iff_one_lock (db : Database) : Prop :=
  forall job, In job (jobs db) ->
    (status job = RUNNING <-> exactly_one_lock db (job_id job)).

(** ** Example data *)

(** An environment with a public resolver answer and no public-suffix
    match. *)
Definition example_env (now : Z) (uuid : string) : Env := {|
  env_now := now;
  env_uuid4 := uuid;
  env_getaddrinfo := fun _ => Resolved ["93.184.216.34"];
  env_privatesuffix := fun _ => None;
  env_json_dumps := fun _ => "{}"
|}.

(** 2026-11-03 09:00:00 UTC. *)
Definition t0 : Z := 1793696400000000.

Definition example_job (st : JobStatus) (n retries : Z) : Job := {|
  job_id := "job-1";
  normalized_url := "https://example.com/a";
  main_domain := "example.com";
  status := st;
  attempts := n;
  created_at := t0;
  started_at := None;
  finished_at := None;
  error_code := None;
  error_message := None;
  render_mode := "print_to_pdf";
  navigation_timeout_seconds := 45;
  job_timeout_seconds := 120;
  max_domain_wait_seconds := 600;
  max_retries := retries;
  deduplicated := false;
  submission_date := "2026-11-03";
  metadata_json := None
|}.

(** A job that has succeeded, and no lock. *)
Definition db_succeeded : Database :=
  mkDatabase [example_job SUCCEEDED 1 2] ∅.

(** Two jobs of one domain, the first one running and holding the lock. *)
Definition db_contended : Database :=
  mkDatabase
    [example_job RUNNING 1 2;
     mkJob "job-2" "https://example.com/b" "example.com" QUEUED 0 (t0 + 1)
           None None None None "print_to_pdf" 45 120 600 2 false "2026-11-03" None]
    {[ "example.com" := mkDomainLock "job-1" (t0 + 2) 600 ]}.

(** A resolver that maps every name to the private address 10.0.0.5. *)
Definition env_private : Env := {|
  env_now := t0;
  env_uuid4 := "job-1";
  env_getaddrinfo := fun _ => Resolved ["10.0.0.5"];
  env_privatesuffix := fun _ => None;
  env_json_dumps := fun _ => "{}"
|}.

(** Two submissions for one domain, a claim of the first, and then
    [complete_job] called for the second, which is still [QUEUED]. *)
Definition db_two_jobs : Database :=
  snd (create_job default_settings (example_env (t0 + 1) "job-2")
         (snd (create_job default_settings (example_env t0 "job-1") empty_db
                 "https://example.com/p1" no_overrides))
         "https://example.com/p2" no_overrides).

Definition db_first_claimed : Database := snd (claim_next_job (t0 + 2) db_two_jobs).

Definition db_lock_lost : Database :=
  complete_job (t0 + 3) db_first_claimed "job-2" true None None.

(** ** The invariant of the tables *)

(** The invariant that the operations keep when [complete_job] and
    [requeue_job] are called for running jobs: job ids are unique, every
    lock names a running job of its domain, and every running job holds
    the lock of its domain. *)
Record queue_inv (db : Database) : Prop := {
  inv_ids : NoDup (List.map job_id (jobs db));
  inv_lock : forall d l, domain_locks db !! d = Some l ->
    exists j, In j (jobs db) /\ job_id j = lock_job_id l
              /\ status j = RUNNING /\ main_domain j = d;
  inv_running : forall j, In j (jobs db) -> status j = RUNNING ->
    exists l, domain_locks db !! main_domain j = Some l /\ lock_job_id l = job_id j
}.

(** ** Vocabulary for the properties of URLs *)

(** A character map [f] keeps the character class [p]. *)
Definition respects (f : ascii -> ascii) (p : ascii -> bool) : Prop :=
  forall a, p (f a) = p a.

(** Not a tab, carriage return or line feed. *)
Definition safe (a : ascii) : bool := negb (Urllib.unsafe_url_byte a).

(** Not one of the characters that end a netloc. *)
Definition no_delim (a : ascii) : bool := negb (Urllib.netloc_delim a).

(** The first character of [s], when there is one, is of the class [P]. *)
Definition starts_in (P : ascii -> bool) (s : string) : Prop :=
  match s with
  | EmptyString => True
  | String a _ => P a = true
  end.

(** A path that is empty or starts with a slash. *)
Definition rooted (s : string) : Prop := starts_in (Ascii.eqb "/") s.

(** The path expression of [normalize_url]. *)
Definition stripped (pa : string) : string :=
  if negb (String.eqb pa "/") then Str.rstrip (Ascii.eqb "/") pa else "/".

(** What [urlunparse] puts after the netloc for a rooted path [pa] and
    parameters [pr], and after that for a query [q]. *)
Definition hier_tail (pa pr : string) : string :=
  if String.eqb pr "" then pa
  else (if String.eqb pa "" then "/" else pa) +:+ ";" +:+ pr.

Definition query_suffix (q : string) : string :=
  if String.eqb q "" then "" else "?" +:+ q.

(** The fingerprint of an accepted URL written out from its parse. *)
Definition fingerprint (p : Urllib.ParseResult) : string :=
  Urllib.scheme p +:+ "://" +:+ Urllib.netloc p
  +:+ hier_tail (stripped (Urllib.path p)) (Urllib.params p)
  +:+ query_suffix (Urllib.query p).

(** What holds of the parse of the lower-cased form of a URL that
    [validate_url_format] accepts. *)
Record accepted_parse (p : Urllib.ParseResult) : Prop := {
  acc_scheme : Urllib.scheme p = "http" \/ Urllib.scheme p = "https";
  acc_netloc : Urllib.netloc p <> "";
  acc_no_delim : Str.forallb no_delim (Urllib.netloc p) = true;
  acc_brackets : Urllib.brackets_ok (Urllib.netloc p) = true;
  acc_rooted : rooted (Urllib.path p);
  acc_safe_netloc : Str.forallb safe (Urllib.netloc p) = true;
  acc_safe_path : Str.forallb safe (Urllib.path p) = true;
  acc_safe_params : Str.forallb safe (Urllib.params p) = true;
  acc_safe_query : Str.forallb safe (Urllib.query p) = true;
  acc_question_path : Str.contains "?" (Urllib.path p) = false;
  acc_question_params : Str.contains "?" (Urllib.params p) = false;
  acc_hash_path : Str.contains "#" (Urllib.path p) = false;
  acc_hash_params : Str.contains "#" (Urllib.params p) = false;
  acc_hash_query : Str.contains "#" (Urllib.query p) = false;
  acc_slash_params : Str.contains "/" (Urllib.params p) = false;
  acc_lower_netloc : Str.lower (Urllib.netloc p) = Urllib.netloc p;
  acc_lower_path : Str.lower (Urllib.path p) = Urllib.path p;
  acc_lower_params : Str.lower (Urllib.params p) = Urllib.params p;
  acc_lower_query : Str.lower (Urllib.query p) = Urllib.query p
}.

(** ** [validate_redirects] of [app/security/url_validator.py] *)

(** What [client.head(current_url)] does: it returns a response, of
    which the program reads the status code and the [location] header,
    or raises [httpx.RequestError], or raises another exception (one
    that is no [SSRFError] and no [asyncio.TimeoutError]). *)
Inductive head_outcome : Type :=
  | Response (status_code : Z) (location : option string)
  | RequestError
  | HeadException.

(** What a call of [validate_redirects] does: it returns a URL, or an
    exception of the validators or of [urlparse] leaves it, or the other
    exception of the client does. *)
Inductive redirects_outcome : Type :=
  | FinalUrl (url : string)
  | RedirectRaises (e : exn)
  | ClientRaises.

Definition redirect_statuses : list Z := [301; 302; 303; 307; 308].

(** "Make absolute if relative": a target that starts with a slash is
    put behind the scheme and the netloc of the current URL. *)
Definition absolute_redirect (current_url redirect_url : string) : result string :=
  if Str.startswith "/" redirect_url then
    parsed ← Urllib.urlparse current_url;
    Ok (Urllib.scheme parsed +:+ "://" +:+ Urllib.netloc parsed +:+ redirect_url)
  else Ok redirect_url.

(** The [while redirect_count < max_redirects] loop, with
    [remaining = max_redirects - redirect_count] rounds to go. Every
    round sends one request and ends the loop or adds one to
    [redirect_count], so [head] is given the number of the request with
    its URL. *)
Fixpoint redirect_loop (getaddrinfo : string -> getaddrinfo_outcome)
    (head : nat -> string -> head_outcome) (remaining redirect_count : nat)
    (current_url : string) : redirects_outcome :=
  match remaining with
  | O => FinalUrl current_url
  | S remaining =>
      match head redirect_count current_url with
      | Response status_code location =>
          if existsb (Z.eqb status_code) redirect_statuses then
            match location with
            | None => FinalUrl current_url
            | Some redirect_url =>
                if String.eqb redirect_url "" then FinalUrl current_url
                else
                  match (redirect_url ← absolute_redirect current_url redirect_url;
                         _ ← validate_url_format redirect_url;
                         _ ← validate_ssrf getaddrinfo redirect_url;
                         Ok redirect_url) with
                  | Ok redirect_url =>
                      redirect_loop getaddrinfo head remaining (S redirect_count)
                        redirect_url
                  | Raise e => RedirectRaises e
                  end
            end
          else FinalUrl current_url
      | RequestError => FinalUrl current_url
      | HeadException => ClientRaises
      end
  end.

Definition validate_redirects (getaddrinfo : string -> getaddrinfo_outcome)
    (head : nat -> string -> head_outcome) (url : string) (max_redirects : Z)
    : redirects_outcome :=
  redirect_loop getaddrinfo head (Z.to_nat max_redirects) 0 url.

(** ** [Worker.process_job] and the rest of the loop body of [Worker.run] *)

(** What [asyncio.wait_for(render_service.render_to_pdf(...), timeout)]
    does: it returns, or raises [asyncio.TimeoutError], or raises another
    exception (the renderer raises no [SSRFError]). *)
Inductive render_outcome : Type :=
  | Rendered
  | RenderTimeout
  | RenderException.

(** What a run of [process_job] reads from outside the program: the
    answers to the [HEAD] requests, the outcome of the rendering of a URL
    for a job, and the text [str(e)] of the exception that its handler
    gets, if one runs. *)
Record Web : Type := mkWeb {
  web_head : nat -> string -> head_outcome;
  web_render : string -> Job -> render_outcome;
  web_str_e : string
}.

(** [process_job(job)]: [(success, error_code, error_message)]. *)
Definition process_job (getaddrinfo : string -> getaddrinfo_outcome) (web : Web)
    (job : Job) : bool * option string * option string :=
  match validate_redirects getaddrinfo (web_head web) (normalized_url job) 5 with
  | FinalUrl final_url =>
      match web_render web final_url job with
      | Rendered => (true, None, None)
      | RenderTimeout =>
          (false, Some "JOB_TIMEOUT",
           Some ("Job exceeded time limit of "
                 +:+ str_of_int (job_timeout_seconds job) +:+ "s"))
      | RenderException => (false, Some "RENDER_FAILED", Some (web_str_e web))
      end
  | RedirectRaises SSRFError => (false, Some "SSRF_BLOCKED", Some (web_str_e web))
  | RedirectRaises _ => (false, Some "RENDER_FAILED", Some (web_str_e web))
  | ClientRaises => (false, Some "RENDER_FAILED", Some (web_str_e web))
  end.

(** The loop body of [Worker.run] from "Process job" on, for the job
    that has been claimed. *)
Definition run_job (getaddrinfo : string -> getaddrinfo_outcome) (web : Web)
    (now : Z) (db : Database) (job : Job) : Database :=
  let '(success, error_code, error_message) := process_job getaddrinfo web job in
  update_job_status now db job success error_code error_message.

(** One call as the worker loop makes it: the status update is for the
    job that the worker has claimed, whose row is [RUNNING] and has the
    values that the claim gave it. *)
Inductive run_step : Database -> Database -> Prop :=
  | rstep_create settings env db url ov :
      run_step db (snd (create_job settings env db url ov))
  | rstep_claim now db :
      run_step db (snd (claim_next_job now db))
  | rstep_update now db job success code message :
      get_job db (job_id job) = Some job -> status job = RUNNING ->
      run_step db (update_job_status now db job success code message).

Inductive run_reachable : Database -> Prop :=
  | rreachable_empty : run_reachable empty_db
  | rreachable_step db db' : run_reachable db -> run_step db db' -> run_reachable db'.

(** ** [app/worker/cleanup.py] *)

(** An entry of the PDF directory as [cleanup_old_files] meets it: the
    instant that [datetime.fromtimestamp] makes of its [st_mtime], or
    [None] when [stat()] raises (as for a dangling link), and whether
    [unlink()] succeeds (it raises for a directory). A directory is the
    map of its entries by name, and [None] below is a directory that does
    not exist. *)
Record DirEntry : Type := mkDirEntry {
  st_mtime : option Z;
  unlink_ok : bool
}.

(** [s.endswith(suffix)]. *)
Fixpoint endswith (suffix s : string) : bool :=
  String.eqb s suffix
  || match s with
     | EmptyString => false
     | String _ s' => endswith suffix s'
     end.

(** [pdf_dir.glob("*.pdf")]: the entries, hidden ones and directories
    too, whose name ends in [".pdf"]. *)
Definition glob_pdf (dir : gmap string DirEntry) : list (string * DirEntry) :=
  List.filter (fun f => endswith ".pdf" (fst f)) (map_to_list dir).

(** The directory and the two counters of the loop. *)
Record Cleanup : Type := mkCleanup {
  cleanup_dir : gmap string DirEntry;
  deleted_count : Z;
  error_count : Z
}.

(** The body of the loop for one file: [age > age_threshold] compares
    two [timedelta]s, which are whole microseconds. *)
Definition cleanup_file (now age_seconds : Z) (st : Cleanup)
    (f : string * DirEntry) : Cleanup :=
  match st_mtime (snd f) with
  | Some mtime =>
      if Datetime.elapsed_exceeds mtime now age_seconds then
        if unlink_ok (snd f)
        then mkCleanup (delete (fst f) (cleanup_dir st)) (deleted_count st + 1)
                       (error_count st)
        else mkCleanup (cleanup_dir st) (deleted_count st) (error_count st + 1)
      else st
  | None => mkCleanup (cleanup_dir st) (deleted_count st) (error_count st + 1)
  end.

(** [cleanup_old_files], with [now] for [datetime.now(timezone.utc)] and
    [age_seconds] for [settings.cleanup_file_age_seconds]: the directory
    afterwards and the two counts, or [None] when there is no
    directory. *)
Definition cleanup_old_files (now age_seconds : Z) (pdf_dir : option (gmap string DirEntry))
    : option Cleanup :=
  match pdf_dir with
  | None => None
  | Some dir =>
      Some (foldl (cleanup_file now age_seconds) (mkCleanup dir 0 0) (glob_pdf dir))
  end.

(** [path.exists()] for the entry [name] of the PDF directory. *)
Definition path_exists (pdf_dir : option (gmap string DirEntry)) (name : string) : bool :=
  match pdf_dir with
  | Some dir =>
      match dir !! name with
      | Some e => bool_decide (is_Some (st_mtime e))
      | None => false
      end
  | None => false
  end.

(** ** [app/api/schemas.py] *)

(** The values of [RenderMode]. *)
Definition RenderMode_values : list string := ["print_to_pdf"; "screenshot_to_pdf"].

(** [Field(None, ge=lo, le=hi)] on an [Optional[int]]. *)
Definition field_ge_le (lo hi : Z) (x : option Z) : bool :=
  match x with
  | Some v => (lo <=? v) && (v <=? hi)
  | None => true
  end.

(** [validate_render_mode]: [true] when it returns. *)
Definition validate_render_mode (v : option string) : bool :=
  match v with
  | Some v => negb (negb (String.eqb v "") && negb (Urllib.mem v RenderMode_values))
  | None => true
  end.

(** Whether the fields of a [JobSubmitRequest] other than [url] pass
    its validation. *)
Definition JobSubmitRequest_valid (request : Overrides) : bool :=
  validate_render_mode (ov_render_mode request)
  && field_ge_le 10 3600 (ov_max_domain_wait_seconds request)
  && field_ge_le 5 300 (ov_navigation_timeout_seconds request)
  && field_ge_le 10 600 (ov_job_timeout_seconds request)
  && field_ge_le 0 5 (ov_max_retries request).

Record JobSubmitResponse : Type := mkJobSubmitResponse {
  submitted_job_id : string;
  submitted_status : JobStatus;
  submitted_deduplicated : bool
}.

Record JobStatusResponse : Type := mkJobStatusResponse {
  reported_job_id : string;
  reported_status : JobStatus;
  reported_attempts : Z;
  reported_created_at : Z;
  reported_started_at : option Z;
  reported_finished_at : option Z;
  reported_error_code : option string;
  reported_error_message : option string;
  reported_deduplicated : bool
}.

(** [JobStatusResponse.model_validate(job)]. *)
Definition model_validate (job : Job) : JobStatusResponse := {|
  reported_job_id := job_id job;
  reported_status := status job;
  reported_attempts := attempts job;
  reported_created_at := created_at job;
  reported_started_at := started_at job;
  reported_finished_at := finished_at job;
  reported_error_code := error_code job;
  reported_error_message := error_message job;
  reported_deduplicated := deduplicated job
|}.

(** ** [app/api/main.py] *)

(** What an endpoint does: it returns a body, sent with the status code
    of the route, or raises [HTTPException(status_code, ...)], of which
    the status code is kept. *)
Inductive http_response (A : Type) : Type :=
  | Returned (status_code : Z) (body : A)
  | HTTPException (status_code : Z).
Arguments Returned {A} status_code body.
Arguments HTTPException {A} status_code.

(** [POST /v1/pdf-jobs]. *)
Definition submit_job (settings : Settings) (env : Env) (db : Database)
    (url : string) (request : Overrides)
    : http_response JobSubmitResponse * Database :=
  match create_job settings env db url request with
  | (Ok (job, deduplicated), db') =>
      (Returned 202 (mkJobSubmitResponse (job_id job) (status job) deduplicated), db')
  | (Raise ValueError, db') => (HTTPException 400, db')
  | (Raise SSRFError, db') => (HTTPException 400, db')
  | (Raise IntegrityError, db') => (HTTPException 500, db')
  end.

(** [GET /v1/pdf-jobs/{job_id}]. *)
Definition get_job_status (db : Database) (job_id : string)
    : http_response JobStatusResponse :=
  match get_job db job_id with
  | None => HTTPException 404
  | Some job => Returned 200 (model_validate job)
  end.

(** [GET /v1/pdf-jobs/{job_id}/file], for the PDF directory [pdf_dir]:
    the name of the file that is sent. The path parameter [job_id] has no
    slash, so the path is an entry of the directory. *)
Definition download_pdf (db : Database) (pdf_dir : option (gmap string DirEntry))
    (job_id : string) : http_response string :=
  match get_job db job_id with
  | None => HTTPException 404
  | Some job =>
      if negb (bool_decide (status job = SUCCEEDED)) then HTTPException 400
      else if negb (path_exists pdf_dir (job_id +:+ ".pdf")) then HTTPException 404
      else Returned 200 (job_id +:+ ".pdf")
  end.

(** ** Vocabulary for the properties of the cleanup *)

(** The entries that [cleanup_file] unlinks: those with a modification
    time older than the threshold whose [unlink()] succeeds. *)
Definition unlinked (now age_seconds : Z) (e : DirEntry) : bool :=
  match st_mtime e with
  | Some mtime => Datetime.elapsed_exceeds mtime now age_seconds && unlink_ok e
  | None => false
  end.

(** ** Vocabulary for the properties of a run *)

(** What the status update leaves of the row [job] after an error with
    the code [code] that can be retried: the row [j'] is [QUEUED] again,
    with its attempts kept, when [attempts < max_retries], and [FAILED]
    with the code otherwise. *)
Definition retried_or_failed (now : Z) (job j' : Job) (code : string) : Prop :=
  (attempts job < max_retries job ->
     status j' = QUEUED /\ started_at j' = None /\ attempts j' = attempts job)
  /\ (max_retries job <= attempts job ->
        status j' = FAILED /\ error_code j' = Some code /\ finished_at j' = Some now).

(** ** More example data *)

(** The row that the claim has made [RUNNING] in [db_first_claimed]. *)
Definition job_claimed : Job :=
  List.hd (example_job QUEUED 0 0) (jobs db_first_claimed).

(** No redirect, and a rendering that runs into the time limit. *)
Definition web_timeout : Web :=
  mkWeb (fun _ _ => Response 200 None) (fun _ _ => RenderTimeout) "".

(** Two redirects to a target that starts with two slashes. *)
Definition head_two_slashes (k : nat) (url : string) : head_outcome :=
  if (k <? 2)%nat then Response 302 (Some "//other.example/x") else Response 200 None.

(** A PDF written at the instant 0, one written five seconds later, and
    a text file. *)
Definition dir_three_files : gmap string DirEntry :=
  {[ "a.pdf" := mkDirEntry (Some 0) true;
     "b.pdf" := mkDirEntry (Some 5000000) true;
     "a.txt" := mkDirEntry (Some 0) true ]}.

(** The PDF of [job-1], written at [t0]. *)
Definition dir_job_1 : gmap string DirEntry :=
  {[ "job-1.pdf" := mkDirEntry (Some t0) true ]}.

(** * Properties *)

Local Arguments String.append !_ _ / : simpl nomatch.

(** ** Exceptions *)

Lemma bind_Ok {A B : Type} (r : result A) (k : A -> result B) b :
  r ≫= k = Ok b -> exists a, r = Ok a /\ k a = Ok b.
Proof. destruct r as [a | e]; [eauto | done]. Qed.

(** ** Strings *)

Module StrFacts.
Import Str.

Section Generic.

Implicit Types (s t u : string) (a c : ascii) (p q : ascii -> bool).

Lemma app_nil_r s : s +:+ "" = s.
Proof. induction s as [| a s IH]; simpl; congruence. Qed.

Lemma app_assoc s t u : (s +:+ t) +:+ u = s +:+ (t +:+ u).
Proof. induction s as [| a s IH]; simpl; congruence. Qed.

Lemma eqb_sym a c : Ascii.eqb a c = Ascii.eqb c a.
Proof.
  destruct (Ascii.eqb a c) eqn:E.
  - apply Ascii.eqb_eq in E as ->. by rewrite Ascii.eqb_refl.
  - destruct (Ascii.eqb c a) eqn:E'; [| done].
    apply Ascii.eqb_eq in E' as ->. by rewrite Ascii.eqb_refl in E.
Qed.

Lemma forallb_app p s t : forallb p (s +:+ t) = forallb p s && forallb p t.
Proof. induction s as [| a s IH]; simpl; [done |]. by rewrite IH, andb_assoc. Qed.

Lemma contains_app c s t : contains c (s +:+ t) = contains c s || contains c t.
Proof. induction s as [| a s IH]; simpl; [done |]. by rewrite IH, orb_assoc. Qed.

Lemma forallb_cons p a s : forallb p (String a s) = p a && forallb p s.
Proof. done. Qed.

Lemma contains_cons c a s : contains c (String a s) = Ascii.eqb a c || contains c s.
Proof. done. Qed.

Lemma contains_nil c : contains c "" = false.
Proof. done. Qed.

Lemma forallb_impl p q s :
  (forall a, p a = true -> q a = true) -> forallb p s = true -> forallb q s = true.
Proof.
  intros H. induction s as [| a s IH]; simpl; [done |].
  intros [Ha Hs]%andb_true_iff. rewrite (H a Ha). auto.
Qed.

Lemma contains_false_forallb c s :
  contains c s = false <-> forallb (fun a => negb (Ascii.eqb c a)) s = true.
Proof.
  induction s as [| a s IH]; simpl; [done |].
  rewrite orb_false_iff, andb_true_iff, IH, negb_true_iff, (eqb_sym a c). done.
Qed.

Lemma map_app f s t : map f (s +:+ t) = map f s +:+ map f t.
Proof. induction s as [| a s IH]; simpl; congruence. Qed.

(** *** [break] and [partition] *)

Lemma break_app p s : fst (break p s) +:+ snd (break p s) = s.
Proof.
  induction s as [| a s IH]; simpl; [done |].
  destruct (p a); simpl; [done |].
  destruct (break p s) as [l r]. simpl in *. congruence.
Qed.

Lemma break_fst p s : forallb (fun a => negb (p a)) (fst (break p s)) = true.
Proof.
  induction s as [| a s IH]; simpl; [done |].
  destruct (p a) eqn:E; simpl; [done |].
  destruct (break p s) as [l r]. simpl in *. by rewrite E.
Qed.

Lemma break_snd p s :
  match snd (break p s) with
  | EmptyString => True
  | String a _ => p a = true
  end.
Proof.
  induction s as [| a s IH]; simpl; [done |].
  destruct (p a) eqn:E; simpl; [done |].
  by destruct (break p s) as [l r].
Qed.

Lemma break_all p s : forallb (fun a => negb (p a)) s = true -> break p s = (s, "").
Proof.
  induction s as [| a s IH]; simpl; [done |].
  intros [Ha Hs]%andb_true_iff. apply negb_true_iff in Ha. rewrite Ha, IH; done.
Qed.

Lemma break_hit p s a t :
  forallb (fun a => negb (p a)) s = true -> p a = true ->
  break p (s +:+ String a t) = (s, String a t).
Proof.
  intros Hs Ha. induction s as [| b s IH]; simpl.
  - by rewrite Ha.
  - simpl in Hs. apply andb_true_iff in Hs as [Hb Hs]. apply negb_true_iff in Hb.
    rewrite Hb, IH; done.
Qed.

(** [break] is decided by a prefix that reaches a character of the set. *)
Lemma break_app_hit p s l a r t :
  break p s = (l, String a r) -> break p (s +:+ t) = (l, String a r +:+ t).
Proof.
  revert l. induction s as [| b s IH]; simpl; [done |]. intros l.
  destruct (p b); [by intros [= <- <- <-] |].
  destruct (break p s) as [l' r'] eqn:E. intros [= <- ->].
  by rewrite (IH l' eq_refl).
Qed.

Lemma break_inv p s l r :
  break p s = (l, r) ->
  s = l +:+ r /\ forallb (fun a => negb (p a)) l = true
  /\ match r with EmptyString => True | String a _ => p a = true end.
Proof.
  intros H. pose proof (break_app p s). pose proof (break_fst p s).
  pose proof (break_snd p s). rewrite H in *. simpl in *. done.
Qed.

Lemma partition_none c s : contains c s = false -> partition c s = (s, None).
Proof.
  intros H. apply contains_false_forallb in H. unfold partition.
  by rewrite (break_all _ _ H).
Qed.

Lemma partition_hit c s t :
  contains c s = false -> partition c (s +:+ String c t) = (s, Some t).
Proof.
  intros H. apply contains_false_forallb in H. unfold partition.
  rewrite (break_hit _ _ c t H); [done | apply Ascii.eqb_refl].
Qed.

Lemma partition_inv c s l o :
  partition c s = (l, o) ->
  contains c l = false
  /\ match o with
     | Some r => s = l +:+ String c r
     | None => s = l
     end.
Proof.
  unfold partition. destruct (break (Ascii.eqb c) s) as [l' r'] eqn:E.
  apply break_inv in E as (Hs & Hl & Hr).
  destruct r' as [| a r']; intros [= <- <-].
  - split; [by apply contains_false_forallb |]. by rewrite app_nil_r in Hs.
  - split; [by apply contains_false_forallb |].
    apply Ascii.eqb_eq in Hr. by subst.
Qed.

Lemma partition_contains c s :
  contains c s = true -> exists l r, partition c s = (l, Some r).
Proof.
  intros H. destruct (partition c s) as [l [r |]] eqn:E; [eauto |].
  apply partition_inv in E as [Hl ->]. congruence.
Qed.

(** *** [rpartition] *)

Lemma rpartition_inv c s l r :
  rpartition c s = Some (l, r) -> s = l +:+ String c r /\ contains c r = false.
Proof.
  revert l. induction s as [| a s IH]; simpl; [done |]. intros l.
  destruct (rpartition c s) as [[l' r'] |] eqn:E.
  - intros [= <- <-]. destruct (IH l' eq_refl) as [-> Hr]. done.
  - destruct (Ascii.eqb a c) eqn:Ea; [| done]. intros [= <- <-].
    apply Ascii.eqb_eq in Ea as ->. split; [done |].
    clear IH. induction s as [| b s IH]; simpl in *; [done |].
    destruct (rpartition c s) as [[? ?] |]; [done |].
    destruct (Ascii.eqb b c); [done |]. simpl. auto.
Qed.

Lemma rpartition_None c s : rpartition c s = None <-> contains c s = false.
Proof.
  induction s as [| a s IH]; simpl; [done |].
  destruct (rpartition c s) as [[l r] |].
  - split; [done |]. intros [_ H]%orb_false_iff. by apply IH in H.
  - destruct (Ascii.eqb a c); simpl; [done |]. split; [intros _; by apply IH | done].
Qed.

Lemma rpartition_hit c s t :
  contains c t = false -> rpartition c (s +:+ String c t) = Some (s, t).
Proof.
  intros H. apply rpartition_None in H.
  induction s as [| a s IH]; simpl.
  - by rewrite H, Ascii.eqb_refl.
  - by rewrite IH.
Qed.

(** *** [lstrip], [rstrip] and [remove] *)

Lemma lstrip_head p a s : p a = false -> lstrip p (String a s) = String a s.
Proof. simpl. by intros ->. Qed.

Lemma remove_id p s : forallb (fun a => negb (p a)) s = true -> remove p s = s.
Proof.
  induction s as [| a s IH]; simpl; [done |].
  intros [Ha Hs]%andb_true_iff. apply negb_true_iff in Ha. rewrite Ha, IH; done.
Qed.

Lemma remove_forallb p s : forallb (fun a => negb (p a)) (remove p s) = true.
Proof.
  induction s as [| a s IH]; simpl; [done |].
  destruct (p a) eqn:E; simpl; [done |]. by rewrite E.
Qed.

Lemma remove_app p s t : remove p (s +:+ t) = remove p s +:+ remove p t.
Proof.
  induction s as [| a s IH]; simpl; [done |]. destruct (p a); simpl; congruence.
Qed.

Lemma rstrip_app p s : exists t, s = rstrip p s +:+ t /\ forallb p t = true.
Proof.
  induction s as [| a s IH]; simpl; [by exists "" |].
  destruct IH as (t & Hs & Ht). destruct (rstrip p s) as [| b r] eqn:E.
  - destruct (p a) eqn:Ea.
    + exists (String a s). simpl in Hs. subst t. simpl. by rewrite Ea.
    + exists t. simpl in *. by subst.
  - exists t. simpl in *. split; [congruence | done].
Qed.

Lemma rstrip_no_last c s : endswith_char c (rstrip (Ascii.eqb c) s) = false.
Proof.
  induction s as [| a s IH]; simpl; [done |].
  destruct (rstrip (Ascii.eqb c) s) as [| b r] eqn:E.
  - destruct (Ascii.eqb c a) eqn:Ea; simpl; [done |]. by rewrite eqb_sym.
  - simpl in *. exact IH.
Qed.

Lemma rstrip_id c s : endswith_char c s = false -> rstrip (Ascii.eqb c) s = s.
Proof.
  induction s as [| a s IH]; simpl; [done |].
  destruct s as [| b s].
  - simpl. rewrite eqb_sym. by intros ->.
  - intros H. rewrite (IH H). done.
Qed.

Lemma rstrip_idem c s : rstrip (Ascii.eqb c) (rstrip (Ascii.eqb c) s) = rstrip (Ascii.eqb c) s.
Proof. apply rstrip_id, rstrip_no_last. Qed.

Lemma forallb_eqb_repeat c t :
  forallb (Ascii.eqb c) t = true -> t = repeat c (String.length t).
Proof.
  induction t as [| a t IH]; simpl; [done |].
  intros [Ha Ht]%andb_true_iff. apply Ascii.eqb_eq in Ha as <-. by rewrite <- IH.
Qed.

End Generic.

(** *** Character maps that keep a character class *)

Section Respects.

Variable f : ascii -> ascii.
Implicit Types (s : string) (c : ascii) (p : ascii -> bool).

Lemma forallb_map p s : respects f p -> forallb p (map f s) = forallb p s.
Proof. intros H. induction s as [| a s IH]; simpl; [done |]. by rewrite H, IH. Qed.

Lemma contains_map c s :
  respects f (fun a => Ascii.eqb a c) -> contains c (map f s) = contains c s.
Proof. intros H. induction s as [| a s IH]; simpl; [done |]. by rewrite H, IH. Qed.

Lemma lstrip_map p s : respects f p -> lstrip p (map f s) = map f (lstrip p s).
Proof.
  intros H. induction s as [| a s IH]; simpl; [done |].
  rewrite H. by destruct (p a).
Qed.

Lemma remove_map p s : respects f p -> remove p (map f s) = map f (remove p s).
Proof.
  intros H. induction s as [| a s IH]; simpl; [done |].
  rewrite H. destruct (p a); simpl; congruence.
Qed.

Lemma break_map p s :
  respects f p ->
  break p (map f s) = (map f (fst (break p s)), map f (snd (break p s))).
Proof.
  intros H. induction s as [| a s IH]; simpl; [done |].
  rewrite H. destruct (p a); simpl; [done |].
  rewrite IH. by destruct (break p s).
Qed.

Lemma partition_map c s :
  respects f (Ascii.eqb c) ->
  partition c (map f s)
  = (map f (fst (partition c s)), map f <$> snd (partition c s)).
Proof.
  intros H. unfold partition. rewrite (break_map _ _ H).
  destruct (break (Ascii.eqb c) s) as [l [| a r]]; done.
Qed.

Lemma rpartition_map c s :
  respects f (fun a => Ascii.eqb a c) ->
  rpartition c (map f s)
  = (fun lr => (map f (fst lr), map f (snd lr))) <$> rpartition c s.
Proof.
  intros H. induction s as [| a s IH]; simpl; [done |].
  rewrite IH. destruct (rpartition c s) as [[l r] |]; simpl; [done |].
  rewrite H. by destruct (Ascii.eqb a c).
Qed.

Lemma rstrip_map p s : respects f p -> rstrip p (map f s) = map f (rstrip p s).
Proof.
  intros H. induction s as [| a s IH]; simpl; [done |].
  rewrite IH. destruct (rstrip p s); simpl; [| done].
  rewrite H. by destruct (p a).
Qed.

End Respects.

(** *** [lower] *)

Ltac by_cases_on_char :=
  let a := fresh "a" in
  intros a; destruct a as [[] [] [] [] [] [] [] []]; vm_compute; reflexivity.

Lemma lower_char_idem : forall a, lower_char (lower_char a) = lower_char a.
Proof. by_cases_on_char. Qed.

Lemma lower_idem s : lower (lower s) = lower s.
Proof.
  unfold lower. induction s as [| a s IH]; simpl; [done |].
  by rewrite lower_char_idem, IH.
Qed.

Lemma lower_app s t : lower (s +:+ t) = lower s +:+ lower t.
Proof. apply map_app. Qed.

Lemma lower_eqb_colon : respects lower_char (Ascii.eqb ":").
Proof. by_cases_on_char. Qed.
Lemma lower_eqb_hash : respects lower_char (Ascii.eqb "#").
Proof. by_cases_on_char. Qed.
Lemma lower_eqb_question : respects lower_char (Ascii.eqb "?").
Proof. by_cases_on_char. Qed.
Lemma lower_eqb_semicolon : respects lower_char (Ascii.eqb ";").
Proof. by_cases_on_char. Qed.
Lemma lower_eqb_slash : respects lower_char (Ascii.eqb "/").
Proof. by_cases_on_char. Qed.
Lemma lower_eqb_slash' : respects lower_char (fun a => Ascii.eqb a "/").
Proof. by_cases_on_char. Qed.
Lemma lower_eqb_semicolon' : respects lower_char (fun a => Ascii.eqb a ";").
Proof. by_cases_on_char. Qed.
Lemma lower_isalpha : respects lower_char isalpha_ascii.
Proof. by_cases_on_char. Qed.

End StrFacts.

(** ** [urlparse], stage by stage *)

Module UrlFacts.
Import Str StrFacts Urllib.

Lemma lower_c0 : respects lower_char c0_control_or_space.
Proof. by_cases_on_char. Qed.
Lemma lower_unsafe : respects lower_char unsafe_url_byte.
Proof. by_cases_on_char. Qed.
Lemma lower_scheme_char : respects lower_char scheme_char.
Proof. by_cases_on_char. Qed.
Lemma lower_netloc_delim : respects lower_char netloc_delim.
Proof. by_cases_on_char. Qed.

(** [urlparse] as the composition of its stages. *)
Lemma urlparse_Ok url p :
  urlparse url = Ok p <->
  exists r1 r2 r3 r4,
    split_scheme (strip_unsafe url) = (scheme p, r1)
    /\ split_authority r1 = Ok (netloc p, r2)
    /\ split_fragment r2 = (r3, fragment p)
    /\ split_query r3 = (r4, query p)
    /\ split_params (scheme p) r4 = (path p, params p).
Proof.
  unfold urlparse. split.
  - destruct (split_scheme (strip_unsafe url)) as [s r1] eqn:E1.
    destruct (split_authority r1) as [[n r2] | e] eqn:E2; cbn [mbind result_bind]; [| done].
    destruct (split_fragment r2) as [r3 f] eqn:E3.
    destruct (split_query r3) as [r4 q] eqn:E4.
    destruct (split_params s r4) as [pa pr] eqn:E5.
    intros [= <-]. by exists r1, r2, r3, r4.
  - intros (r1 & r2 & r3 & r4 & -> & E2 & E3 & E4 & E5).
    rewrite E2. cbn [mbind result_bind]. rewrite E3, E4, E5. by destruct p.
Qed.

(** *** What each stage returns *)

Lemma split_scheme_inv url s r :
  split_scheme url = (s, r) ->
  (s = "" /\ r = url)
  \/ (exists pre, s = lower pre /\ url = pre +:+ String ":" r /\ pre <> ""
                  /\ forallb scheme_char pre = true).
Proof.
  unfold split_scheme. destruct (partition ":" url) as [l o] eqn:E.
  apply partition_inv in E as [Hl Ho].
  destruct l as [| a pre]; [intros [= <- <-]; by left |].
  destruct o as [rest |]; [| intros [= <- <-]; by left].
  destruct (isalpha_ascii a && forallb scheme_char (String a pre)) eqn:Ec;
    [| intros [= <- <-]; by left].
  intros [= <- <-]. right. exists (String a pre).
  apply andb_true_iff in Ec as [_ Ec]. done.
Qed.

Lemma after_slashes_inv url after :
  after_slashes url = Some after -> url = "//" +:+ after.
Proof.
  destruct url as [| a [| b r]]; simpl; try done.
  destruct (Ascii.eqb a "/") eqn:Ea; [| done].
  destruct (Ascii.eqb b "/") eqn:Eb; [| done].
  apply Ascii.eqb_eq in Ea, Eb. subst. by intros [= <-].
Qed.

Lemma after_slashes_app after : after_slashes ("//" +:+ after) = Some after.
Proof. done. Qed.

Lemma split_authority_inv url n r :
  split_authority url = Ok (n, r) ->
  (n = "" /\ r = url)
  \/ (url = "//" +:+ n +:+ r
      /\ forallb (fun a => negb (netloc_delim a)) n = true
      /\ match r with EmptyString => True | String a _ => netloc_delim a = true end
      /\ brackets_ok n = true).
Proof.
  unfold split_authority. destruct (after_slashes url) as [after |] eqn:E.
  - apply after_slashes_inv in E. unfold splitnetloc.
    destruct (break netloc_delim after) as [n' r'] eqn:Eb.
    apply break_inv in Eb as (Ha & Hn & Hr).
    destruct (brackets_ok n') eqn:Ek; [| done].
    intros [= <- <-]. right. subst. done.
  - intros [= <- <-]. by left.
Qed.

Lemma split_authority_app n r :
  forallb (fun a => negb (netloc_delim a)) n = true ->
  match r with EmptyString => True | String a _ => netloc_delim a = true end ->
  brackets_ok n = true ->
  split_authority ("//" +:+ n +:+ r) = Ok (n, r).
Proof.
  intros Hn Hr Hk. unfold split_authority. rewrite after_slashes_app.
  unfold splitnetloc. destruct r as [| a r].
  - rewrite app_nil_r, (break_all _ _ Hn), Hk. done.
  - rewrite (break_hit _ _ _ _ Hn Hr), Hk. done.
Qed.

Lemma split_fragment_inv url r f :
  split_fragment url = (r, f) ->
  contains "#" r = false /\ (url = r /\ f = "" \/ url = r +:+ String "#" f).
Proof.
  unfold split_fragment. destruct (partition "#" url) as [l [x |]] eqn:E;
    apply partition_inv in E as [Hl Hu]; intros [= <- <-]; auto.
Qed.

Lemma split_query_inv url r q :
  split_query url = (r, q) ->
  contains "?" r = false /\ (url = r /\ q = "" \/ url = r +:+ String "?" q).
Proof.
  unfold split_query. destruct (partition "?" url) as [l [x |]] eqn:E;
    apply partition_inv in E as [Hl Hu]; intros [= <- <-]; auto.
Qed.

Lemma splitparams_inv url pa pr :
  contains ";" url = true -> splitparams url = (pa, pr) ->
  (pa = url /\ pr = "")
  \/ (url = pa +:+ String ";" pr /\ contains "/" pr = false).
Proof.
  intros Hc. unfold splitparams.
  destruct (rpartition "/" url) as [[dir seg] |] eqn:Er.
  - apply rpartition_inv in Er as [Hu Hseg].
    destruct (partition ";" seg) as [name [p |]] eqn:Ep;
      apply partition_inv in Ep as [Hn Hs]; intros [= <- <-]; [| by left].
    right. subst seg url. rewrite contains_app in Hseg.
    apply orb_false_iff in Hseg as [_ Hseg]. simpl in Hseg.
    split; [| done]. by rewrite !app_assoc.
  - apply rpartition_None in Er.
    destruct (partition_contains _ _ Hc) as (l & r & Ep). rewrite Ep.
    apply partition_inv in Ep as [Hn Hs]. intros [= <- <-]. right.
    subst url. rewrite contains_app in Er. apply orb_false_iff in Er as [_ Er].
    simpl in Er. done.
Qed.

Lemma split_params_inv s url pa pr :
  split_params s url = (pa, pr) ->
  (pa = url /\ pr = "")
  \/ (url = pa +:+ String ";" pr /\ contains "/" pr = false).
Proof.
  unfold split_params. destruct (mem s uses_params && contains ";" url) eqn:E.
  - apply andb_true_iff in E as [_ E]. by apply splitparams_inv.
  - intros [= <- <-]. by left.
Qed.

(** *** Lower case commutes with the stages *)

Lemma strip_unsafe_lower url : strip_unsafe (lower url) = lower (strip_unsafe url).
Proof.
  unfold strip_unsafe, lower.
  by rewrite (lstrip_map _ _ _ lower_c0), (remove_map _ _ _ lower_unsafe).
Qed.

Lemma split_scheme_lower url :
  split_scheme (lower url)
  = (fst (split_scheme url), lower (snd (split_scheme url))).
Proof.
  unfold split_scheme, lower. rewrite (partition_map _ _ _ lower_eqb_colon).
  destruct (partition ":" url) as [[| a pre] [rest |]]; try done.
  cbn [fst snd fmap option_fmap option_map map].
  change (String (lower_char a) (map lower_char pre)) with (map lower_char (String a pre)).
  rewrite (forallb_map _ _ _ lower_scheme_char), lower_isalpha.
  destruct (isalpha_ascii a && forallb scheme_char (String a pre)); [| done].
  cbn [fst snd]. f_equal. apply (lower_idem (String a pre)).
Qed.

Lemma after_slashes_lower url : after_slashes (lower url) = lower <$> after_slashes url.
Proof.
  destruct url as [| a [| b r]]; try done. cbn [lower map after_slashes].
  rewrite !lower_eqb_slash'. by destruct (Ascii.eqb a "/" && Ascii.eqb b "/").
Qed.

Lemma split_authority_lower url n r n' r' :
  split_authority url = Ok (n, r) -> split_authority (lower url) = Ok (n', r') ->
  n' = lower n /\ r' = lower r.
Proof.
  unfold split_authority. rewrite after_slashes_lower.
  destruct (after_slashes url) as [after |]; cbn [fmap option_fmap option_map].
  - unfold splitnetloc, lower. rewrite (break_map _ _ _ lower_netloc_delim).
    destruct (break netloc_delim after) as [n0 r0]. cbn [fst snd].
    destruct (brackets_ok n0); [| done]. intros [= <- <-].
    destruct (brackets_ok _); [| done]. by intros [= <- <-].
  - intros [= <- <-] [= <- <-]. done.
Qed.

Lemma split_fragment_lower url :
  split_fragment (lower url)
  = (lower (fst (split_fragment url)), lower (snd (split_fragment url))).
Proof.
  unfold split_fragment, lower. rewrite (partition_map _ _ _ lower_eqb_hash).
  by destruct (partition "#" url) as [l [r |]].
Qed.

Lemma split_query_lower url :
  split_query (lower url)
  = (lower (fst (split_query url)), lower (snd (split_query url))).
Proof.
  unfold split_query, lower. rewrite (partition_map _ _ _ lower_eqb_question).
  by destruct (partition "?" url) as [l [r |]].
Qed.

Lemma init_lower url : init (lower url) = lower (init url).
Proof.
  induction url as [| a [| b r] IH]; try done.
  change (lower (String a (String b r))) with (String (lower_char a) (lower (String b r))).
  change (lower (String b r)) with (String (lower_char b) (lower r)) in *.
  cbn [init]. cbn [init] in IH. by rewrite IH.
Qed.

Lemma splitparams_lower url :
  splitparams (lower url)
  = (lower (fst (splitparams url)), lower (snd (splitparams url))).
Proof.
  unfold splitparams. unfold lower at 1 2.
  rewrite (rpartition_map _ _ _ lower_eqb_slash').
  destruct (rpartition "/" url) as [[dir seg] |]; cbn [fmap option_fmap option_map fst snd].
  - rewrite (partition_map _ _ _ lower_eqb_semicolon).
    destruct (partition ";" seg) as [name [p |]]; cbn [fmap option_fmap option_map fst snd];
      [| done].
    by rewrite !lower_app.
  - rewrite (partition_map _ _ _ lower_eqb_semicolon).
    destruct (partition ";" url) as [name [p |]]; cbn [fmap option_fmap option_map fst snd];
      [done |].
    by rewrite init_lower.
Qed.

Lemma split_params_lower s url :
  split_params s (lower url)
  = (lower (fst (split_params s url)), lower (snd (split_params s url))).
Proof.
  unfold split_params. unfold lower at 1. rewrite (contains_map _ _ _ lower_eqb_semicolon').
  destruct (mem s uses_params && contains ";" url); [apply splitparams_lower | done].
Qed.

(** The components of [urlparse (lower url)] are those of
    [urlparse url] in lower case (the scheme is in lower case already). *)
Lemma urlparse_lower url p0 p :
  urlparse url = Ok p0 -> urlparse (lower url) = Ok p ->
  scheme p = scheme p0 /\ netloc p = lower (netloc p0) /\ path p = lower (path p0)
  /\ params p = lower (params p0) /\ query p = lower (query p0)
  /\ fragment p = lower (fragment p0).
Proof.
  intros (a1 & a2 & a3 & a4 & A1 & A2 & A3 & A4 & A5)%urlparse_Ok
         (b1 & b2 & b3 & b4 & B1 & B2 & B3 & B4 & B5)%urlparse_Ok.
  rewrite strip_unsafe_lower, split_scheme_lower, A1 in B1.
  cbn [fst snd] in B1. injection B1 as Hs <-.
  destruct (split_authority_lower _ _ _ _ _ A2 B2) as [Hn ->].
  rewrite split_fragment_lower, A3 in B3. cbn [fst snd] in B3. injection B3 as <- Hf.
  rewrite split_query_lower, A4 in B4. cbn [fst snd] in B4. injection B4 as <- Hq.
  rewrite <- Hs, split_params_lower, A5 in B5. cbn [fst snd] in B5.
  injection B5 as Hp Hr. done.
Qed.

End UrlFacts.

(** ** The fingerprint (C7, C8, C9) *)

Section Fingerprint.
Import Str StrFacts Urllib UrlFacts.

(** The path [normalize_url] puts into the fingerprint. *)
Lemma normalize_url_Ok url p :
  urlparse (lower url) = Ok p ->
  normalize_url url
  = Ok (urlunparse
          (mkParseResult (scheme p) (netloc p)
             (if negb (String.eqb (path p) "/") then rstrip (Ascii.eqb "/") (path p) else "/")
             (params p) (query p) "")).
Proof. intros H. unfold normalize_url. by rewrite H. Qed.

(** C7, as stated, fails: of the two trailing slashes of ["/a//"] none is
    left, where the specification leaves one. *)
Lemma normalize_url_strips_both_slashes :
  normalize_url "https://example.com/a//" = Ok "https://example.com/a"
  /\ normalize_url "https://example.com/a//" <> Ok "https://example.com/a/".
Proof. split; [reflexivity | intros H; vm_compute in H; discriminate H]. Qed.

(** *** Characters the components cannot contain *)

Lemma scheme_char_not_question :
  forall a, implb (scheme_char a) (negb (Ascii.eqb "?" a)) = true.
Proof. by_cases_on_char. Qed.

Lemma scheme_char_not_hash :
  forall a, implb (scheme_char a) (negb (Ascii.eqb "#" a)) = true.
Proof. by_cases_on_char. Qed.

Lemma scheme_without c url s r :
  (forall a, implb (scheme_char a) (negb (Ascii.eqb c a)) = true) ->
  split_scheme url = (s, r) -> contains c s = false.
Proof.
  intros Hsc [[-> _] | (pre & -> & _ & _ & Hpre)]%split_scheme_inv; [done |].
  apply contains_false_forallb.
  assert (Hl : forallb scheme_char (lower pre) = true)
    by (unfold lower; by rewrite (forallb_map _ _ _ lower_scheme_char)).
  eapply forallb_impl; [| exact Hl]. intros a Ha.
  specialize (Hsc a). by rewrite Ha in Hsc.
Qed.

Lemma netloc_without c url n r :
  netloc_delim c = true -> split_authority url = Ok (n, r) -> contains c n = false.
Proof.
  intros Hd [[-> _] | (_ & Hn & _)]%split_authority_inv; [done |].
  apply contains_false_forallb. eapply forallb_impl; [| exact Hn].
  intros a Ha. simpl in Ha. destruct (Ascii.eqb c a) eqn:E; [| done].
  apply Ascii.eqb_eq in E as <-. by rewrite Hd in Ha.
Qed.

Lemma params_without c s url pa pr :
  split_params s url = (pa, pr) -> contains c url = false ->
  contains c pa = false /\ contains c pr = false.
Proof.
  intros [[-> ->] | [-> _]]%split_params_inv Hc; [done |].
  rewrite contains_app in Hc. apply orb_false_iff in Hc as [Hpa Hpr].
  simpl in Hpr. apply orb_false_iff in Hpr as [_ Hpr]. done.
Qed.

(** No ["?"] before the query, and no ["#"] before the fragment. *)
Lemma urlparse_no_question url p :
  urlparse url = Ok p ->
  contains "?" (scheme p) = false /\ contains "?" (netloc p) = false
  /\ contains "?" (path p) = false /\ contains "?" (params p) = false.
Proof.
  intros (r1 & r2 & r3 & r4 & E1 & E2 & E3 & E4 & E5)%urlparse_Ok.
  apply split_query_inv in E4 as [H4 _].
  destruct (params_without "?" _ _ _ _ E5 H4) as [? ?].
  repeat split; try done.
  - eapply scheme_without; [apply scheme_char_not_question | exact E1].
  - eapply netloc_without; [done | exact E2].
Qed.

Lemma urlparse_no_hash url p :
  urlparse url = Ok p ->
  contains "#" (scheme p) = false /\ contains "#" (netloc p) = false
  /\ contains "#" (path p) = false /\ contains "#" (params p) = false
  /\ contains "#" (query p) = false.
Proof.
  intros (r1 & r2 & r3 & r4 & E1 & E2 & E3 & E4 & E5)%urlparse_Ok.
  apply split_fragment_inv in E3 as [H3 _].
  assert (H4 : contains "#" r4 = false /\ contains "#" (query p) = false).
  { apply split_query_inv in E4 as [_ [[-> ->] | ->]]; [done |].
    rewrite contains_app in H3. apply orb_false_iff in H3 as [? H3].
    simpl in H3. done. }
  destruct H4 as [H4 Hq].
  destruct (params_without "#" _ _ _ _ E5 H4) as [? ?].
  repeat split; try done.
  - eapply scheme_without; [apply scheme_char_not_hash | exact E1].
  - eapply netloc_without; [done | exact E2].
Qed.

Lemma unsplit_hier_without c s n u :
  Ascii.eqb "/" c = false -> Ascii.eqb ":" c = false ->
  contains c s = false -> contains c n = false -> contains c u = false ->
  contains c (unsplit_hier s n u) = false.
Proof.
  intros H1 H2 Hs Hn Hu. unfold unsplit_hier.
  repeat case_match;
    rewrite ?contains_app, ?contains_cons, ?contains_nil, ?H1, ?H2, ?Hs, ?Hn, ?Hu; done.
Qed.

Lemma rstrip_without c q s : contains c s = false -> contains c (rstrip q s) = false.
Proof.
  intros H. destruct (rstrip_app q s) as (t & Hs & _). rewrite Hs, contains_app in H.
  by apply orb_false_iff in H as [? _].
Qed.

(** The fingerprint splits at its first ["?"] into the part before the
    query and the query of [urlparse (lower url)]. *)
Lemma split_query_fingerprint url p o :
  urlparse (lower url) = Ok p -> normalize_url url = Ok o ->
  exists pre, split_query o = (pre, query p)
    /\ o = pre +:+ (if String.eqb (query p) "" then "" else "?" +:+ query p).
Proof.
  intros Hp Ho. rewrite (normalize_url_Ok _ _ Hp) in Ho. injection Ho as <-.
  destruct (urlparse_no_question _ _ Hp) as (Hs & Hn & Hpa & Hpr).
  unfold urlunparse, urlunsplit. cbn [scheme netloc path params query fragment].
  set (pa := if negb (String.eqb (path p) "/") then _ else _).
  set (u := if String.eqb (params p) "" then _ else _).
  assert (Hpa' : contains "?" pa = false).
  { unfold pa. destruct (negb _); [by apply rstrip_without | done]. }
  assert (Hu : contains "?" u = false).
  { unfold u. destruct (String.eqb (params p) ""); [done |].
    by rewrite !contains_app, !contains_cons, contains_nil, Hpa', Hpr. }
  assert (Hh : contains "?" (unsplit_hier (scheme p) (netloc p) u) = false)
    by by apply unsplit_hier_without.
  exists (unsplit_hier (scheme p) (netloc p) u). cbn [String.eqb].
  unfold split_query. destruct (String.eqb (query p) "") eqn:Eq.
  - apply String.eqb_eq in Eq. by rewrite (partition_none _ _ Hh), Eq, app_nil_r.
  - change (?a +:+ "?" +:+ ?b) with (a +:+ String "?" b).
    by rewrite (partition_hit _ _ _ Hh).
Qed.

(** C8, as stated, fails: the query is put in lower case with the rest
    of the URL, so it is not kept verbatim, and two URLs that differ
    only in the order of two parameters that differ only in case have
    one fingerprint. *)
Lemma normalize_url_lowercases_query :
  normalize_url "https://example.com/p?Key=Value" = Ok "https://example.com/p?key=value"
  /\ "https://example.com/p?id=1&ID=1" <> "https://example.com/p?ID=1&id=1"
  /\ normalize_url "https://example.com/p?id=1&ID=1"
     = normalize_url "https://example.com/p?ID=1&id=1".
Proof. repeat split; try reflexivity. intros H; discriminate H. Qed.

(** C8, amended. [normalize_url] keeps the query string of the URL in
    lower case, in its order and unsorted, as the text after the first
    ["?"] of the fingerprint; two URLs whose queries differ after
    lowercasing, as when parameters are reordered, have distinct
    fingerprints. *)
Theorem normalize_url_keeps_lowercased_query url p0 p :
  urlparse url = Ok p0 -> urlparse (lower url) = Ok p ->
  query p = lower (query p0)
  /\ (exists pre,
        normalize_url url
        = Ok (pre +:+ (if String.eqb (query p) "" then "" else "?" +:+ query p))
        /\ contains "?" pre = false)
  /\ (forall url' p', urlparse (lower url') = Ok p' -> query p' <> query p ->
        normalize_url url' <> normalize_url url).
Proof.
  intros H0 H. split; [| split].
  - by destruct (urlparse_lower _ _ _ H0 H) as (_ & _ & _ & _ & ? & _).
  - pose proof (normalize_url_Ok _ _ H) as Ho.
    destruct (split_query_fingerprint _ _ _ H Ho) as (pre & Hq & Hpre).
    exists pre. rewrite Ho. split; [by f_equal |].
    by apply split_query_inv in Hq as [? _].
  - intros url' p' H' Hne Heq.
    pose proof (normalize_url_Ok _ _ H) as Ho.
    pose proof (normalize_url_Ok _ _ H') as Ho'.
    destruct (split_query_fingerprint _ _ _ H Ho) as (pre & Hq & _).
    destruct (split_query_fingerprint _ _ _ H' Ho') as (pre' & Hq' & _).
    rewrite Ho, Ho' in Heq. injection Heq as Heq. rewrite Heq in Hq'.
    rewrite Hq in Hq'. by injection Hq' as _ Hq'.
Qed.

Lemma normalize_url_keeps_lowercased_query_witness :
  normalize_url "https://example.com/p?b=2&A=1" = Ok ("https://example.com/p" +:+ "?b=2&a=1")
  /\ normalize_url "https://example.com/p?A=1&b=2"
     <> normalize_url "https://example.com/p?b=2&A=1".
Proof.
  pose proof (normalize_url_keeps_lowercased_query
                "https://example.com/p?b=2&A=1"
                (mkParseResult "https" "example.com" "/p" "" "b=2&A=1" "")
                (mkParseResult "https" "example.com" "/p" "" "b=2&a=1" "")
                eq_refl eq_refl) as (_ & _ & Hd).
  split; [reflexivity |].
  apply (Hd "https://example.com/p?A=1&b=2"
            (mkParseResult "https" "example.com" "/p" "" "a=1&b=2" "") eq_refl).
  intros H. discriminate H.
Defined.

End Fingerprint.

(** ** Accepted URLs and their fingerprints (C9) *)

Section Accepted.
Import Str StrFacts Urllib UrlFacts.

Lemma lstrip_app_stop p s a t :
  p a = false -> lstrip p (s +:+ String a t) = lstrip p s +:+ String a t.
Proof.
  intros Ha. induction s as [| b s IH]; simpl; [by rewrite Ha |].
  by destruct (p b).
Qed.

Lemma contains_lstrip c p s : contains c s = false -> contains c (lstrip p s) = false.
Proof.
  induction s as [| a s IH]; simpl; [done |].
  intros [Ha Hs]%orb_false_iff. destruct (p a); [auto |]. simpl. by rewrite Ha, Hs.
Qed.

Lemma contains_remove c p s : contains c s = false -> contains c (remove p s) = false.
Proof.
  induction s as [| a s IH]; simpl; [done |].
  intros [Ha Hs]%orb_false_iff. destruct (p a); [auto |]. simpl. by rewrite Ha, IH.
Qed.

Lemma contains_strip_unsafe c s :
  contains c s = false -> contains c (strip_unsafe s) = false.
Proof. intros H. by apply contains_remove, contains_lstrip. Qed.

Lemma rstrip_snoc c s :
  rstrip (Ascii.eqb c) (s +:+ String c "") = rstrip (Ascii.eqb c) s.
Proof.
  induction s as [| a s IH]; simpl; [by rewrite Ascii.eqb_refl |]. by rewrite IH.
Qed.

Lemma lower_nil s : lower s = "" -> s = "".
Proof. by destruct s. Qed.

Lemma split_scheme_app_hit url s r x :
  split_scheme url = (s, r) -> s <> "" -> split_scheme (url +:+ x) = (s, r +:+ x).
Proof.
  unfold split_scheme, partition.
  destruct (break (Ascii.eqb ":") url) as [l [| a rest]] eqn:E.
  - destruct l; intros [= <- <-]; done.
  - rewrite (break_app_hit _ _ _ _ _ x E). cbn [String.append].
    destruct l as [| b pre]; [by intros [= <- <-] |].
    destruct (isalpha_ascii b && forallb scheme_char (String b pre)).
    + by intros [= <- <-].
    + by intros [= <- <-].
Qed.

(** *** After [strip_unsafe] no component has a tab, CR or LF *)

Lemma strip_unsafe_safe url : forallb safe (strip_unsafe url) = true.
Proof. apply remove_forallb. Qed.

Lemma urlparse_safe url p :
  urlparse url = Ok p ->
  forallb safe (netloc p) = true /\ forallb safe (path p) = true
  /\ forallb safe (params p) = true /\ forallb safe (query p) = true.
Proof.
  intros (r1 & r2 & r3 & r4 & E1 & E2 & E3 & E4 & E5)%urlparse_Ok.
  pose proof (strip_unsafe_safe url) as H0.
  assert (H1 : forallb safe r1 = true).
  { apply split_scheme_inv in E1 as [[_ ->] | (pre & _ & Hu & _)]; [done |].
    rewrite Hu, forallb_app, forallb_cons in H0.
    by apply andb_true_iff in H0 as [_ [_ H0]%andb_true_iff]. }
  assert (H2 : forallb safe (netloc p) = true /\ forallb safe r2 = true).
  { apply split_authority_inv in E2 as [[-> ->] | (Hu & _)]; [done |].
    rewrite Hu in H1. change ("//" +:+ ?x) with (String "/" (String "/" x)) in H1.
    rewrite !forallb_cons, forallb_app in H1.
    by apply andb_true_iff in H1 as [_ [_ H1%andb_true_iff]%andb_true_iff]. }
  destruct H2 as [Hn H2].
  assert (H3 : forallb safe r3 = true).
  { apply split_fragment_inv in E3 as [_ [[-> _] | ->]]; [done |].
    rewrite forallb_app in H2. by apply andb_true_iff in H2 as [? _]. }
  assert (H4 : forallb safe r4 = true /\ forallb safe (query p) = true).
  { apply split_query_inv in E4 as [_ [[-> ->] | ->]]; [done |].
    rewrite forallb_app, forallb_cons in H3.
    by apply andb_true_iff in H3 as [? [_ ?]%andb_true_iff]. }
  destruct H4 as [H4 Hq].
  apply split_params_inv in E5 as [[-> ->] | [-> _]]; [done |].
  rewrite forallb_app, forallb_cons in H4.
  by apply andb_true_iff in H4 as [? [_ ?]%andb_true_iff].
Qed.

(** *** The shape of a parse with an authority *)

Lemma rooted_inv s : rooted s -> s = "" \/ exists t, s = String "/" t.
Proof.
  destruct s as [| a t]; [by left |]. intros H. right. exists t.
  change (Ascii.eqb "/" a = true) in H. by apply Ascii.eqb_eq in H as <-.
Qed.

Lemma starts_in_without P c s :
  starts_in P s -> contains c s = false ->
  starts_in (fun a => P a && negb (Ascii.eqb a c)) s.
Proof.
  destruct s as [| a s]; [done |]. simpl. intros -> [Ha _]%orb_false_iff.
  by rewrite Ha.
Qed.

Lemma starts_in_app P l x : starts_in P (l +:+ x) -> starts_in P l.
Proof. by destruct l. Qed.

Lemma delim_not_hash_not_question :
  forall a, implb (netloc_delim a && negb (Ascii.eqb a "#") && negb (Ascii.eqb a "?"))
                  (Ascii.eqb "/" a) = true.
Proof. by_cases_on_char. Qed.

Lemma urlparse_authority url p :
  urlparse url = Ok p -> netloc p <> "" ->
  forallb no_delim (netloc p) = true /\ brackets_ok (netloc p) = true
  /\ rooted (path p).
Proof.
  intros (r1 & r2 & r3 & r4 & E1 & E2 & E3 & E4 & E5)%urlparse_Ok Hn.
  apply split_authority_inv in E2 as [[? _] | (_ & Hnd & Hr2 & Hk)]; [done |].
  repeat split; try done.
  change (starts_in netloc_delim r2) in Hr2.
  assert (H3 : starts_in (fun a => netloc_delim a && negb (Ascii.eqb a "#")) r3).
  { apply split_fragment_inv in E3 as [Hc [[-> _] | ->]].
    - by apply starts_in_without.
    - apply starts_in_app in Hr2. by apply starts_in_without. }
  assert (H4 : starts_in (fun a => netloc_delim a && negb (Ascii.eqb a "#")
                                   && negb (Ascii.eqb a "?")) r4).
  { apply split_query_inv in E4 as [Hc [[-> _] | ->]].
    - by apply starts_in_without.
    - apply starts_in_app in H3. by apply starts_in_without. }
  assert (H5 : starts_in (fun a => netloc_delim a && negb (Ascii.eqb a "#")
                                   && negb (Ascii.eqb a "?")) (path p)).
  { apply split_params_inv in E5 as [[-> _] | [-> _]]; [done |].
    by apply starts_in_app in H4. }
  unfold rooted. destruct (path p) as [| a t]; [done |]. simpl in *.
  pose proof (delim_not_hash_not_question a) as Hd. by rewrite H5 in Hd.
Qed.

(** *** What the format validator accepts *)

Lemma validate_url_format_Ok url :
  validate_url_format url = Ok () ->
  exists p0, urlparse url = Ok p0
    /\ (scheme p0 = "http" \/ scheme p0 = "https") /\ netloc p0 <> "".
Proof.
  unfold validate_url_format. destruct (String.eqb url ""); [done |].
  intros (p0 & Hp & H)%bind_Ok. exists p0. split; [done |].
  destruct (mem (scheme p0) ["http"; "https"]) eqn:Em; [| done].
  destruct (String.eqb (netloc p0) "") eqn:En; [done |].
  apply String.eqb_neq in En. split; [| done].
  unfold mem in Em. simpl in Em.
  destruct (String.eqb (scheme p0) "http") eqn:E1; [apply String.eqb_eq in E1; auto |].
  destruct (String.eqb (scheme p0) "https") eqn:E2; [apply String.eqb_eq in E2; auto |].
  done.
Qed.

Lemma accepted_lower url p :
  validate_url_format url = Ok () -> urlparse (lower url) = Ok p ->
  (scheme p = "http" \/ scheme p = "https") /\ netloc p <> "".
Proof.
  intros (p0 & Hp0 & Hs & Hn)%validate_url_format_Ok Hp.
  destruct (urlparse_lower _ _ _ Hp0 Hp) as (-> & -> & _).
  split; [done |]. intros H%lower_nil. done.
Qed.

(** The components of [urlparse (lower url)] are in lower case. *)
Lemma urlparse_lower_fixed url p :
  urlparse (lower url) = Ok p ->
  lower (netloc p) = netloc p /\ lower (path p) = path p
  /\ lower (params p) = params p /\ lower (query p) = query p.
Proof.
  intros H. pose proof H as H'. rewrite <- (lower_idem url) in H'.
  destruct (urlparse_lower _ _ _ H H') as (_ & ? & ? & ? & ? & _). done.
Qed.

(** *** The fingerprint of an accepted URL, spelled out *)

Lemma urlunparse_accepted s n pa pr q :
  s = "http" \/ s = "https" -> n <> "" -> rooted pa ->
  urlunparse (mkParseResult s n pa pr q "")
  = s +:+ "://" +:+ n +:+ hier_tail pa pr +:+ query_suffix q.
Proof.
  intros Hs Hn Hpa. unfold urlunparse, urlunsplit, unsplit_hier, hier_tail, query_suffix.
  cbn [scheme netloc path params query fragment].
  apply String.eqb_neq in Hn. rewrite Hn. cbn [negb orb].
  assert (String.eqb s "" = false) as -> by (destruct Hs as [-> | ->]; done).
  change (String.eqb "" "") with true. cbn iota.
  assert (Hu : (let u := if String.eqb pr "" then pa else pa +:+ ";" +:+ pr in
                if negb (String.eqb u "") && negb (startswith "/" u) then "/" +:+ u else u)
               = hier_tail pa pr).
  { unfold hier_tail.
    destruct (rooted_inv _ Hpa) as [-> | [t ->]]; by destruct (String.eqb pr ""). }
  cbn zeta in Hu. rewrite Hu. fold (hier_tail pa pr).
  destruct (String.eqb q "").
  - by rewrite app_nil_r.
  - by rewrite !app_assoc.
Qed.

Lemma stripped_rooted pa : rooted pa -> rooted (stripped pa).
Proof.
  unfold stripped. destruct (negb (String.eqb pa "/")); [| done].
  intros H. destruct (rstrip_app (Ascii.eqb "/") pa) as (t & Hpa & _).
  rewrite Hpa in H. by apply starts_in_app in H.
Qed.

Lemma stripped_idem pa : stripped (stripped pa) = stripped pa.
Proof.
  unfold stripped. destruct (String.eqb pa "/") eqn:E; [done |]. cbn [negb].
  destruct (String.eqb (rstrip (Ascii.eqb "/") pa) "/") eqn:E'.
  - apply String.eqb_eq in E'. pose proof (rstrip_no_last "/" pa) as H.
    by rewrite E' in H.
  - cbn [negb]. apply rstrip_idem.
Qed.

(** *** Parsing a URL put together from components *)

Lemma split_scheme_http x : split_scheme ("http" +:+ "://" +:+ x) = ("http", "//" +:+ x).
Proof. reflexivity. Qed.

Lemma split_scheme_https x : split_scheme ("https" +:+ "://" +:+ x) = ("https", "//" +:+ x).
Proof. reflexivity. Qed.

Lemma query_suffix_safe q : forallb safe q = true -> forallb safe (query_suffix q) = true.
Proof. unfold query_suffix. by destruct (String.eqb q ""). Qed.

Lemma query_suffix_no_hash q :
  contains "#" q = false -> contains "#" (query_suffix q) = false.
Proof. unfold query_suffix. by destruct (String.eqb q ""). Qed.

Lemma split_query_suffix u q :
  contains "?" u = false -> split_query (u +:+ query_suffix q) = (u, q).
Proof.
  intros H. unfold split_query, query_suffix. destruct (String.eqb q "") eqn:E.
  - apply String.eqb_eq in E as ->. by rewrite app_nil_r, (partition_none _ _ H).
  - change ("?" +:+ q) with (String "?" q). by rewrite (partition_hit _ _ _ H).
Qed.

Lemma urlparse_assembled s n u q :
  s = "http" \/ s = "https" ->
  forallb no_delim n = true -> brackets_ok n = true ->
  forallb safe n = true -> forallb safe u = true -> forallb safe q = true ->
  rooted u -> contains "?" u = false -> contains "#" u = false ->
  contains "#" q = false ->
  urlparse (s +:+ "://" +:+ n +:+ u +:+ query_suffix q)
  = Ok (mkParseResult s n (fst (split_params s u)) (snd (split_params s u)) q "").
Proof.
  intros Hs Hnd Hk Hsn Hsu Hsq Hr Hq Hh Hhq.
  apply urlparse_Ok. cbn [scheme netloc path params query fragment].
  exists ("//" +:+ n +:+ u +:+ query_suffix q), (u +:+ query_suffix q),
         (u +:+ query_suffix q), u.
  assert (Hsafe : forallb safe (n +:+ u +:+ query_suffix q) = true)
    by by rewrite !forallb_app, Hsn, Hsu, query_suffix_safe.
  repeat split.
  - unfold strip_unsafe. destruct Hs as [-> | ->].
    + change ("http" +:+ "://" +:+ ?x) with (String "h" ("ttp" +:+ "://" +:+ x)).
      rewrite lstrip_head by done.
      change (String "h" ("ttp" +:+ "://" +:+ ?x)) with ("http://" +:+ x).
      rewrite remove_id; [apply split_scheme_http |].
      rewrite forallb_app. apply andb_true_iff. split; [done | exact Hsafe].
    + change ("https" +:+ "://" +:+ ?x) with (String "h" ("ttps" +:+ "://" +:+ x)).
      rewrite lstrip_head by done.
      change (String "h" ("ttps" +:+ "://" +:+ ?x)) with ("https://" +:+ x).
      rewrite remove_id; [apply split_scheme_https |].
      rewrite forallb_app. apply andb_true_iff. split; [done | exact Hsafe].
  - apply split_authority_app; try done.
    destruct (rooted_inv _ Hr) as [-> | [t ->]]; [| done].
    unfold query_suffix. by destruct (String.eqb q "").
  - unfold split_fragment. rewrite partition_none; [done |].
    by rewrite contains_app, Hh, query_suffix_no_hash.
  - by apply split_query_suffix.
  - by destruct (split_params s u).
Qed.

Lemma forallb_rstrip P q s : forallb P s = true -> forallb P (rstrip q s) = true.
Proof.
  intros H. destruct (rstrip_app q s) as (t & Hs & _). rewrite Hs, forallb_app in H.
  by apply andb_true_iff in H as [? _].
Qed.

Lemma stripped_safe pa : forallb safe pa = true -> forallb safe (stripped pa) = true.
Proof.
  unfold stripped. destruct (negb (String.eqb pa "/")); [apply forallb_rstrip | done].
Qed.

Lemma stripped_without c pa :
  Ascii.eqb "/" c = false -> contains c pa = false -> contains c (stripped pa) = false.
Proof.
  intros Hc. unfold stripped. destruct (negb (String.eqb pa "/")); [apply rstrip_without |].
  intros _. by rewrite contains_cons, Hc.
Qed.

Lemma urlparse_params_no_slash url p :
  urlparse url = Ok p -> contains "/" (params p) = false.
Proof.
  intros (r1 & r2 & r3 & r4 & _ & _ & _ & _ & E5)%urlparse_Ok.
  by apply split_params_inv in E5 as [[_ ->] | [_ ?]].
Qed.

Lemma splitparams_hit pa pr :
  (exists t, pa = String "/" t) -> contains ";" pa = false -> contains "/" pr = false ->
  splitparams (pa +:+ ";" +:+ pr) = (pa, pr).
Proof.
  intros [t Ht] Hsemi Hpr. unfold splitparams.
  destruct (rpartition "/" pa) as [[dir seg] |] eqn:Er.
  - apply rpartition_inv in Er as [Hpa Hseg].
    assert (Hseg' : contains ";" seg = false).
    { rewrite Hpa, contains_app, contains_cons in Hsemi.
      by apply orb_false_iff in Hsemi as [_ [_ ?]%orb_false_iff]. }
    rewrite Hpa at 1. rewrite app_assoc. cbn [String.append].
    rewrite rpartition_hit.
    + change (";" +:+ pr) with (String ";" pr).
      rewrite (partition_hit _ _ _ Hseg'). by rewrite Hpa.
    + by rewrite contains_app, Hseg, contains_cons, Hpr.
  - apply rpartition_None in Er. subst pa. rewrite contains_cons in Er. done.
Qed.

(** The parameter split finds again the path and the parameters that
    [hier_tail] has joined. *)
Lemma split_params_hier_tail s pa pr :
  s = "http" \/ s = "https" -> rooted pa ->
  contains ";" pa = false -> contains "/" pr = false ->
  split_params s (hier_tail pa pr)
  = (if String.eqb pr "" then pa else if String.eqb pa "" then "/" else pa, pr).
Proof.
  intros Hs Hr Hsemi Hpr. unfold split_params, hier_tail.
  destruct (String.eqb pr "") eqn:Epr.
  - apply String.eqb_eq in Epr as ->. by rewrite Hsemi, andb_false_r.
  - assert (mem s uses_params = true) as -> by (destruct Hs as [-> | ->]; done).
    set (pa1 := if String.eqb pa "" then "/" else pa).
    assert (H1 : exists t, pa1 = String "/" t).
    { unfold pa1. destruct (rooted_inv _ Hr) as [-> | [t ->]]; eauto. }
    assert (H2 : contains ";" pa1 = false).
    { unfold pa1. by destruct (String.eqb pa ""). }
    rewrite contains_app, contains_app, contains_cons, Ascii.eqb_refl, orb_true_r.
    cbn [andb]. by apply splitparams_hit.
Qed.

Lemma hier_tail_rooted pa pr : rooted pa -> rooted (hier_tail pa pr).
Proof.
  intros H. unfold hier_tail. destruct (String.eqb pr ""); [done |].
  by destruct (rooted_inv _ H) as [-> | [t ->]].
Qed.

Lemma hier_tail_stripped pa pr :
  hier_tail
    (stripped (if String.eqb pr "" then stripped pa
               else if String.eqb (stripped pa) "" then "/" else stripped pa)) pr
  = hier_tail (stripped pa) pr.
Proof.
  destruct (String.eqb pr "") eqn:Epr; [by rewrite stripped_idem |].
  destruct (String.eqb (stripped pa) "") eqn:E.
  - apply String.eqb_eq in E. rewrite E. unfold hier_tail. by rewrite Epr.
  - by rewrite stripped_idem.
Qed.

Lemma lower_stripped pa : lower pa = pa -> lower (stripped pa) = stripped pa.
Proof.
  intros H. unfold stripped. destruct (negb (String.eqb pa "/")); [| done].
  unfold lower. rewrite <- (rstrip_map _ _ _ lower_eqb_slash). fold (lower pa).
  by rewrite H.
Qed.

Lemma lower_hier_tail pa pr :
  lower pa = pa -> lower pr = pr -> lower (hier_tail pa pr) = hier_tail pa pr.
Proof.
  intros Hpa Hpr. unfold hier_tail. destruct (String.eqb pr ""); [done |].
  rewrite !lower_app, Hpr. by destruct (String.eqb pa ""); [| rewrite Hpa].
Qed.

Lemma lower_query_suffix q : lower q = q -> lower (query_suffix q) = query_suffix q.
Proof.
  intros H. unfold query_suffix. destruct (String.eqb q ""); [done |].
  by rewrite lower_app, H.
Qed.

Lemma accepted_parse_intro url p :
  validate_url_format url = Ok () -> urlparse (lower url) = Ok p -> accepted_parse p.
Proof.
  intros Hv Hp.
  destruct (accepted_lower _ _ Hv Hp) as [Hs Hn].
  destruct (urlparse_authority _ _ Hp Hn) as (? & ? & ?).
  destruct (urlparse_safe _ _ Hp) as (? & ? & ? & ?).
  destruct (urlparse_no_question _ _ Hp) as (_ & _ & ? & ?).
  destruct (urlparse_no_hash _ _ Hp) as (_ & _ & ? & ? & ?).
  destruct (urlparse_lower_fixed _ _ Hp) as (? & ? & ? & ?).
  pose proof (urlparse_params_no_slash _ _ Hp).
  by split.
Qed.

Lemma normalize_url_fingerprint url p :
  urlparse (lower url) = Ok p -> accepted_parse p ->
  normalize_url url = Ok (fingerprint p).
Proof.
  intros Hp [Hs Hn _ _ Hr _ _ _ _ _ _ _ _ _ _ _ _ _ _].
  rewrite (normalize_url_Ok _ _ Hp). f_equal.
  apply (urlunparse_accepted _ _ (stripped (path p))); try done.
  by apply stripped_rooted.
Qed.

(** [urlunparse] of a parse with an authority, a rooted path and no
    fragment, spelled out. *)
Lemma urlunparse_netloc s n pa pr q :
  n <> "" -> rooted pa ->
  urlunparse (mkParseResult s n pa pr q "")
  = (if String.eqb s "" then "" else s +:+ ":")
    +:+ "//" +:+ n +:+ hier_tail pa pr +:+ query_suffix q.
Proof.
  intros Hn Hpa. unfold urlunparse, urlunsplit, unsplit_hier, hier_tail, query_suffix.
  cbn [scheme netloc path params query fragment].
  apply String.eqb_neq in Hn. rewrite Hn. cbn [negb orb].
  change (String.eqb "" "") with true. cbn iota.
  assert (Hu : (let u := if String.eqb pr "" then pa else pa +:+ ";" +:+ pr in
                if negb (String.eqb u "") && negb (startswith "/" u) then "/" +:+ u else u)
               = hier_tail pa pr).
  { unfold hier_tail.
    destruct (rooted_inv _ Hpa) as [-> | [t ->]]; by destruct (String.eqb pr ""). }
  cbn zeta in Hu. rewrite Hu. fold (hier_tail pa pr).
  destruct (String.eqb s ""); destruct (String.eqb q "");
    rewrite ?app_nil_r, ?app_assoc; done.
Qed.

(** C7, amended. [normalize_url] strips every trailing ["/"] of the
    path, not one. With the path of the lower-cased URL written as
    [stem + "/" * k], where [stem] does not end in ["/"], the path given
    to [urlunparse] is [stem], or ["/"] when the path is exactly ["/"].
    When the netloc is not empty the fingerprint is spelled out: after
    the netloc comes ["/"] when the path is exactly ["/"], ["/"] too
    when [stem] is empty and there are parameters ([urlunparse] puts a
    slash before [";params"]), and [stem] otherwise; then the parameters
    and the query. *)
Theorem normalize_url_strips_all_trailing_slashes url p :
  urlparse (lower url) = Ok p ->
  exists stem k,
    path p = stem +:+ repeat "/" k
    /\ endswith_char "/" stem = false
    /\ normalize_url url
       = Ok (urlunparse
               (mkParseResult (scheme p) (netloc p)
                  (if String.eqb (path p) "/" then "/" else stem)
                  (params p) (query p) ""))
    /\ (netloc p <> "" ->
        normalize_url url
        = Ok ((if String.eqb (scheme p) "" then "" else scheme p +:+ ":")
              +:+ "//" +:+ netloc p
              +:+ (if String.eqb (path p) "/" then "/"
                   else if String.eqb stem "" && negb (String.eqb (params p) "")
                        then "/" else stem)
              +:+ (if String.eqb (params p) "" then "" else ";" +:+ params p)
              +:+ (if String.eqb (query p) "" then "" else "?" +:+ query p))).
Proof.
  intros H.
  destruct (rstrip_app (Ascii.eqb "/") (path p)) as (t & Hp & Ht).
  exists (rstrip (Ascii.eqb "/") (path p)), (String.length t).
  assert (Hn : normalize_url url
               = Ok (urlunparse
                       (mkParseResult (scheme p) (netloc p)
                          (if String.eqb (path p) "/" then "/"
                           else rstrip (Ascii.eqb "/") (path p))
                          (params p) (query p) ""))).
  { rewrite (normalize_url_Ok _ _ H). by destruct (String.eqb (path p) "/"). }
  split; [by rewrite <- (forallb_eqb_repeat _ _ Ht) |].
  split; [apply rstrip_no_last |]. split; [exact Hn |].
  intros Hne. rewrite Hn. f_equal.
  destruct (urlparse_authority _ _ H Hne) as (_ & _ & Hr).
  assert (Hs : (if String.eqb (path p) "/" then "/" else rstrip (Ascii.eqb "/") (path p))
               = stripped (path p)).
  { unfold stripped. by destruct (String.eqb (path p) "/"). }
  rewrite Hs, urlunparse_netloc by (done || by apply stripped_rooted).
  assert (Hh : hier_tail (stripped (path p)) (params p)
               = (if String.eqb (path p) "/" then "/"
                  else if String.eqb (rstrip (Ascii.eqb "/") (path p)) ""
                          && negb (String.eqb (params p) "")
                       then "/" else rstrip (Ascii.eqb "/") (path p))
                 +:+ (if String.eqb (params p) "" then "" else ";" +:+ params p)).
  { unfold hier_tail, stripped.
    destruct (String.eqb (path p) "/"); cbn [negb];
      destruct (String.eqb (params p) ""); cbn [negb andb];
      rewrite ?andb_false_r, ?andb_true_r, ?app_nil_r; done. }
  rewrite Hh, app_assoc. done.
Qed.

Lemma normalize_url_strips_all_trailing_slashes_witness :
  normalize_url "http://example.com//;p" = Ok "http://example.com/;p"
  /\ exists stem k,
       "//" = stem +:+ repeat "/" k
       /\ endswith_char "/" stem = false
       /\ normalize_url "http://example.com//;p"
          = Ok ("http:" +:+ "//" +:+ "example.com"
                +:+ (if String.eqb stem "" then "/" else stem) +:+ ";p").
Proof.
  split; [reflexivity |].
  destruct (normalize_url_strips_all_trailing_slashes "http://example.com//;p"
              (mkParseResult "http" "example.com" "//" "p" "" "") eq_refl)
    as (stem & k & Hp & He & _ & Ht).
  exists stem, k. split; [exact Hp |]. split; [exact He |].
  rewrite (Ht ltac:(discriminate)). f_equal. f_equal.
  by destruct (String.eqb stem "").
Defined.

(** The fingerprint of an accepted URL parses into its own components,
    as long as the path has no [";"]. *)
Lemma urlparse_fingerprint p :
  accepted_parse p -> contains ";" (path p) = false ->
  urlparse (fingerprint p)
  = Ok (mkParseResult (scheme p) (netloc p)
          (if String.eqb (params p) "" then stripped (path p)
           else if String.eqb (stripped (path p)) "" then "/" else stripped (path p))
          (params p) (query p) "").
Proof.
  intros A Hsemi. destruct A. unfold fingerprint.
  assert (Hsemi' : contains ";" (stripped (path p)) = false)
    by by apply stripped_without.
  pose proof (stripped_rooted _ acc_rooted0) as Hr.
  rewrite urlparse_assembled; try done.
  - by rewrite split_params_hier_tail.
  - unfold hier_tail. destruct (String.eqb (params p) ""); [by apply stripped_safe |].
    rewrite !forallb_app, acc_safe_params0.
    destruct (String.eqb (stripped (path p)) ""); [done |].
    by rewrite stripped_safe.
  - by apply hier_tail_rooted.
  - unfold hier_tail. destruct (String.eqb (params p) ""); [by apply stripped_without |].
    rewrite !contains_app, acc_question_params0.
    destruct (String.eqb (stripped (path p)) ""); [done |].
    by rewrite stripped_without.
  - unfold hier_tail. destruct (String.eqb (params p) ""); [by apply stripped_without |].
    rewrite !contains_app, acc_hash_params0.
    destruct (String.eqb (stripped (path p)) ""); [done |].
    by rewrite stripped_without.
Qed.

Lemma lower_fingerprint p : accepted_parse p -> lower (fingerprint p) = fingerprint p.
Proof.
  intros A. destruct A. unfold fingerprint.
  rewrite !lower_app, acc_lower_netloc0, lower_hier_tail, lower_query_suffix; try done.
  - by destruct acc_scheme0 as [-> | ->].
  - by apply lower_stripped.
Qed.

Lemma normalize_url_idempotent url p o :
  validate_url_format url = Ok () -> urlparse (lower url) = Ok p ->
  contains ";" (path p) = false ->
  normalize_url url = Ok o -> normalize_url o = Ok o.
Proof.
  intros Hv Hp Hsemi Ho. pose proof (accepted_parse_intro _ _ Hv Hp) as A.
  rewrite (normalize_url_fingerprint _ _ Hp A) in Ho. injection Ho as <-.
  unfold normalize_url. rewrite (lower_fingerprint _ A), (urlparse_fingerprint _ A Hsemi).
  cbn [mbind result_bind scheme netloc path params query fragment]. f_equal.
  fold (stripped (if String.eqb (params p) "" then stripped (path p)
                  else if String.eqb (stripped (path p)) "" then "/"
                       else stripped (path p))).
  destruct A. rewrite urlunparse_accepted; try done.
  - unfold fingerprint. by rewrite hier_tail_stripped.
  - apply stripped_rooted. pose proof (stripped_rooted _ acc_rooted0).
    destruct (String.eqb (params p) ""); [done |].
    by destruct (String.eqb (stripped (path p)) "").
Qed.

End Accepted.

Section Laws.
Import Str StrFacts Urllib UrlFacts.

Lemma lower_eqb_hash' : respects lower_char (fun a => Ascii.eqb a "#").
Proof. by_cases_on_char. Qed.
Lemma lower_eqb_question' : respects lower_char (fun a => Ascii.eqb a "?").
Proof. by_cases_on_char. Qed.

(** The stages of the parse of an accepted URL. *)
Lemma accepted_stages url p :
  validate_url_format url = Ok () -> urlparse (lower url) = Ok p ->
  exists pre r2 r3 r4,
    strip_unsafe (lower url) = pre +:+ String ":" ("//" +:+ netloc p +:+ r2)
    /\ split_scheme (strip_unsafe (lower url)) = (scheme p, "//" +:+ netloc p +:+ r2)
    /\ starts_in netloc_delim r2
    /\ split_fragment r2 = (r3, fragment p)
    /\ split_query r3 = (r4, query p)
    /\ split_params (scheme p) r4 = (path p, params p).
Proof.
  intros Hv Hp. destruct (accepted_lower _ _ Hv Hp) as [Hs Hn].
  apply urlparse_Ok in Hp as (r1 & r2 & r3 & r4 & E1 & E2 & E3 & E4 & E5).
  pose proof E1 as E1'.
  apply split_scheme_inv in E1' as [[Hs' _] | (pre & _ & Hu & _)];
    [destruct Hs as [Hs | Hs]; rewrite Hs in Hs'; done |].
  apply split_authority_inv in E2 as [[? _] | (Hr1 & _ & Hr2 & _)]; [done |].
  subst r1. by exists pre, r2, r3, r4.
Qed.

Lemma strip_unsafe_app url a t :
  c0_control_or_space a = false -> unsafe_url_byte a = false ->
  strip_unsafe (url +:+ String a t)
  = strip_unsafe url +:+ String a (remove unsafe_url_byte t).
Proof.
  intros H1 H2. unfold strip_unsafe.
  rewrite (lstrip_app_stop _ _ _ _ H1), remove_app. cbn [remove]. by rewrite H2.
Qed.

Lemma starts_in_app_r P r a t : P a = true -> starts_in P r -> starts_in P (r +:+ String a t).
Proof. by destruct r. Qed.

(** A fragment appended to an accepted URL changes the fragment of the
    parse and nothing else. *)
Lemma urlparse_with_fragment url p f :
  validate_url_format url = Ok () -> urlparse (lower url) = Ok p ->
  contains "#" url = false ->
  exists f',
    urlparse (lower (url +:+ "#" +:+ f))
    = Ok (mkParseResult (scheme p) (netloc p) (path p) (params p) (query p) f').
Proof.
  intros Hv Hp Hh.
  destruct (accepted_lower _ _ Hv Hp) as [Hs Hn].
  destruct (accepted_parse_intro _ _ Hv Hp) as [_ _ Hnd Hk _ _ _ _ _ _ _ _ _ _ _ _ _ _ _].
  destruct (accepted_stages _ _ Hv Hp) as (pre & r2 & r3 & r4 & Hu & E1 & Hr2 & E3 & E4 & E5).
  assert (Hh2 : contains "#" r2 = false).
  { assert (Hc : contains "#" (strip_unsafe (lower url)) = false).
    { apply contains_strip_unsafe. unfold lower.
      by rewrite (contains_map _ _ _ lower_eqb_hash'). }
    rewrite Hu in Hc. rewrite contains_app, contains_cons in Hc.
    apply orb_false_iff in Hc as [_ [_ Hc]%orb_false_iff].
    change ("//" +:+ ?x) with (String "/" (String "/" x)) in Hc.
    rewrite !contains_cons, contains_app in Hc.
    by apply orb_false_iff in Hc as [_ [_ [_ ?]%orb_false_iff]%orb_false_iff]. }
  assert (r3 = r2 /\ fragment p = "") as [-> Hf].
  { apply split_fragment_inv in E3 as [Hc [[-> ->] | ->]]; [done |].
    rewrite contains_app, contains_cons, Ascii.eqb_refl, orb_true_r in Hh2. done. }
  exists (remove unsafe_url_byte (lower f)).
  apply urlparse_Ok. cbn [scheme netloc path params query fragment].
  set (x := String "#" (remove unsafe_url_byte (lower f))).
  exists ("//" +:+ netloc p +:+ r2 +:+ x), (r2 +:+ x), r2, r4.
  repeat split; try done.
  - rewrite lower_app. change (lower ("#" +:+ f)) with (String "#" (lower f)).
    rewrite strip_unsafe_app by done. fold x.
    rewrite (split_scheme_app_hit _ _ _ x E1); [by rewrite !app_assoc |].
    by destruct Hs as [-> | ->].
  - apply split_authority_app; try done. by apply starts_in_app_r.
  - unfold split_fragment, x. by rewrite (partition_hit _ _ _ Hh2).
Qed.

(** A slash appended to an accepted URL without query, fragment and
    parameters is appended to its path. *)
Lemma urlparse_with_slash url p :
  validate_url_format url = Ok () -> urlparse (lower url) = Ok p ->
  contains "?" url = false -> contains "#" url = false -> contains ";" url = false ->
  params p = "" /\ query p = ""
  /\ urlparse (lower (url +:+ "/"))
     = Ok (mkParseResult (scheme p) (netloc p) (path p +:+ "/") "" "" "").
Proof.
  intros Hv Hp Hq Hh Hsemi.
  destruct (accepted_lower _ _ Hv Hp) as [Hs Hn].
  destruct (accepted_parse_intro _ _ Hv Hp) as [_ _ Hnd Hk _ _ _ _ _ _ _ _ _ _ _ _ _ _ _].
  destruct (accepted_stages _ _ Hv Hp) as (pre & r2 & r3 & r4 & Hu & E1 & Hr2 & E3 & E4 & E5).
  assert (Hno : forall c, contains c url = false ->
                  respects lower_char (fun a => Ascii.eqb a c) ->
                  Ascii.eqb "/" c = false -> contains c r2 = false).
  { intros c Hc Hresp Hsl.
    assert (Hc' : contains c (strip_unsafe (lower url)) = false).
    { apply contains_strip_unsafe. unfold lower. by rewrite (contains_map _ _ _ Hresp). }
    rewrite Hu in Hc'. rewrite contains_app, contains_cons in Hc'.
    apply orb_false_iff in Hc' as [_ [_ Hc']%orb_false_iff].
    change ("//" +:+ ?x) with (String "/" (String "/" x)) in Hc'.
    rewrite !contains_cons, contains_app in Hc'.
    by apply orb_false_iff in Hc' as [_ [_ [_ ?]%orb_false_iff]%orb_false_iff]. }
  pose proof (Hno "#"%char Hh lower_eqb_hash' eq_refl) as Hh2.
  pose proof (Hno "?"%char Hq lower_eqb_question' eq_refl) as Hq2.
  pose proof (Hno ";"%char Hsemi lower_eqb_semicolon' eq_refl) as Hs2.
  assert (r3 = r2 /\ fragment p = "") as [-> Hf].
  { apply split_fragment_inv in E3 as [Hc [[-> ->] | ->]]; [done |].
    rewrite contains_app, contains_cons, Ascii.eqb_refl, orb_true_r in Hh2. done. }
  assert (r4 = r2 /\ query p = "") as [-> Hqq].
  { apply split_query_inv in E4 as [Hc [[-> ->] | ->]]; [done |].
    rewrite contains_app, contains_cons, Ascii.eqb_refl, orb_true_r in Hq2. done. }
  assert (path p = r2 /\ params p = "") as [Hpa Hpr].
  { unfold split_params in E5. rewrite Hs2, andb_false_r in E5. by injection E5 as <- <-. }
  split; [done |]. split; [done |].
  apply urlparse_Ok. cbn [scheme netloc path params query fragment].
  exists ("//" +:+ netloc p +:+ r2 +:+ "/"), (r2 +:+ "/"), (r2 +:+ "/"), (r2 +:+ "/").
  repeat split.
  - rewrite lower_app. change (lower "/") with (String "/" "").
    rewrite strip_unsafe_app by done. cbn [remove].
    rewrite (split_scheme_app_hit _ _ _ "/" E1); [by rewrite !app_assoc |].
    by destruct Hs as [-> | ->].
  - apply split_authority_app; try done. by apply starts_in_app_r.
  - unfold split_fragment. rewrite partition_none; [done |].
    by rewrite contains_app, Hh2.
  - unfold split_query. rewrite partition_none; [done |].
    by rewrite contains_app, Hq2.
  - unfold split_params. rewrite contains_app, Hs2. cbn [contains Ascii.eqb orb].
    change (Ascii.eqb "/" ";") with false. cbn [orb]. rewrite andb_false_r.
    by rewrite Hpa.
Qed.

Lemma stripped_snoc pa : pa <> "" -> pa <> "/" -> stripped (pa +:+ "/") = stripped pa.
Proof.
  intros H1 H2. unfold stripped.
  apply String.eqb_neq in H2. rewrite H2.
  assert (String.eqb (pa +:+ "/") "/" = false) as ->.
  { apply String.eqb_neq. destruct pa as [| a [| b t]]; done. }
  cbn [negb]. apply (rstrip_snoc "/").
Qed.

(** C9, as stated, fails. The accepted URL ["http://example.com/p;/"]
    has the fingerprint ["http://example.com/p;"], whose own fingerprint
    is ["http://example.com/p"]: [normalize_url] is not idempotent. And
    ["http://example.com"] and ["http://example.com/"], which differ
    only in a trailing slash, have different fingerprints. *)
Lemma normalize_url_not_idempotent :
  validate_url_format "http://example.com/p;/" = Ok ()
  /\ normalize_url "http://example.com/p;/" = Ok "http://example.com/p;"
  /\ normalize_url "http://example.com/p;" = Ok "http://example.com/p"
  /\ (normalize_url "http://example.com/p;/" ≫= normalize_url)
     <> normalize_url "http://example.com/p;/"
  /\ validate_url_format "http://example.com" = Ok ()
  /\ normalize_url "http://example.com" <> normalize_url ("http://example.com" +:+ "/").
Proof.
  repeat split; try reflexivity; intros H; vm_compute in H; discriminate H.
Qed.

(** C9, amended. For every URL that the format validator accepts (and
    that parses in lower case): [normalize_url] is idempotent on it when
    its path has no [";"]; a URL that differs only in letter case has
    the same fingerprint; so has the URL with a fragment appended, when
    it has none; and so has the URL with a slash appended, when it has
    no query, fragment or [";"] and its path is neither empty nor
    ["/"]. *)
Theorem normalize_url_laws url p :
  validate_url_format url = Ok () -> urlparse (lower url) = Ok p ->
  (contains ";" (path p) = false ->
     normalize_url url ≫= normalize_url = normalize_url url)
  /\ (forall url', lower url' = lower url -> normalize_url url' = normalize_url url)
  /\ (contains "#" url = false ->
        forall f, normalize_url (url +:+ "#" +:+ f) = normalize_url url)
  /\ (contains "?" url = false -> contains "#" url = false -> contains ";" url = false ->
        path p <> "" -> path p <> "/" ->
        normalize_url (url +:+ "/") = normalize_url url).
Proof.
  intros Hv Hp. split; [| split; [| split]].
  - intros Hsemi. pose proof (normalize_url_Ok _ _ Hp) as Ho. rewrite Ho.
    cbn [mbind result_bind]. eapply normalize_url_idempotent; eauto.
  - intros url' H. unfold normalize_url. by rewrite H.
  - intros Hh f. destruct (urlparse_with_fragment _ _ f Hv Hp Hh) as [f' Hf].
    by rewrite (normalize_url_Ok _ _ Hf), (normalize_url_Ok _ _ Hp).
  - intros Hq Hh Hsemi H1 H2.
    destruct (urlparse_with_slash _ _ Hv Hp Hq Hh Hsemi) as (Hpr & Hqq & Hs).
    rewrite (normalize_url_Ok _ _ Hs), (normalize_url_Ok _ _ Hp).
    cbn [scheme netloc path params query fragment]. rewrite Hpr, Hqq.
    fold (stripped (path p +:+ "/")). fold (stripped (path p)).
    by rewrite stripped_snoc.
Qed.

Lemma normalize_url_laws_witness :
  normalize_url "https://example.com/docs" = Ok "https://example.com/docs"
  /\ normalize_url "HTTPS://Example.com/Docs" = Ok "https://example.com/docs"
  /\ normalize_url ("HTTPS://Example.com/Docs" +:+ "#" +:+ "Top")
     = normalize_url "HTTPS://Example.com/Docs"
  /\ normalize_url ("HTTPS://Example.com/Docs" +:+ "/")
     = normalize_url "HTTPS://Example.com/Docs".
Proof.
  pose proof (normalize_url_laws "HTTPS://Example.com/Docs"
                (mkParseResult "https" "example.com" "/docs" "" "" "")
                eq_refl eq_refl) as (H1 & _ & H3 & H4).
  split; [exact (H1 eq_refl) |]. split; [reflexivity |].
  split; [exact (H3 eq_refl "Top") |].
  apply H4; try reflexivity; intros H; discriminate H.
Defined.

End Laws.

(** * The queue *)


(** ** The tables *)

Section Tables.

Implicit Types (db : Database) (j r : Job) (id : string).

Lemma get_job_Some db id j : get_job db id = Some j -> In j (jobs db) /\ job_id j = id.
Proof.
  unfold get_job. intros H. apply find_some in H as [Hin Heq].
  split; [done | by apply String.eqb_eq].
Qed.

Lemma get_job_None db id r : get_job db id = None -> In r (jobs db) -> job_id r <> id.
Proof.
  unfold get_job. intros H Hin Heq.
  eapply find_none in H; [| exact Hin]. simpl in H.
  apply String.eqb_neq in H. contradiction.
Qed.

Lemma update_job_ids j db :
  List.map job_id (jobs (update_job j db)) = List.map job_id (jobs db).
Proof.
  unfold update_job. simpl. induction (jobs db) as [| r rs IH]; [done |].
  simpl. rewrite IH. f_equal.
  destruct (String.eqb (job_id r) (job_id j)) eqn:E; [| done].
  apply String.eqb_eq in E. done.
Qed.

Lemma update_job_locks j db : domain_locks (update_job j db) = domain_locks db.
Proof. done. Qed.

Lemma In_update_job j db x :
  In x (jobs (update_job j db)) <->
  (x = j /\ exists r, In r (jobs db) /\ job_id r = job_id j)
  \/ (In x (jobs db) /\ job_id x <> job_id j).
Proof.
  unfold update_job. simpl. rewrite in_map_iff. split.
  - intros (r & Hx & Hin).
    destruct (String.eqb (job_id r) (job_id j)) eqn:E.
    + apply String.eqb_eq in E. left. split; [done | eauto].
    + apply String.eqb_neq in E. right. subst x. done.
  - intros [[-> (r & Hin & Heq)] | [Hin Hne]].
    + exists r. split; [| done]. apply String.eqb_eq in Heq. by rewrite Heq.
    + exists x. split; [| done]. apply String.eqb_neq in Hne. by rewrite Hne.
Qed.

Lemma get_job_update_same db id j r :
  get_job db id = Some r -> job_id j = id -> get_job (update_job j db) id = Some j.
Proof.
  unfold get_job, update_job. simpl. intros H Hj. subst id.
  induction (jobs db) as [| x xs IH]; [done |].
  simpl in *. destruct (String.eqb (job_id x) (job_id j)) eqn:E.
  - by rewrite String.eqb_refl.
  - rewrite E. auto.
Qed.

Lemma get_job_update_other db id j :
  job_id j <> id -> get_job (update_job j db) id = get_job db id.
Proof.
  unfold get_job, update_job. simpl. intros Hne.
  induction (jobs db) as [| x xs IH]; [done |].
  simpl. destruct (String.eqb (job_id x) (job_id j)) eqn:E.
  - apply String.eqb_eq in E. apply String.eqb_neq in Hne.
    rewrite Hne, E, Hne. exact IH.
  - destruct (String.eqb (job_id x) id); [done | exact IH].
Qed.

Lemma NoDup_job_id_inj (l : list Job) a b :
  NoDup (List.map job_id l) -> In a l -> In b l -> job_id a = job_id b -> a = b.
Proof.
  induction l as [| x xs IH]; [done |].
  simpl. intros Hnd Ha Hb Heq. apply NoDup_cons in Hnd as [Hx Hnd].
  rewrite list_elem_of_In in Hx.
  destruct Ha as [-> | Ha], Hb as [-> | Hb]; auto.
  - exfalso. apply Hx. rewrite Heq. by apply in_map.
  - exfalso. apply Hx. rewrite <- Heq. by apply in_map.
Qed.

Lemma get_job_In_NoDup db j :
  NoDup (List.map job_id (jobs db)) -> In j (jobs db) -> get_job db (job_id j) = Some j.
Proof.
  intros Hnd Hin. destruct (get_job db (job_id j)) as [r |] eqn:E.
  - apply get_job_Some in E as [Hr Heq]. f_equal. eapply NoDup_job_id_inj; eauto.
  - exfalso. eapply get_job_None; eauto.
Qed.

Lemma oldest_In (l : list Job) j : oldest l = Some j -> In j l.
Proof.
  revert j. induction l as [| r rs IH]; [done |].
  simpl. intros j. destruct (oldest rs) as [b |].
  - destruct (created_at b <? created_at r); intros [= <-]; auto.
  - intros [= <-]. auto.
Qed.

Lemma select_oldest_Some st db j :
  select_oldest st db = Some j -> In j (jobs db) /\ status j = st.
Proof.
  unfold select_oldest. intros H. apply oldest_In in H.
  apply filter_In in H as [Hin Hst]. split; [done |].
  by apply bool_decide_eq_true in Hst.
Qed.

Lemma next_candidate_Some db j :
  next_candidate db = Some j ->
  In j (jobs db) /\ (status j = QUEUED \/ status j = WAITING_DOMAIN_LOCK).
Proof.
  unfold next_candidate. destruct (select_oldest QUEUED db) as [q |] eqn:E.
  - intros [= <-]. apply select_oldest_Some in E as [? ?]. auto.
  - intros H. apply select_oldest_Some in H as [? ?]. auto.
Qed.

End Tables.

(** ** The worker's retry decision (C1) *)

Lemma should_retry_true_iff job code :
  should_retry job code = true <->
  (forall c, code = Some c -> ~ In c non_retryable) /\ attempts job < max_retries job.
Proof.
  unfold should_retry. destruct code as [c |].
  - destruct (Urllib.mem c non_retryable) eqn:E.
    + split; [done |]. intros [H _]. exfalso. apply (H c eq_refl).
      unfold Urllib.mem in E. apply existsb_exists in E as (x & Hin & Heq).
      apply String.eqb_eq in Heq. by subst.
    + rewrite Z.ltb_lt. split; [| tauto]. intros H. split; [| done].
      intros c' [= <-] Hin. unfold Urllib.mem in E.
      assert (existsb (String.eqb c) non_retryable = true); [| congruence].
      apply existsb_exists. exists c. split; [done | apply String.eqb_refl].
  - rewrite Z.ltb_lt. split; [| tauto]. intros H. split; [done | done].
Qed.

(** C1. On a retryable error the worker requeues if and only if
    [attempts < max_retries], one run short of the specification's
    [attempts < max_retries + 1]: a job with [max_retries = 2] that has
    failed its second run with [RENDER_FAILED] satisfies
    [attempts < max_retries + 1], and yet [should_retry] is false and the
    worker completes it as failed, so that it gets two runs, not three. *)
Theorem should_retry_refuses_third_run :
  let job := example_job RUNNING 2 2 in
  ~ In "RENDER_FAILED" non_retryable
  /\ attempts job < max_retries job + 1
  /\ should_retry job (Some "RENDER_FAILED") = false
  /\ decide_outcome job false (Some "RENDER_FAILED") (Some "timeout")
     = CompleteFailed "RENDER_FAILED" "timeout"
  /\ (status <$> get_job (update_job_status (t0 + 5) (mkDatabase [job] ∅) job false
                            (Some "RENDER_FAILED") (Some "timeout")) "job-1")
     = Some FAILED.
Proof.
  repeat split; try reflexivity.
  intros H. simpl in H. intuition discriminate.
Qed.

(** ** [complete_job] and [requeue_job] outside [RUNNING] (C2) *)

(** C2, as stated, fails: [requeue_job] puts a [SUCCEEDED] job back to
    [QUEUED] and [complete_job] turns it into [FAILED]. *)
Lemma complete_requeue_mutate_terminal_job :
  (status <$> get_job db_succeeded "job-1") = Some SUCCEEDED
  /\ (status <$> get_job (requeue_job db_succeeded "job-1") "job-1") = Some QUEUED
  /\ (status <$> get_job (complete_job (t0 + 9) db_succeeded "job-1" false
                            (Some "RENDER_FAILED") None) "job-1") = Some FAILED
  /\ requeue_job db_succeeded "job-1" <> db_succeeded
  /\ complete_job (t0 + 9) db_succeeded "job-1" false (Some "RENDER_FAILED") None
     <> db_succeeded.
Proof.
  repeat split; try reflexivity; intros H; discriminate H.
Qed.

(** C2, amended. [complete_job] and [requeue_job] leave the jobs and the
    locks as they are when no row has the [job_id]; on a row that exists
    they act whatever its status: the row becomes [SUCCEEDED] or
    [FAILED] with [finished_at = now], or [QUEUED] with no
    [started_at], and the lock of its [main_domain] is deleted. *)
Theorem complete_requeue_guard_is_existence now db id success code message :
  (get_job db id = None ->
     complete_job now db id success code message = db /\ requeue_job db id = db)
  /\ (forall job, get_job db id = Some job ->
        (exists c,
           get_job (complete_job now db id success code message) id = Some c
           /\ status c = (if success then SUCCEEDED else FAILED)
           /\ finished_at c = Some now
           /\ error_code c = (if success then None else code)
           /\ error_message c = (if success then None else message))
        /\ domain_locks (complete_job now db id success code message)
           = delete (main_domain job) (domain_locks db)
        /\ (exists q,
              get_job (requeue_job db id) id = Some q
              /\ status q = QUEUED /\ started_at q = None
              /\ attempts q = attempts job)
        /\ domain_locks (requeue_job db id) = delete (main_domain job) (domain_locks db)).
Proof.
  split.
  - intros H. unfold complete_job, requeue_job. rewrite H. done.
  - intros job H. unfold complete_job, requeue_job. rewrite H.
    destruct (get_job_Some _ _ _ H) as [_ Hid].
    repeat split.
    + eexists. split.
      * match goal with |- get_job (mkDatabase (jobs (update_job ?j db)) ?l) id = _ =>
          change (get_job (mkDatabase (jobs (update_job j db)) l) id)
            with (get_job (update_job j db) id) end.
        eapply get_job_update_same; [exact H |]. by destruct success.
      * by destruct success.
    + by destruct success.
    + eexists. split.
      * match goal with |- get_job (mkDatabase (jobs (update_job ?j db)) ?l) id = _ =>
          change (get_job (mkDatabase (jobs (update_job j db)) l) id)
            with (get_job (update_job j db) id) end.
        eapply get_job_update_same; [exact H | done].
      * done.
Qed.

Lemma complete_requeue_guard_is_existence_witness :
  get_job db_succeeded "job-9" = None
  /\ complete_job t0 db_succeeded "job-9" true None None = db_succeeded
  /\ requeue_job db_succeeded "job-9" = db_succeeded.
Proof.
  split; [reflexivity |].
  apply (complete_requeue_guard_is_existence t0 db_succeeded "job-9" true None None).
  reflexivity.
Defined.

(** ** [claim_next_job] (C5) *)

Lemma get_job_jobs db db' id : jobs db = jobs db' -> get_job db id = get_job db' id.
Proof. unfold get_job. by intros ->. Qed.

Lemma set_status_same j : set_status (status j) j = j.
Proof. by destruct j. Qed.

(** C5. For the candidate [claim_next_job] selects: when a lock exists
    for its [main_domain] and the wait since [created_at] exceeds
    [max_domain_wait_seconds], the job becomes [FAILED] with
    [DOMAIN_WAIT_TIMEOUT] and [finished_at = now] and nothing is
    returned; when the wait is within the budget the job is (or stays)
    [WAITING_DOMAIN_LOCK] and nothing is returned; when no lock exists a
    lock for the job is inserted, the job becomes [RUNNING] with
    [started_at = now] and one more attempt, and it is returned. *)
Theorem claim_next_job_cases now db job :
  NoDup (List.map job_id (jobs db)) ->
  next_candidate db = Some job ->
  (forall lock, domain_locks db !! main_domain job = Some lock ->
     fst (claim_next_job now db) = None
     /\ domain_locks (snd (claim_next_job now db)) = domain_locks db
     /\ (max_domain_wait_seconds job * 1000000 < now - created_at job ->
           exists j', get_job (snd (claim_next_job now db)) (job_id job) = Some j'
             /\ status j' = FAILED
             /\ error_code j' = Some "DOMAIN_WAIT_TIMEOUT"
             /\ finished_at j' = Some now)
     /\ (now - created_at job <= max_domain_wait_seconds job * 1000000 ->
           get_job (snd (claim_next_job now db)) (job_id job)
           = Some (set_status WAITING_DOMAIN_LOCK job)))
  /\ (domain_locks db !! main_domain job = None ->
        exists j',
          fst (claim_next_job now db) = Some j'
          /\ get_job (snd (claim_next_job now db)) (job_id job) = Some j'
          /\ status j' = RUNNING
          /\ started_at j' = Some now
          /\ attempts j' = attempts job + 1
          /\ job_id j' = job_id job
          /\ domain_locks (snd (claim_next_job now db))
             = <[main_domain job := mkDomainLock (job_id job) now (max_domain_wait_seconds job)]>
                 (domain_locks db)).
Proof.
  intros Hnd Hc. destruct (next_candidate_Some _ _ Hc) as [Hin Hst].
  pose proof (get_job_In_NoDup _ _ Hnd Hin) as Hget.
  unfold claim_next_job. rewrite Hc. split.
  - intros lock Hl. rewrite Hl. unfold Datetime.elapsed_exceeds.
    destruct (max_domain_wait_seconds job * 1000000 <? now - created_at job) eqn:E.
    + apply Z.ltb_lt in E. simpl. repeat split; [| lia].
      intros _. eexists. split.
      * eapply get_job_update_same; [exact Hget | done].
      * done.
    + apply Z.ltb_ge in E.
      destruct (bool_decide (status job = WAITING_DOMAIN_LOCK)) eqn:B; simpl.
      * apply bool_decide_eq_true in B. repeat split; [lia |].
        intros _. rewrite <- B, set_status_same. exact Hget.
      * repeat split; [lia |]. intros _.
        eapply get_job_update_same; [exact Hget | done].
  - intros Hl. rewrite Hl. cbn [fst snd]. eexists. split; [reflexivity |].
    split; [| done].
    rewrite (get_job_jobs _ (update_job
      (set_attempts (attempts job + 1) (set_started_at (Some now) (set_status RUNNING job)))
      db)); [| done].
    eapply get_job_update_same; [exact Hget | done].
Qed.

Lemma claim_next_job_cases_witness :
  fst (claim_next_job (t0 + 700000000) db_contended) = None
  /\ (status <$> get_job (snd (claim_next_job (t0 + 700000000) db_contended)) "job-2")
     = Some FAILED
  /\ (status <$> get_job (snd (claim_next_job (t0 + 3) db_contended)) "job-2")
     = Some WAITING_DOMAIN_LOCK.
Proof.
  assert (Hnd : NoDup (List.map job_id (jobs db_contended))).
  { simpl. apply NoDup_cons. split.
    - rewrite list_elem_of_In. simpl. intros [H | []]. discriminate H.
    - apply NoDup_cons. split; [rewrite list_elem_of_In; simpl; tauto | apply NoDup_nil_2]. }
  assert (Hc : next_candidate db_contended
               = Some (mkJob "job-2" "https://example.com/b" "example.com" QUEUED 0 (t0 + 1)
                         None None None None "print_to_pdf" 45 120 600 2 false
                         "2026-11-03" None)) by reflexivity.
  destruct (claim_next_job_cases (t0 + 700000000) _ _ Hnd Hc) as [H1 _].
  destruct (claim_next_job_cases (t0 + 3) _ _ Hnd Hc) as [H2 _].
  specialize (H1 (mkDomainLock "job-1" (t0 + 2) 600) eq_refl).
  specialize (H2 (mkDomainLock "job-1" (t0 + 2) 600) eq_refl).
  destruct H1 as (Hr & _ & Hf & _). destruct H2 as (_ & _ & _ & Hw).
  split; [exact Hr |]. split.
  - destruct Hf as (j' & Hg & Hs & _); [simpl; unfold t0; lia |].
    simpl in Hg. rewrite Hg. simpl. by rewrite Hs.
  - simpl in Hw. rewrite Hw; [reflexivity | unfold t0; lia].
Defined.

(** ** Defaults of a new job (C10) *)

Lemma create_job_new settings env db url ov job db' :
  create_job settings env db url ov = (Ok (job, false), db') ->
  exists normalized_url main_domain,
    validated_submission env url = Ok (normalized_url, main_domain)
    /\ job = new_job settings env ov normalized_url main_domain
               (Datetime.strftime_date (env_now env))
    /\ insert_job job db = Some db'.
Proof.
  unfold create_job. destruct (validated_submission env url) as [[nu md] | e]; [| done].
  destruct (select_dedup db nu _) as [x |] eqn:Es; [done |].
  destruct (insert_job _ db) as [d |] eqn:Ei.
  - intros [= <- <-]. eauto.
  - done.
Qed.

(** C10. In the job [create_job] inserts, an override that is absent or
    falsy ([0] for a number, the empty string for the render mode) is
    replaced by the configured default; so a submission with
    [max_retries = 0] gets the default [max_retries], [2] with the
    settings of [config.py], not [0]. *)
Theorem create_job_falsy_override_gets_default settings env db url ov job db' :
  create_job settings env db url ov = (Ok (job, false), db') ->
  (ov_max_retries ov = Some 0 \/ ov_max_retries ov = None ->
     max_retries job = settings_max_retries settings)
  /\ (ov_navigation_timeout_seconds ov = Some 0 \/ ov_navigation_timeout_seconds ov = None ->
        navigation_timeout_seconds job = settings_navigation_timeout_seconds settings)
  /\ (ov_job_timeout_seconds ov = Some 0 \/ ov_job_timeout_seconds ov = None ->
        job_timeout_seconds job = settings_job_timeout_seconds settings)
  /\ (ov_max_domain_wait_seconds ov = Some 0 \/ ov_max_domain_wait_seconds ov = None ->
        max_domain_wait_seconds job = settings_max_domain_wait_seconds settings)
  /\ (ov_render_mode ov = Some "" \/ ov_render_mode ov = None ->
        render_mode job = default_render_mode settings)
  /\ settings_max_retries default_settings = 2.
Proof.
  intros H. apply create_job_new in H as (nu & md & _ & -> & _).
  simpl. repeat split; intros [-> | ->]; reflexivity.
Qed.

Lemma create_job_falsy_override_gets_default_witness :
  exists job db',
    create_job default_settings (example_env t0 "job-1") empty_db
      "https://example.com/a" (mkOverrides None None None None (Some 0) None)
    = (Ok (job, false), db')
    /\ max_retries job = 2.
Proof.
  eexists _, _. split; [reflexivity |].
  exact (proj1 (create_job_falsy_override_gets_default default_settings
                  (example_env t0 "job-1") empty_db "https://example.com/a"
                  (mkOverrides None None None None (Some 0) None) _ _ eq_refl)
               (or_introl eq_refl)).
Defined.

(** ** Submission: deduplication and the SSRF check (C4, C6) *)

(** The resolver has no say in [validate_ssrf]: whatever the [try]
    raises is caught. *)
Lemma validate_ssrf_ignores_resolver g1 g2 url :
  validate_ssrf g1 url = validate_ssrf g2 url.
Proof.
  unfold validate_ssrf. destruct (Urllib.urlparse url) as [p | e]; [| done].
  cbn [mbind result_bind]. destruct (Urllib.hostname p) as [h |]; [| done].
  repeat case_match; done.
Qed.

Lemma validate_ssrf_Ok g url :
  validate_ssrf g url = Ok () ->
  exists p h, Urllib.urlparse url = Ok p /\ Urllib.hostname p = Some h.
Proof.
  unfold validate_ssrf. destruct (Urllib.urlparse url) as [p | e]; [| done].
  cbn [mbind result_bind]. destruct (Urllib.hostname p) as [h |] eqn:Eh; [| done].
  intros _. by exists p, h.
Qed.

Lemma extract_main_domain_Ok psl url p h :
  Urllib.urlparse url = Ok p -> Urllib.hostname p = Some h ->
  exists d, extract_main_domain psl url = Ok d.
Proof.
  intros Hp Hh. unfold extract_main_domain. rewrite Hp.
  cbn [mbind result_bind]. rewrite Hh. eauto.
Qed.

Lemma validated_submission_deterministic env1 env2 url nu md :
  validated_submission env1 url = Ok (nu, md) ->
  exists md', validated_submission env2 url = Ok (nu, md').
Proof.
  unfold validated_submission. intros H.
  apply bind_Ok in H as ([] & Hf & H). apply bind_Ok in H as ([] & Hs & H).
  apply bind_Ok in H as (n & Hn & H). apply bind_Ok in H as (d & Hd & H).
  injection H as -> ->.
  rewrite Hf. cbn [mbind result_bind].
  rewrite (validate_ssrf_ignores_resolver _ (env_getaddrinfo env1)), Hs.
  cbn [mbind result_bind]. rewrite Hn. cbn [mbind result_bind].
  destruct (validate_ssrf_Ok _ _ Hs) as (p & h & Hp & Hh).
  destruct (extract_main_domain_Ok (env_privatesuffix env2) _ _ _ Hp Hh) as [d' Hd'].
  rewrite Hd'. cbn [mbind result_bind]. eauto.
Qed.

Lemma find_app_last {A : Type} (f : A -> bool) (l : list A) (x : A) :
  List.find f l = None -> f x = true -> List.find f (l ++ [x]) = Some x.
Proof.
  induction l as [| y ys IH]; simpl.
  - by intros _ ->.
  - destruct (f y); [done | auto].
Qed.

Lemma strftime_date_same_day t1 t2 :
  Datetime.toordinal t1 = Datetime.toordinal t2 ->
  Datetime.strftime_date t1 = Datetime.strftime_date t2.
Proof. unfold Datetime.strftime_date. by intros ->. Qed.

(** C4. When [create_job] has returned a job for a URL, a second
    [create_job] of the same URL on the same UTC day returns that same
    job (so the same [job_id]) with the deduplicated flag set, and
    leaves the database, and so the stored row, as it was. *)
Theorem create_job_twice_dedups settings1 settings2 env1 env2 db url ov1 ov2 job flag db1 :
  create_job settings1 env1 db url ov1 = (Ok (job, flag), db1) ->
  Datetime.toordinal (env_now env1) = Datetime.toordinal (env_now env2) ->
  create_job settings2 env2 db1 url ov2 = (Ok (job, true), db1).
Proof.
  intros H Hday. apply strftime_date_same_day in Hday.
  unfold create_job in *.
  destruct (validated_submission env1 url) as [[nu md] | e] eqn:Ev; [| done].
  destruct (validated_submission_deterministic env1 env2 _ _ _ Ev) as [md' ->].
  rewrite <- Hday.
  destruct (select_dedup db nu _) as [x |] eqn:Es.
  - injection H as <- <- <-. by rewrite Es.
  - destruct (insert_job _ db) as [d |] eqn:Ei; [| done].
    injection H as <- <- <-.
    unfold insert_job in Ei. case_match; [done |]. injection Ei as <-.
    unfold select_dedup in *. cbn [jobs].
    rewrite (find_app_last _ _ _ Es); [done |].
    cbn [new_job normalized_url submission_date]. by rewrite !String.eqb_refl.
Qed.

Lemma create_job_twice_dedups_witness :
  exists job db1,
    create_job default_settings (example_env t0 "job-1") empty_db
      "https://example.com/a" no_overrides = (Ok (job, false), db1)
    /\ create_job default_settings (example_env (t0 + 60000000) "job-2") db1
         "https://example.com/a" no_overrides = (Ok (job, true), db1).
Proof.
  eexists _, _. split; [reflexivity |].
  apply (create_job_twice_dedups default_settings default_settings
           (example_env t0 "job-1") (example_env (t0 + 60000000) "job-2") empty_db
           "https://example.com/a" no_overrides no_overrides _ false _);
    reflexivity.
Defined.

(** C6. A host name that resolves to a private address is not rejected:
    the [SSRFError] that [validate_ssrf] raises for the resolved address
    10.0.0.5 is caught by its own [except Exception: pass], the
    validation returns, and [create_job] inserts a [QUEUED] row, where
    the specification has [SSRF_BLOCKED] and no row. *)
Theorem create_job_accepts_host_resolving_to_private_ip :
  is_private_ip "10.0.0.5" = true
  /\ resolve_and_check (env_getaddrinfo env_private "intranet.example.com")
     = Some RaisedSSRFError
  /\ validate_ssrf (env_getaddrinfo env_private) "http://intranet.example.com/" = Ok ()
  /\ exists job,
       create_job default_settings env_private empty_db
         "http://intranet.example.com/" no_overrides
       = (Ok (job, false), mkDatabase [job] ∅)
       /\ status job = QUEUED.
Proof.
  repeat split; try reflexivity. eexists. split; reflexivity.
Qed.

(** The part of C6 that holds: when the SSRF check raises, so does
    [create_job], and the database is as before. *)
Lemma create_job_ssrf_blocked settings env db url ov :
  validate_url_format url = Ok () ->
  validate_ssrf (env_getaddrinfo env) url = Raise SSRFError ->
  create_job settings env db url ov = (Raise SSRFError, db).
Proof.
  intros Hf Hs. unfold create_job, validated_submission.
  rewrite Hf. cbn [mbind result_bind]. rewrite Hs. done.
Qed.

(** The hosts [validate_ssrf] does reject: metadata endpoints, private
    address literals and the two names of the local host. *)
Lemma validate_ssrf_blocks g url p h :
  Urllib.urlparse url = Ok p -> Urllib.hostname p = Some h ->
  is_metadata_endpoint h = true \/ is_private_ip h = true
  \/ In (Str.lower h) ["localhost"; "localhost.localdomain"] ->
  validate_ssrf g url = Raise SSRFError.
Proof.
  intros Hp Hh H. unfold validate_ssrf. rewrite Hp. cbn [mbind result_bind]. rewrite Hh.
  destruct (is_metadata_endpoint h); [done |].
  destruct (is_private_ip h); [done |].
  destruct H as [H | [H | H]]; [done | done |].
  assert (Urllib.mem (Str.lower h) ["localhost"; "localhost.localdomain"] = true) as ->; [| done].
  apply existsb_exists. exists (Str.lower h). split; [done | apply String.eqb_refl].
Qed.

Example metadata_endpoint_blocked :
  create_job default_settings (example_env t0 "job-1") empty_db
    "http://169.254.169.254/latest/meta-data/" no_overrides
  = (Raise SSRFError, empty_db).
Proof. reflexivity. Qed.

(** ** The lock invariant (C3) *)

(** C3, as stated, fails: [complete_job] on a job that is not [RUNNING]
    deletes the lock of its domain, here the lock held by the running
    [job-1], which is left [RUNNING] with no lock row. *)
Lemma running_job_without_lock :
  reachable db_lock_lost
  /\ (status <$> get_job db_lock_lost "job-1") = Some RUNNING
  /\ domain_locks db_lock_lost = ∅
  /\ ~ running_iff_one_lock db_lock_lost.
Proof.
  split; [| split; [| split]].
  - unfold db_lock_lost, db_first_claimed, db_two_jobs.
    eapply reachable_step; [| apply step_complete].
    eapply reachable_step; [| apply step_claim].
    eapply reachable_step; [| apply step_create].
    eapply reachable_step; [| apply step_create].
    apply reachable_empty.
  - reflexivity.
  - by vm_compute.
  - intros H.
    destruct (get_job db_lock_lost "job-1") as [j |] eqn:E;
      [| vm_compute in E; discriminate E].
    pose proof (get_job_Some _ _ _ E) as [Hin Hid].
    assert (Hs : status j = RUNNING) by (vm_compute in E; by injection E as <-).
    apply (H j Hin) in Hs as (d & (l & Hl & _) & _).
    assert (Hlocks : domain_locks db_lock_lost = ∅) by by vm_compute.
    rewrite Hlocks, lookup_empty in Hl. discriminate Hl.
Qed.

Lemma queue_inv_empty : queue_inv empty_db.
Proof.
  split; simpl.
  - apply NoDup_nil_2.
  - intros d l H. by rewrite lookup_empty in H.
  - intros j [].
Qed.

Lemma queue_inv_running_iff db : queue_inv db -> running_iff_one_lock db.
Proof.
  intros [Hids Hlock Hrun] j Hin. split.
  - intros Hs. destruct (Hrun j Hin Hs) as (l & Hl & Hid).
    exists (main_domain j). split; [eauto |].
    intros d' l' Hl' Hid'. destruct (Hlock d' l' Hl') as (j' & Hin' & Hj' & _ & Hd').
    assert (j' = j) as ->; [| done].
    eapply NoDup_job_id_inj; eauto. congruence.
  - intros (d & (l & Hl & Hid) & _).
    destruct (Hlock d l Hl) as (j' & Hin' & Hj' & Hs & _).
    assert (j' = j) as ->; [| done].
    eapply NoDup_job_id_inj; eauto. congruence.
Qed.

(** A row that is not [RUNNING] may change in any way that keeps its key
    and stays out of [RUNNING]. *)
Lemma queue_inv_update_idle db j j' :
  queue_inv db -> In j (jobs db) -> status j <> RUNNING ->
  job_id j' = job_id j -> status j' <> RUNNING ->
  queue_inv (update_job j' db).
Proof.
  intros [Hids Hlock Hrun] Hin Hs Hid Hs'. split.
  - by rewrite update_job_ids.
  - intros d l Hl. rewrite update_job_locks in Hl.
    destruct (Hlock d l Hl) as (r & Hr & Hrid & Hrs & Hrd).
    exists r. repeat split; try done.
    apply In_update_job. right. split; [done |].
    intros Heq. rewrite Hid in Heq.
    assert (r = j) by (eapply NoDup_job_id_inj; eauto). congruence.
  - intros r Hr Hrs. rewrite update_job_locks.
    apply In_update_job in Hr as [[-> _] | [Hr _]]; [done | auto].
Qed.

Lemma queue_inv_create settings env db url ov :
  queue_inv db -> queue_inv (snd (create_job settings env db url ov)).
Proof.
  intros Hinv. unfold create_job.
  destruct (validated_submission env url) as [[nu md] | e]; [| done].
  destruct (select_dedup db nu _) as [x |]; [done |].
  destruct (insert_job _ db) as [d |] eqn:Ei; [| done].
  unfold insert_job in Ei. case_match eqn:Ex; [done |]. injection Ei as <-.
  destruct Hinv as [Hids Hlock Hrun]. split; cbn [snd jobs domain_locks].
  - rewrite map_app. apply NoDup_app. split; [done |]. split.
    + intros id Hid. rewrite list_elem_of_In in Hid.
      apply in_map_iff in Hid as (r & <- & Hr).
      rewrite list_elem_of_In. simpl. intros [Heq | []].
      assert (existsb (fun r0 => String.eqb (job_id r0) (env_uuid4 env)
                || String.eqb (normalized_url r0) nu
                   && String.eqb (submission_date r0)
                        (Datetime.strftime_date (env_now env))) (jobs db) = true);
        [| cbn [new_job job_id normalized_url submission_date] in Ex; congruence].
      apply existsb_exists. exists r. split; [done |].
      rewrite <- Heq. by rewrite String.eqb_refl.
    + apply NoDup_singleton.
  - intros dom l Hl. destruct (Hlock dom l Hl) as (r & Hr & ?).
    exists r. split; [apply in_or_app; by left | done].
  - intros r Hr Hs. apply in_app_or in Hr as [Hr | [<- | []]]; [auto | done].
Qed.

Lemma queue_inv_claim now db : queue_inv db -> queue_inv (snd (claim_next_job now db)).
Proof.
  intros Hinv. unfold claim_next_job.
  destruct (next_candidate db) as [job |] eqn:Ec; [| done].
  destruct (next_candidate_Some _ _ Ec) as [Hin Hst].
  assert (Hidle : status job <> RUNNING) by (destruct Hst as [-> | ->]; done).
  destruct (domain_locks db !! main_domain job) as [lock |] eqn:El.
  - destruct (Datetime.elapsed_exceeds _ _ _); cbn [snd].
    + eapply queue_inv_update_idle; eauto; done.
    + destruct (bool_decide _); cbn [snd negb]; [done |].
      eapply queue_inv_update_idle; eauto; done.
  - cbn [snd]. destruct Hinv as [Hids Hlock Hrun].
    set (job' := set_attempts _ _).
    assert (Hid' : job_id job' = job_id job) by done.
    split; cbn [jobs domain_locks].
    + by rewrite update_job_ids.
    + intros d l Hl. cbn [main_domain job' set_attempts set_started_at set_status] in Hl.
      destruct (decide (main_domain job = d)) as [<- | Hne].
      * rewrite lookup_insert_eq in Hl. injection Hl as <-.
        exists job'. repeat split. apply In_update_job. left. split; [done | eauto].
      * rewrite lookup_insert_ne in Hl by done.
        destruct (Hlock d l Hl) as (r & Hr & Hrid & Hrs & Hrd).
        exists r. repeat split; try done.
        apply In_update_job. right. split; [done |].
        intros Heq. rewrite Hid' in Heq.
        assert (r = job) by (eapply NoDup_job_id_inj; eauto). congruence.
    + intros r Hr Hrs. cbn [main_domain job' set_attempts set_started_at set_status].
      apply In_update_job in Hr as [[-> _] | [Hr Hne]].
      * rewrite lookup_insert_eq. eauto.
      * destruct (Hrun r Hr Hrs) as (l & Hl & Hlid).
        rewrite lookup_insert_ne; [eauto |]. intros Heq. congruence.
Qed.

(** [complete_job] and [requeue_job] on a running job: the row leaves
    [RUNNING] and the lock of its domain, which is its own, goes. *)
Lemma queue_inv_release db job j' :
  queue_inv db -> In job (jobs db) -> status job = RUNNING ->
  job_id j' = job_id job -> main_domain j' = main_domain job -> status j' <> RUNNING ->
  queue_inv (mkDatabase (jobs (update_job j' db))
                        (delete (main_domain j') (domain_locks db))).
Proof.
  intros [Hids Hlock Hrun] Hin Hs Hid Hdom Hs'. split; cbn [jobs domain_locks].
  - by rewrite update_job_ids.
  - intros d l Hl. apply lookup_delete_Some in Hl as [Hne Hl].
    destruct (Hlock d l Hl) as (r & Hr & Hrid & Hrs & Hrd).
    exists r. repeat split; try done.
    apply In_update_job. right. split; [done |].
    intros Heq. rewrite Hid in Heq.
    assert (r = job) by (eapply NoDup_job_id_inj; eauto). congruence.
  - intros r Hr Hrs. apply In_update_job in Hr as [[-> _] | [Hr Hne]]; [done |].
    destruct (Hrun r Hr Hrs) as (l & Hl & Hlid).
    exists l. split; [| done]. rewrite lookup_delete_ne; [done |].
    intros Heq. rewrite Hdom in Heq.
    destruct (Hrun job Hin Hs) as (l' & Hl' & Hlid').
    rewrite Heq in Hl'. congruence.
Qed.

Lemma queue_inv_worker_step db db' : queue_inv db -> worker_step db db' -> queue_inv db'.
Proof.
  intros Hinv Hstep. destruct Hstep as [| | now db id success code message Hr | db id Hr].
  - by apply queue_inv_create.
  - by apply queue_inv_claim.
  - destruct Hr as (job & Hg & Hs). unfold complete_job. rewrite Hg.
    destruct (get_job_Some _ _ _ Hg) as [Hin _].
    eapply queue_inv_release; eauto; by destruct success.
  - destruct Hr as (job & Hg & Hs). unfold requeue_job. rewrite Hg.
    destruct (get_job_Some _ _ _ Hg) as [Hin _].
    eapply queue_inv_release; eauto; done.
Qed.

(** C3, amended. In every state reached by [create_job],
    [claim_next_job], and [complete_job] and [requeue_job] called for
    jobs that are [RUNNING] (as the worker calls them), a job is
    [RUNNING] if and only if exactly one lock row has its [job_id]. *)
Theorem worker_reachable_running_iff_one_lock db :
  worker_reachable db -> running_iff_one_lock db.
Proof.
  intros H. apply queue_inv_running_iff.
  induction H as [| db db' _ IH Hstep]; [apply queue_inv_empty |].
  eapply queue_inv_worker_step; eauto.
Qed.

Lemma worker_reachable_running_iff_one_lock_witness :
  worker_reachable db_first_claimed /\ running_iff_one_lock db_first_claimed.
Proof.
  assert (H : worker_reachable db_first_claimed).
  { unfold db_first_claimed, db_two_jobs.
    eapply wreachable_step; [| apply wstep_claim].
    eapply wreachable_step; [| apply wstep_create].
    eapply wreachable_step; [| apply wstep_create].
    apply wreachable_empty. }
  split; [exact H | exact (worker_reachable_running_iff_one_lock _ H)].
Defined.

(** * More of the queue *)

(** ** What [create_job] does to the tables *)

Lemma urlparse_Raise url e : Urllib.urlparse url = Raise e -> e = ValueError.
Proof.
  unfold Urllib.urlparse. destruct (Urllib.split_scheme _) as [s r].
  unfold Urllib.split_authority. destruct (Urllib.after_slashes r) as [a |].
  - destruct (Urllib.splitnetloc a) as [n r']. destruct (Urllib.brackets_ok n).
    + cbn [mbind result_bind]. repeat case_match; done.
    + cbn [mbind result_bind]. by intros [= <-].
  - cbn [mbind result_bind]. repeat case_match; done.
Qed.

Lemma validated_submission_Raise env url e :
  validated_submission env url = Raise e -> e = ValueError \/ e = SSRFError.
Proof.
  unfold validated_submission, validate_url_format, validate_ssrf, normalize_url,
    extract_main_domain.
  destruct (String.eqb url ""); cbn [mbind result_bind]; [intros [= <-]; auto |].
  destruct (Urllib.urlparse url) as [p | e1] eqn:Ep; cbn [mbind result_bind];
    [| intros [= <-]; left; eapply urlparse_Raise; eauto].
  destruct (negb (Urllib.mem _ _)); cbn [mbind result_bind]; [intros [= <-]; auto |].
  destruct (String.eqb (Urllib.netloc p) ""); cbn [mbind result_bind];
    [intros [= <-]; auto |].
  destruct (Urllib.hostname p) as [h |]; cbn [mbind result_bind]; [| intros [= <-]; auto].
  destruct (is_metadata_endpoint h); cbn [mbind result_bind]; [intros [= <-]; auto |].
  destruct (is_private_ip h); cbn [mbind result_bind]; [intros [= <-]; auto |].
  destruct (Urllib.mem (Str.lower h) _); cbn [mbind result_bind]; [intros [= <-]; auto |].
  assert (forall (o : option raised) (k : result (string * string)),
            match match o with
                  | None => Ok ()
                  | Some RaisedGaierror => Ok ()
                  | Some (RaisedSSRFError | RaisedOther) => Ok ()
                  end with
            | Ok _ => k
            | Raise e0 => Raise e0
            end = k) as Hsw by (intros [[| |] |] k; reflexivity).
  unfold mbind, result_bind at 1. rewrite Hsw.
  destruct (Urllib.urlparse (Str.lower url)) as [q | e2] eqn:Eq; cbn [mbind result_bind];
    [| intros [= <-]; left; eapply urlparse_Raise; eauto].
  intros H. discriminate H.
Qed.

Lemma select_dedup_Some db nu date r :
  select_dedup db nu date = Some r ->
  In r (jobs db) /\ normalized_url r = nu /\ submission_date r = date.
Proof.
  unfold select_dedup. intros H. apply find_some in H as [Hin Heq].
  apply andb_true_iff in Heq as [H1 H2].
  apply String.eqb_eq in H1, H2. done.
Qed.

Lemma insert_job_Some j db db' :
  insert_job j db = Some db' ->
  db' = mkDatabase (jobs db ++ [j]) (domain_locks db)
  /\ forall r, In r (jobs db) ->
       job_id r <> job_id j
       /\ ~ (normalized_url r = normalized_url j /\ submission_date r = submission_date j).
Proof.
  unfold insert_job. destruct (existsb _ _) eqn:E; [done |]. intros [= <-].
  split; [done |]. intros r Hr.
  assert (String.eqb (job_id r) (job_id j)
          || String.eqb (normalized_url r) (normalized_url j)
             && String.eqb (submission_date r) (submission_date j) = false) as Hf.
  { destruct (_ || _) eqn:Eb; [| done].
    assert (existsb (fun r0 => String.eqb (job_id r0) (job_id j)
              || String.eqb (normalized_url r0) (normalized_url j)
                 && String.eqb (submission_date r0) (submission_date j)) (jobs db) = true);
      [| congruence].
    apply existsb_exists. eauto. }
  apply orb_false_iff in Hf as [H1 H2]. apply String.eqb_neq in H1.
  split; [done |]. intros [Hu Hd]. rewrite Hu, Hd, !String.eqb_refl in H2. done.
Qed.

Lemma insert_job_None j db :
  insert_job j db = None ->
  exists r, In r (jobs db)
    /\ (job_id r = job_id j
        \/ (normalized_url r = normalized_url j /\ submission_date r = submission_date j)).
Proof.
  unfold insert_job. destruct (existsb _ _) eqn:E; [| done]. intros _.
  apply existsb_exists in E as (r & Hr & Hb). exists r. split; [done |].
  apply orb_true_iff in Hb as [Hb | Hb].
  - left. by apply String.eqb_eq.
  - right. apply andb_true_iff in Hb as [H1 H2]. by apply String.eqb_eq in H1, H2.
Qed.

Lemma select_dedup_None db nu date r :
  select_dedup db nu date = None -> In r (jobs db) ->
  ~ (normalized_url r = nu /\ submission_date r = date).
Proof.
  unfold select_dedup. intros H Hr [Hu Hd].
  eapply find_none in H; [| exact Hr]. simpl in H.
  rewrite Hu, Hd, !String.eqb_refl in H. done.
Qed.

Lemma find_app_first {A : Type} (f : A -> bool) (l l' : list A) (x : A) :
  List.find f l = Some x -> List.find f (l ++ l') = Some x.
Proof.
  induction l as [| y ys IH]; simpl; [done |].
  destruct (f y); [done | auto].
Qed.

Lemma validated_submission_fingerprint env url nu md :
  validated_submission env url = Ok (nu, md) -> normalize_url url = Ok nu.
Proof.
  unfold validated_submission. intros H.
  apply bind_Ok in H as ([] & _ & H). apply bind_Ok in H as ([] & _ & H).
  apply bind_Ok in H as (n & Hn & H). apply bind_Ok in H as (d & _ & H).
  by injection H as -> ->.
Qed.

(** The three ways [create_job] ends, and what each does to the tables. *)
Lemma create_job_cases settings env db url ov :
  (exists e, create_job settings env db url ov = (Raise e, db))
  \/ (exists r, create_job settings env db url ov = (Ok (r, true), db)
        /\ In r (jobs db)
        /\ normalize_url url = Ok (normalized_url r)
        /\ submission_date r = Datetime.strftime_date (env_now env))
  \/ (exists nu md,
        let job := new_job settings env ov nu md (Datetime.strftime_date (env_now env)) in
        validated_submission env url = Ok (nu, md)
        /\ create_job settings env db url ov
           = (Ok (job, false), mkDatabase (jobs db ++ [job]) (domain_locks db))
        /\ forall r, In r (jobs db) ->
             job_id r <> job_id job
             /\ ~ (normalized_url r = nu
                   /\ submission_date r = Datetime.strftime_date (env_now env))).
Proof.
  unfold create_job.
  destruct (validated_submission env url) as [[nu md] | e] eqn:Ev; [| left; eauto].
  pose proof (validated_submission_fingerprint _ _ _ _ Ev) as Hn.
  destruct (select_dedup db nu _) as [x |] eqn:Es.
  - right. left. exists x. apply select_dedup_Some in Es as (Hin & <- & Hd). done.
  - destruct (insert_job _ db) as [d |] eqn:Ei.
    + right. right. exists nu, md. apply insert_job_Some in Ei as [-> Hfresh].
      split; [done |]. split; [done |]. exact Hfresh.
    + left. eauto.
Qed.

(** A submission that raises, or that finds the job of an earlier
    submission, leaves both tables as they are; one that returns a new
    job has appended that one row, [QUEUED] and with no attempt, under a
    [job_id] that no row had, and has changed no other row and no lock.
    In both cases the job is the one of the URL's fingerprint. *)
Theorem create_job_appends_or_keeps settings env db url ov r db' :
  create_job settings env db url ov = (r, db') ->
  match r with
  | Raise _ => db' = db
  | Ok (job, true) =>
      db' = db /\ In job (jobs db)
      /\ normalize_url url = Ok (normalized_url job)
  | Ok (job, false) =>
      jobs db' = (jobs db ++ [job])%list
      /\ domain_locks db' = domain_locks db
      /\ normalize_url url = Ok (normalized_url job)
      /\ status job = QUEUED /\ attempts job = 0
      /\ get_job db (job_id job) = None
      /\ get_job db' (job_id job) = Some job
      /\ forall id x, get_job db id = Some x -> get_job db' id = Some x
  end.
Proof.
  intros H.
  destruct (create_job_cases settings env db url ov)
    as [[e He] | [(x & He & Hin & Hn & _) | (nu & md & Hv & He & Hfresh)]];
    rewrite He in H; injection H as <- <-; try done.
  cbn [jobs domain_locks].
  pose proof (validated_submission_fingerprint _ _ _ _ Hv) as Hn.
  set (job := new_job settings env ov nu md _) in *.
  assert (Hnone : get_job db (job_id job) = None).
  { destruct (get_job db (job_id job)) as [x |] eqn:Ex; [| done].
    apply get_job_Some in Ex as [Hx Hid]. by apply Hfresh in Hx as [? _]. }
  repeat split; try done.
  - unfold get_job in *. cbn [jobs]. apply find_app_last; [done |].
    apply String.eqb_refl.
  - intros id x Hx. unfold get_job in *. cbn [jobs]. by apply find_app_first.
Qed.

Lemma create_job_appends_or_keeps_witness :
  exists job db',
    create_job default_settings (example_env t0 "job-1") empty_db
      "https://example.com/a" no_overrides = (Ok (job, false), db')
    /\ jobs db' = [job] /\ get_job db' (job_id job) = Some job.
Proof.
  eexists _, _. split; [reflexivity |].
  pose proof (create_job_appends_or_keeps default_settings (example_env t0 "job-1") empty_db
                "https://example.com/a" no_overrides _ _ eq_refl)
    as (Hj & _ & _ & _ & _ & _ & Hg & _).
  split; [exact Hj | exact Hg].
Defined.

(** [create_job] raises [IntegrityError] exactly when the identifier it
    has drawn is the [job_id] of a stored row while no row has the
    fingerprint and the date of the submission; with an identifier that
    no row has, it raises nothing but the [ValueError] and the
    [SSRFError] of the validation. *)
Theorem create_job_integrity_error_iff settings env db url ov :
  (fst (create_job settings env db url ov) = Raise IntegrityError <->
   exists nu md,
     validated_submission env url = Ok (nu, md)
     /\ select_dedup db nu (Datetime.strftime_date (env_now env)) = None
     /\ exists r, In r (jobs db) /\ job_id r = env_uuid4 env)
  /\ (get_job db (env_uuid4 env) = None ->
      forall e, fst (create_job settings env db url ov) = Raise e ->
        e = ValueError \/ e = SSRFError).
Proof.
  assert (Hiff : fst (create_job settings env db url ov) = Raise IntegrityError <->
   exists nu md,
     validated_submission env url = Ok (nu, md)
     /\ select_dedup db nu (Datetime.strftime_date (env_now env)) = None
     /\ exists r, In r (jobs db) /\ job_id r = env_uuid4 env).
  { unfold create_job.
    destruct (validated_submission env url) as [[nu md] | e] eqn:Ev.
    - destruct (select_dedup db nu _) as [x |] eqn:Es.
      + split; [done |]. intros (nu' & md' & [= <- <-] & Hs & _). congruence.
      + destruct (insert_job _ db) as [d |] eqn:Ei.
        * split; [done |]. intros (nu' & md' & [= <- <-] & _ & r & Hr & Hid).
          apply insert_job_Some in Ei as [_ Hfresh]. by apply Hfresh in Hr as [? _].
        * split; [| done]. intros _. exists nu, md. split; [done |]. split; [done |].
          apply insert_job_None in Ei as (r & Hr & [Hid | Hkey]); [eauto |].
          exfalso. eapply select_dedup_None; eauto.
    - split.
      + cbn [fst]. intros [= ->].
        apply validated_submission_Raise in Ev as [Hv | Hv]; discriminate Hv.
      + intros (nu & md & Hv & _). discriminate Hv. }
  split; [exact Hiff |].
  intros Hfresh e He.
  destruct e; auto. exfalso.
  apply Hiff in He as (nu & md & _ & _ & r & Hr & Hid).
  eapply get_job_None; eauto.
Qed.

Lemma create_job_integrity_error_iff_witness :
  fst (create_job default_settings (example_env t0 "job-1") db_succeeded
         "https://example.com/other" no_overrides) = Raise IntegrityError.
Proof.
  apply (proj1 (create_job_integrity_error_iff default_settings (example_env t0 "job-1")
                  db_succeeded "https://example.com/other" no_overrides)).
  exists "https://example.com/other", "example.com".
  split; [reflexivity |]. split; [reflexivity |].
  exists (example_job SUCCEEDED 1 2). split; [by left | reflexivity].
Defined.

(** ** Keys *)

(** The example state [db_first_claimed] is one that the operations
    reach. *)
Lemma reachable_db_first_claimed : reachable db_first_claimed.
Proof.
  unfold db_first_claimed, db_two_jobs.
  eapply reachable_step; [| apply step_claim].
  eapply reachable_step; [| apply step_create].
  eapply reachable_step; [| apply step_create].
  apply reachable_empty.
Qed.

Lemma worker_reachable_db_first_claimed : worker_reachable db_first_claimed.
Proof.
  unfold db_first_claimed, db_two_jobs.
  eapply wreachable_step; [| apply wstep_claim].
  eapply wreachable_step; [| apply wstep_create].
  eapply wreachable_step; [| apply wstep_create].
  apply wreachable_empty.
Qed.

Lemma run_reachable_db_first_claimed : run_reachable db_first_claimed.
Proof.
  unfold db_first_claimed, db_two_jobs.
  eapply rreachable_step; [| apply rstep_claim].
  eapply rreachable_step; [| apply rstep_create].
  eapply rreachable_step; [| apply rstep_create].
  apply rreachable_empty.
Qed.

Lemma job_claimed_In : In job_claimed (jobs db_first_claimed).
Proof. vm_compute. by left. Qed.

(** The two keys of [jobs]: the primary key and the unique index
    [idx_dedup]. *)
Lemma keys_update db r j' locks :
  NoDup (List.map job_id (jobs db)) ->
  (forall a b, In a (jobs db) -> In b (jobs db) ->
     normalized_url a = normalized_url b -> submission_date a = submission_date b -> a = b) ->
  In r (jobs db) -> job_id j' = job_id r ->
  normalized_url j' = normalized_url r -> submission_date j' = submission_date r ->
  let db' := mkDatabase (jobs (update_job j' db)) locks in
  NoDup (List.map job_id (jobs db'))
  /\ (forall a b, In a (jobs db') -> In b (jobs db') ->
        normalized_url a = normalized_url b -> submission_date a = submission_date b -> a = b).
Proof.
  intros Hnd Hkey Hr Hid Hu Hd. cbn [jobs]. split; [by rewrite update_job_ids |].
  intros a b Ha Hb Hab Hab'.
  apply In_update_job in Ha as [[-> _] | [Ha Hna]];
    apply In_update_job in Hb as [[-> _] | [Hb Hnb]]; try done.
  - exfalso. apply Hnb. rewrite Hid. f_equal. apply Hkey; congruence.
  - exfalso. apply Hna. rewrite Hid. f_equal. apply Hkey; congruence.
  - by apply Hkey.
Qed.

(** In every state that the four operations of the queue reach, called
    in any order with any arguments, no two rows have the same [job_id]
    and no two rows have the same fingerprint and submission date. *)
Theorem reachable_keys_unique db :
  reachable db ->
  NoDup (List.map job_id (jobs db))
  /\ forall a b, In a (jobs db) -> In b (jobs db) ->
       normalized_url a = normalized_url b -> submission_date a = submission_date b ->
       a = b.
Proof.
  induction 1 as [| db db' _ [Hnd Hkey] Hstep].
  - split; [apply NoDup_nil_2 | intros a b []].
  - destruct Hstep as [settings env db url ov | now db | now db id success code message | db id].
    + destruct (create_job_cases settings env db url ov)
        as [[e ->] | [(x & -> & _) | (nu & md & _ & -> & Hfresh)]]; try done.
      cbn [snd jobs]. split.
      * rewrite map_app. apply NoDup_app. split; [done |]. split; [| apply NoDup_singleton].
        intros id Hid. rewrite list_elem_of_In in Hid.
        apply in_map_iff in Hid as (r & <- & Hr).
        rewrite list_elem_of_In. simpl. intros [Heq | []].
        by apply Hfresh in Hr as [? _].
      * intros a b Ha Hb Hu Hd.
        apply in_app_or in Ha as [Ha | [<- | []]];
          apply in_app_or in Hb as [Hb | [<- | []]]; try done.
        -- by apply Hkey.
        -- exfalso. apply Hfresh in Ha as [_ Ha]. by apply Ha.
        -- exfalso. apply Hfresh in Hb as [_ Hb]. by apply Hb.
    + unfold claim_next_job.
      destruct (next_candidate db) as [job |] eqn:Ec; [| done].
      destruct (next_candidate_Some _ _ Ec) as [Hin _].
      destruct (domain_locks db !! main_domain job).
      * destruct (Datetime.elapsed_exceeds _ _ _); cbn [snd].
        -- eapply (keys_update db job _ (domain_locks db)); eauto; done.
        -- destruct (bool_decide _); cbn [snd negb]; [done |].
           eapply (keys_update db job _ (domain_locks db)); eauto; done.
      * cbn [snd]. eapply keys_update; eauto; done.
    + unfold complete_job. destruct (get_job db id) as [job |] eqn:Eg; [| done].
      destruct (get_job_Some _ _ _ Eg) as [Hin _].
      eapply keys_update; eauto; by destruct success.
    + unfold requeue_job. destruct (get_job db id) as [job |] eqn:Eg; [| done].
      destruct (get_job_Some _ _ _ Eg) as [Hin _].
      eapply keys_update; eauto; done.
Qed.

Lemma reachable_keys_unique_witness :
  NoDup (List.map job_id (jobs db_first_claimed)).
Proof.
  exact (proj1 (reachable_keys_unique db_first_claimed reachable_db_first_claimed)).
Defined.

(** ** The life of a row *)

Lemma rows_update (P : Job -> Prop) db j' locks :
  (forall j, In j (jobs db) -> P j) -> P j' ->
  forall j, In j (jobs (mkDatabase (jobs (update_job j' db)) locks)) -> P j.
Proof.
  intros Hall Hj' j Hj. cbn [jobs] in Hj.
  apply In_update_job in Hj as [[-> _] | [Hj _]]; auto.
Qed.

Local Ltac row_goal :=
  let H := fresh "H" in
  first [ done | lia | by eexists
        | intros [H | H]; first [discriminate H | done | by eexists]
        | intros H; first [discriminate H | done
                          | split; first [done | lia | by eexists]] ].

(** In every state that the four operations reach, in any order and
    with any arguments, every row has [attempts >= 0] and the stored
    [deduplicated] flag [False]; a [QUEUED] or [WAITING_DOMAIN_LOCK] row
    has no [started_at]; a [RUNNING] row has a [started_at] and at least
    one attempt; a [SUCCEEDED] or [FAILED] row has a [finished_at]; and a
    [SUCCEEDED] row has neither error code nor error message. *)
Theorem reachable_rows_well_formed db job :
  reachable db -> In job (jobs db) ->
  0 <= attempts job
  /\ deduplicated job = false
  /\ (status job = QUEUED \/ status job = WAITING_DOMAIN_LOCK -> started_at job = None)
  /\ (status job = RUNNING -> is_Some (started_at job) /\ 1 <= attempts job)
  /\ (status job = SUCCEEDED \/ status job = FAILED -> is_Some (finished_at job))
  /\ (status job = SUCCEEDED -> error_code job = None /\ error_message job = None).
Proof.
  intros Hreach. revert job.
  induction Hreach as [| db db' _ IH Hstep]; [intros job [] |].
  destruct Hstep as [settings env db url ov | now db | now db id success code message | db id].
  - destruct (create_job_cases settings env db url ov)
      as [[e ->] | [(x & -> & _) | (nu & md & _ & -> & _)]]; try done.
    cbn [snd jobs]. intros job Hj.
    apply in_app_or in Hj as [Hj | [<- | []]]; [auto |].
    cbn. repeat split; row_goal.
  - unfold claim_next_job.
    destruct (next_candidate db) as [c |] eqn:Ec; [| done].
    destruct (next_candidate_Some _ _ Ec) as [Hin Hst].
    destruct (IH c Hin) as (Ha & Hd & Hq & _).
    specialize (Hq Hst).
    destruct (domain_locks db !! main_domain c).
    + destruct (Datetime.elapsed_exceeds _ _ _); cbn [snd].
      * apply (rows_update _ db _ (domain_locks db)); [exact IH |].
        cbn. repeat split; row_goal.
      * destruct (bool_decide _); cbn [snd negb]; [exact IH |].
        apply (rows_update _ db _ (domain_locks db)); [exact IH |].
        cbn. repeat split; row_goal.
    + cbn [snd]. apply rows_update; [exact IH |].
      cbn. repeat split; row_goal.
  - unfold complete_job. destruct (get_job db id) as [c |] eqn:Eg; [| done].
    destruct (get_job_Some _ _ _ Eg) as [Hin _].
    destruct (IH c Hin) as (Ha & Hd & _).
    apply rows_update; [exact IH |].
    destruct success; cbn; repeat split; row_goal.
  - unfold requeue_job. destruct (get_job db id) as [c |] eqn:Eg; [| done].
    destruct (get_job_Some _ _ _ Eg) as [Hin _].
    destruct (IH c Hin) as (Ha & Hd & _).
    apply rows_update; [exact IH |].
    cbn. repeat split; row_goal.
Qed.

Lemma reachable_rows_well_formed_witness :
  status job_claimed = RUNNING /\ is_Some (started_at job_claimed)
  /\ 1 <= attempts job_claimed /\ deduplicated job_claimed = false.
Proof.
  destruct (reachable_rows_well_formed db_first_claimed job_claimed
              reachable_db_first_claimed job_claimed_In) as (_ & Hd & _ & Hr & _).
  assert (Hs : status job_claimed = RUNNING) by reflexivity.
  destruct (Hr Hs) as [Hst Ha].
  split; [exact Hs |]. split; [exact Hst |]. split; [exact Ha | exact Hd].
Defined.

(** ** One job of a domain at a time *)

Lemma worker_reachable_queue_inv db : worker_reachable db -> queue_inv db.
Proof.
  induction 1 as [| db db' _ IH Hstep]; [apply queue_inv_empty |].
  eapply queue_inv_worker_step; eauto.
Qed.

(** When [complete_job] and [requeue_job] are called for running jobs
    only, as the worker calls them, no two jobs of one main domain are
    [RUNNING] at the same time. *)
Theorem worker_reachable_one_running_per_domain db a b :
  worker_reachable db ->
  In a (jobs db) -> In b (jobs db) ->
  status a = RUNNING -> status b = RUNNING -> main_domain a = main_domain b ->
  a = b.
Proof.
  intros Hreach Ha Hb Hsa Hsb Hdom.
  destruct (worker_reachable_queue_inv _ Hreach) as [Hids _ Hrun].
  destruct (Hrun a Ha Hsa) as (la & Hla & Hida).
  destruct (Hrun b Hb Hsb) as (lb & Hlb & Hidb).
  rewrite Hdom in Hla. rewrite Hla in Hlb. injection Hlb as <-.
  eapply NoDup_job_id_inj; eauto. congruence.
Qed.

Lemma worker_reachable_one_running_per_domain_witness :
  status job_claimed = RUNNING
  /\ job_claimed = default job_claimed (get_job db_first_claimed "job-1").
Proof.
  split; [reflexivity |].
  assert (Hin : In (default job_claimed (get_job db_first_claimed "job-1"))
                   (jobs db_first_claimed)) by (vm_compute; by left).
  exact (worker_reachable_one_running_per_domain db_first_claimed job_claimed _
           worker_reachable_db_first_claimed job_claimed_In Hin
           eq_refl eq_refl eq_refl).
Defined.

(** ** The order of claims *)

Lemma oldest_None (l : list Job) : oldest l = None -> l = [].
Proof.
  destruct l as [| r rs]; [done |]. simpl.
  destruct (oldest rs) as [b |]; [| done]. by destruct (created_at b <? created_at r).
Qed.

Lemma oldest_le (l : list Job) j :
  oldest l = Some j -> forall r, In r l -> created_at j <= created_at r.
Proof.
  revert j. induction l as [| x xs IH]; [done |].
  simpl. intros j Hj r Hr. destruct (oldest xs) as [b |] eqn:Eb.
  - specialize (IH b eq_refl).
    destruct (created_at b <? created_at x) eqn:E; injection Hj as <-.
    + apply Z.ltb_lt in E. destruct Hr as [<- | Hr]; [lia | auto].
    + apply Z.ltb_ge in E. destruct Hr as [<- | Hr]; [lia |].
      specialize (IH r Hr). lia.
  - injection Hj as <-. apply oldest_None in Eb. subst xs.
    destruct Hr as [<- | []]. lia.
Qed.

Lemma select_oldest_le st db j :
  select_oldest st db = Some j ->
  forall r, In r (jobs db) -> status r = st -> created_at j <= created_at r.
Proof.
  unfold select_oldest. intros H r Hr Hs. eapply oldest_le; [exact H |].
  apply filter_In. split; [done |]. by apply bool_decide_eq_true.
Qed.

Lemma select_oldest_None st db r :
  select_oldest st db = None -> In r (jobs db) -> status r <> st.
Proof.
  unfold select_oldest. intros H Hr Hs. apply oldest_None in H.
  assert (In r (List.filter (fun r0 => bool_decide (status r0 = st)) (jobs db))) as Hin.
  { apply filter_In. split; [done |]. by apply bool_decide_eq_true. }
  rewrite H in Hin. destruct Hin.
Qed.

Lemma claim_next_job_Some now db j' :
  fst (claim_next_job now db) = Some j' ->
  exists job,
    next_candidate db = Some job
    /\ domain_locks db !! main_domain job = None
    /\ j' = set_attempts (attempts job + 1)
              (set_started_at (Some now) (set_status RUNNING job)).
Proof.
  unfold claim_next_job. destruct (next_candidate db) as [job |] eqn:Ec; [| done].
  destruct (domain_locks db !! main_domain job) eqn:El.
  - destruct (Datetime.elapsed_exceeds _ _ _); [done |].
    by destruct (negb _).
  - cbn [fst]. intros [= <-]. exists job. done.
Qed.

(** The job that [claim_next_job] returns is the stored job with the
    least [created_at] among the [QUEUED] ones, and its domain had no
    lock; a [WAITING_DOMAIN_LOCK] job is returned only when no job is
    [QUEUED], and then it is the oldest of the waiting ones. *)
Theorem claim_next_job_takes_oldest now db j' :
  fst (claim_next_job now db) = Some j' ->
  exists job,
    In job (jobs db)
    /\ j' = set_attempts (attempts job + 1)
              (set_started_at (Some now) (set_status RUNNING job))
    /\ domain_locks db !! main_domain job = None
    /\ ((status job = QUEUED
         /\ forall r, In r (jobs db) -> status r = QUEUED ->
              created_at job <= created_at r)
        \/ (status job = WAITING_DOMAIN_LOCK
            /\ (forall r, In r (jobs db) -> status r <> QUEUED)
            /\ forall r, In r (jobs db) -> status r = WAITING_DOMAIN_LOCK ->
                 created_at job <= created_at r)).
Proof.
  intros H. apply claim_next_job_Some in H as (job & Hc & Hl & ->).
  exists job. destruct (next_candidate_Some _ _ Hc) as [Hin _].
  split; [done |]. split; [done |]. split; [done |].
  unfold next_candidate in Hc.
  destruct (select_oldest QUEUED db) as [q |] eqn:Eq.
  - injection Hc as ->. left. split.
    + by apply select_oldest_Some in Eq as [_ ?].
    + intros r Hr Hs. eapply select_oldest_le; eauto.
  - right. split; [by apply select_oldest_Some in Hc as [_ ?] |]. split.
    + intros r Hr. eapply select_oldest_None; eauto.
    + intros r Hr Hs. eapply select_oldest_le; eauto.
Qed.

Lemma claim_next_job_takes_oldest_witness :
  exists j' job,
    fst (claim_next_job (t0 + 2) db_two_jobs) = Some j'
    /\ In job (jobs db_two_jobs) /\ status job = QUEUED
    /\ job_id j' = job_id job
    /\ forall r, In r (jobs db_two_jobs) -> status r = QUEUED ->
         created_at job <= created_at r.
Proof.
  eexists _.
  destruct (claim_next_job_takes_oldest (t0 + 2) db_two_jobs _ eq_refl)
    as (job & Hin & Hj & _ & [[Hs Hle] | [Hs _]]).
  - exists job. split; [reflexivity |]. split; [exact Hin |]. split; [exact Hs |].
    split; [| exact Hle]. apply (f_equal job_id) in Hj. exact Hj.
  - exfalso. vm_compute in Hin. destruct Hin as [<- | [<- | []]]; discriminate Hs.
Defined.

(** ** What the operations leave alone *)

Lemma get_job_update_key db j locks id :
  get_job (mkDatabase (jobs (update_job j db)) locks) id = get_job (update_job j db) id.
Proof. done. Qed.

(** [claim_next_job] changes no row but the one of its candidate,
    removes no lock, adds none but the one of the candidate's domain,
    and does nothing at all when no job is [QUEUED] or
    [WAITING_DOMAIN_LOCK]. *)
Theorem claim_next_job_frame now db :
  (forall id, (forall job, next_candidate db = Some job -> job_id job <> id) ->
     get_job (snd (claim_next_job now db)) id = get_job db id)
  /\ (forall d l, domain_locks db !! d = Some l ->
        domain_locks (snd (claim_next_job now db)) !! d = Some l)
  /\ (forall d, (forall job, next_candidate db = Some job -> main_domain job <> d) ->
        domain_locks (snd (claim_next_job now db)) !! d = domain_locks db !! d)
  /\ ((forall r, In r (jobs db) -> status r <> QUEUED /\ status r <> WAITING_DOMAIN_LOCK) ->
        claim_next_job now db = (None, db)).
Proof.
  unfold claim_next_job. destruct (next_candidate db) as [job |] eqn:Ec.
  - destruct (next_candidate_Some _ _ Ec) as [Hin Hst].
    assert (Hsome : ~ forall r, In r (jobs db) ->
                        status r <> QUEUED /\ status r <> WAITING_DOMAIN_LOCK).
    { intros Hnone. apply Hnone in Hin. destruct Hst; tauto. }
    destruct (domain_locks db !! main_domain job) as [lock |] eqn:El.
    + destruct (Datetime.elapsed_exceeds _ _ _); cbn [snd].
      * repeat split; try done.
        intros id Hid. apply get_job_update_other. exact (Hid job eq_refl).
      * destruct (bool_decide _) eqn:Eb; cbn [snd negb]; repeat split; try done.
        intros id Hid. apply get_job_update_other. exact (Hid job eq_refl).
    + cbn [snd domain_locks]. repeat split; try done.
      * intros id Hid. rewrite get_job_update_key. apply get_job_update_other.
        exact (Hid job eq_refl).
      * intros d l Hl. cbn [main_domain set_attempts set_started_at set_status].
        rewrite lookup_insert_ne; [done |]. intros <-. congruence.
      * intros d Hd. cbn [main_domain set_attempts set_started_at set_status].
        rewrite lookup_insert_ne; [done |]. exact (Hd job eq_refl).
  - cbn [snd]. repeat split; done.
Qed.

Lemma claim_next_job_frame_witness :
  claim_next_job t0 db_succeeded = (None, db_succeeded).
Proof.
  apply (claim_next_job_frame t0 db_succeeded).
  intros r [<- | []]. split; discriminate.
Defined.

(** [complete_job] and [requeue_job] change no row but the one with the
    given [job_id], and no lock but the one of that job's main domain. *)
Theorem complete_requeue_frame now db id success code message :
  (forall id', id' <> id ->
     get_job (complete_job now db id success code message) id' = get_job db id'
     /\ get_job (requeue_job db id) id' = get_job db id')
  /\ (forall d, (forall job, get_job db id = Some job -> main_domain job <> d) ->
        domain_locks (complete_job now db id success code message) !! d
        = domain_locks db !! d
        /\ domain_locks (requeue_job db id) !! d = domain_locks db !! d)
  /\ List.map job_id (jobs (complete_job now db id success code message))
     = List.map job_id (jobs db)
  /\ List.map job_id (jobs (requeue_job db id)) = List.map job_id (jobs db).
Proof.
  unfold complete_job, requeue_job. destruct (get_job db id) as [job |] eqn:Eg; [| done].
  destruct (get_job_Some _ _ _ Eg) as [_ Hid].
  split; [| split; [| split]].
  - intros id' Hne. rewrite !get_job_update_key. split.
    + apply get_job_update_other. destruct success; cbn; congruence.
    + apply get_job_update_other. cbn. congruence.
  - intros d Hd. specialize (Hd job eq_refl). cbn [domain_locks]. split.
    + apply lookup_delete_ne. by destruct success.
    + by apply lookup_delete_ne.
  - cbn [jobs]. apply update_job_ids.
  - cbn [jobs]. apply update_job_ids.
Qed.

Lemma complete_requeue_frame_witness :
  get_job (complete_job (t0 + 3) db_first_claimed "job-1" true None None) "job-2"
  = get_job db_first_claimed "job-2".
Proof.
  refine (proj1 (proj1 (complete_requeue_frame (t0 + 3) db_first_claimed "job-1" true
                          None None) "job-2" _)).
  discriminate.
Defined.

(** ** How often a job runs *)

Local Ltac attempts_goal :=
  let H := fresh "H" in
  first [ done | lia
        | intros [H | H]; first [discriminate H | done | lia]
        | intros H; first [discriminate H | done | lia] ].

(** In the states that the worker loop reaches, where the status update
    after a run is the one that [should_retry] decides for the claimed
    job, no job has been claimed more often than its [max_retries], or
    once when that is below one: [attempts] never exceeds
    [max(1, max_retries)], and a job that waits for another run has
    [attempts < max_retries] or has not run yet. *)
Theorem run_reachable_attempts_bounded db job :
  run_reachable db -> In job (jobs db) ->
  attempts job <= Z.max 1 (max_retries job)
  /\ (status job = QUEUED \/ status job = WAITING_DOMAIN_LOCK ->
        attempts job = 0 \/ attempts job < max_retries job).
Proof.
  intros Hreach. revert job.
  induction Hreach as [| db db' _ IH Hstep]; [intros job [] |].
  destruct Hstep as [settings env db url ov | now db | now db job success code message Hg Hs].
  - destruct (create_job_cases settings env db url ov)
      as [[e ->] | [(x & -> & _) | (nu & md & _ & -> & _)]]; try done.
    cbn [snd jobs]. intros job Hj.
    apply in_app_or in Hj as [Hj | [<- | []]]; [auto |].
    cbn [new_job attempts max_retries status]. split; [lia | auto].
  - unfold claim_next_job.
    destruct (next_candidate db) as [c |] eqn:Ec; [| done].
    destruct (next_candidate_Some _ _ Ec) as [Hin Hst].
    destruct (IH c Hin) as (Hb & Hq). specialize (Hq Hst).
    destruct (domain_locks db !! main_domain c).
    + destruct (Datetime.elapsed_exceeds _ _ _); cbn [snd].
      * apply (rows_update _ db _ (domain_locks db)); [exact IH |].
        cbn. split; attempts_goal.
      * destruct (bool_decide _); cbn [snd negb]; [exact IH |].
        apply (rows_update _ db _ (domain_locks db)); [exact IH |].
        cbn. split; attempts_goal.
    + cbn [snd]. apply rows_update; [exact IH |].
      cbn. split; attempts_goal.
  - destruct (get_job_Some _ _ _ Hg) as [Hin _].
    destruct (IH job Hin) as (Hb & _).
    unfold update_job_status, decide_outcome.
    destruct success.
    + unfold complete_job. rewrite Hg. apply rows_update; [exact IH |].
      cbn. split; attempts_goal.
    + destruct (should_retry job code) eqn:Er.
      * apply should_retry_true_iff in Er as [_ Hlt].
        unfold requeue_job. rewrite Hg. apply rows_update; [exact IH |].
        cbn. split; [lia | auto].
      * unfold complete_job. rewrite Hg. apply rows_update; [exact IH |].
        cbn. split; attempts_goal.
Qed.

Lemma run_reachable_attempts_bounded_witness :
  attempts job_claimed <= Z.max 1 (max_retries job_claimed).
Proof.
  exact (proj1 (run_reachable_attempts_bounded db_first_claimed job_claimed
                  run_reachable_db_first_claimed job_claimed_In)).
Defined.

(** * The worker *)

(** ** Redirects *)

Lemma mem_In s l : Urllib.mem s l = true <-> In s l.
Proof.
  unfold Urllib.mem. rewrite existsb_exists. split.
  - intros (x & Hx & He). apply String.eqb_eq in He. by subst.
  - intros H. exists s. split; [done | apply String.eqb_refl].
Qed.

Lemma mem_not_In s l : Urllib.mem s l = false <-> ~ In s l.
Proof.
  rewrite <- mem_In. destruct (Urllib.mem s l); split; done.
Qed.

(** What [validate_ssrf] has checked when it returns. *)
Lemma validate_ssrf_Ok_inv g url :
  validate_ssrf g url = Ok () ->
  exists p h,
    Urllib.urlparse url = Ok p /\ Urllib.hostname p = Some h
    /\ is_metadata_endpoint h = false /\ is_private_ip h = false
    /\ ~ In (Str.lower h) ["localhost"; "localhost.localdomain"].
Proof.
  unfold validate_ssrf. destruct (Urllib.urlparse url) as [p | e]; [| done].
  cbn [mbind result_bind]. destruct (Urllib.hostname p) as [h |] eqn:Eh; [| done].
  destruct (is_metadata_endpoint h) eqn:Em; [done |].
  destruct (is_private_ip h) eqn:Ep; [done |].
  destruct (Urllib.mem (Str.lower h) _) eqn:El; [done |].
  intros _. exists p, h. repeat split; try done. by apply mem_not_In.
Qed.

Lemma validate_ssrf_Raise g url e :
  validate_ssrf g url = Raise e -> e = ValueError \/ e = SSRFError.
Proof.
  unfold validate_ssrf. destruct (Urllib.urlparse url) as [p | e'] eqn:Ep.
  - cbn [mbind result_bind]. repeat case_match; try done; intros [= <-]; auto.
  - cbn [mbind result_bind]. intros [= <-]. left. eapply urlparse_Raise; eauto.
Qed.

Lemma validate_url_format_Raise url e : validate_url_format url = Raise e -> e = ValueError.
Proof.
  unfold validate_url_format. destruct (String.eqb url ""); [by intros [= <-] |].
  destruct (Urllib.urlparse url) as [p | e'] eqn:Ep; cbn [mbind result_bind].
  - repeat case_match; try done; by intros [= <-].
  - intros [= <-]. eapply urlparse_Raise; eauto.
Qed.

Lemma absolute_redirect_Raise current_url redirect_url e :
  absolute_redirect current_url redirect_url = Raise e -> e = ValueError.
Proof.
  unfold absolute_redirect. destruct (Str.startswith _ _); [| done].
  destruct (Urllib.urlparse current_url) as [p | e'] eqn:Ep; cbn [mbind result_bind];
    [done |].
  intros [= <-]. eapply urlparse_Raise; eauto.
Qed.

(** A URL that has passed both validators. *)
Lemma redirect_target_Ok g current_url redirect_url u :
  (redirect_url ← absolute_redirect current_url redirect_url;
   _ ← validate_url_format redirect_url;
   _ ← validate_ssrf g redirect_url;
   Ok redirect_url) = Ok u ->
  absolute_redirect current_url redirect_url = Ok u
  /\ validate_url_format u = Ok () /\ validate_ssrf g u = Ok ().
Proof.
  intros H. apply bind_Ok in H as (a & Ha & H).
  apply bind_Ok in H as ([] & Hf & H). apply bind_Ok in H as ([] & Hs & H).
  injection H as <-. done.
Qed.

Lemma redirect_target_Raise g current_url redirect_url e :
  (redirect_url ← absolute_redirect current_url redirect_url;
   _ ← validate_url_format redirect_url;
   _ ← validate_ssrf g redirect_url;
   Ok redirect_url) = Raise e ->
  e = ValueError \/ e = SSRFError.
Proof.
  destruct (absolute_redirect current_url redirect_url) as [a | e1] eqn:Ea;
    cbn [mbind result_bind].
  - destruct (validate_url_format a) as [[] | e2] eqn:Ef; cbn [mbind result_bind].
    + destruct (validate_ssrf g a) as [[] | e3] eqn:Es; cbn [mbind result_bind]; [done |].
      intros [= <-]. eapply validate_ssrf_Raise; eauto.
    + intros [= <-]. left. eapply validate_url_format_Raise; eauto.
  - intros [= <-]. left. eapply absolute_redirect_Raise; eauto.
Qed.

Lemma redirect_loop_final g head remaining redirect_count url u :
  redirect_loop g head remaining redirect_count url = FinalUrl u ->
  u = url \/ (validate_url_format u = Ok () /\ validate_ssrf g u = Ok ()).
Proof.
  revert redirect_count url. induction remaining as [| n IH]; intros k url.
  - cbn [redirect_loop]. intros [= <-]. by left.
  - cbn [redirect_loop]. destruct (head k url) as [code location | |]; [| by intros [= <-]; left | done].
    destruct (existsb _ _); [| by intros [= <-]; left].
    destruct location as [loc |]; [| by intros [= <-]; left].
    destruct (String.eqb loc ""); [by intros [= <-]; left |].
    match goal with |- match ?t with _ => _ end = _ -> _ => destruct t as [v | e] eqn:Et end;
      [| done].
    apply redirect_target_Ok in Et as (_ & Hf & Hs).
    intros H. apply IH in H as [-> | H]; right; done.
Qed.

Lemma redirect_loop_raises g head remaining redirect_count url e :
  redirect_loop g head remaining redirect_count url = RedirectRaises e ->
  e = ValueError \/ e = SSRFError.
Proof.
  revert redirect_count url. induction remaining as [| n IH]; intros k url; [done |].
  cbn [redirect_loop]. destruct (head k url) as [code location | |]; [| done | done].
  destruct (existsb _ _); [| done].
  destruct location as [loc |]; [| done].
  destruct (String.eqb loc ""); [done |].
  match goal with |- match ?t with _ => _ end = _ -> _ => destruct t as [v | e'] eqn:Et end.
  - apply IH.
  - intros [= <-]. eapply redirect_target_Raise; eauto.
Qed.

(** The URL that [validate_redirects] returns is the one it was given
    or one that has passed both validators: an [http] or [https] URL
    whose host is no metadata endpoint, no private address literal and
    no name of the local host. Without a round ([max_redirects <= 0])
    it is the URL given, and no request is needed. The exceptions of the
    validators that leave it are [ValueError] and [SSRFError]. *)
Theorem validate_redirects_final_url_checked g head url max_redirects :
  (forall u, validate_redirects g head url max_redirects = FinalUrl u ->
     u = url
     \/ (validate_url_format u = Ok ()
         /\ exists p h,
              Urllib.urlparse u = Ok p
              /\ (Urllib.scheme p = "http" \/ Urllib.scheme p = "https")
              /\ Urllib.hostname p = Some h
              /\ is_metadata_endpoint h = false /\ is_private_ip h = false
              /\ ~ In (Str.lower h) ["localhost"; "localhost.localdomain"]))
  /\ (max_redirects <= 0 -> validate_redirects g head url max_redirects = FinalUrl url)
  /\ (forall e, validate_redirects g head url max_redirects = RedirectRaises e ->
        e = ValueError \/ e = SSRFError).
Proof.
  unfold validate_redirects. split; [| split].
  - intros u H. apply redirect_loop_final in H as [-> | [Hf Hs]]; [by left | right].
    split; [done |].
    destruct (validate_ssrf_Ok_inv _ _ Hs) as (p & h & Hp & Hh & Hm & Hi & Hl).
    destruct (validate_url_format_Ok _ Hf) as (p0 & Hp0 & Hsch & _).
    rewrite Hp in Hp0. injection Hp0 as <-.
    exists p, h. done.
  - intros Hle. by replace (Z.to_nat max_redirects) with 0%nat by lia.
  - intros e. apply redirect_loop_raises.
Qed.

Lemma validate_redirects_final_url_checked_witness :
  validate_redirects (fun _ => Gaierror) (fun _ _ => RequestError)
    "https://example.com/a" 0
  = FinalUrl "https://example.com/a".
Proof.
  apply (validate_redirects_final_url_checked (fun _ => Gaierror) (fun _ _ => RequestError)
           "https://example.com/a" 0).
  lia.
Defined.

(** ** A run of a job *)

Lemma should_retry_ssrf_blocked job : should_retry job (Some "SSRF_BLOCKED") = false.
Proof. reflexivity. Qed.

Lemma should_retry_retryable job c :
  ~ In c non_retryable ->
  should_retry job (Some c) = (attempts job <? max_retries job).
Proof.
  intros H. unfold should_retry. by apply mem_not_In in H as ->.
Qed.

(** The status update for a stored job. *)
Lemma update_job_status_row now db job success code message :
  get_job db (job_id job) = Some job ->
  let db' := update_job_status now db job success code message in
  exists j',
    get_job db' (job_id job) = Some j'
    /\ domain_locks db' = delete (main_domain job) (domain_locks db)
    /\ (forall id, id <> job_id job -> get_job db' id = get_job db id)
    /\ match decide_outcome job success code message with
       | CompleteSucceeded =>
           j' = set_finished_at (Some now) (set_error None None (set_status SUCCEEDED job))
       | Requeue => j' = set_started_at None (set_status QUEUED job)
       | CompleteFailed c m =>
           j' = set_finished_at (Some now)
                  (set_error (Some c) (Some m) (set_status FAILED job))
       end.
Proof.
  intros Hg. unfold update_job_status.
  destruct (decide_outcome job success code message) as [| | c m];
    unfold complete_job, requeue_job; rewrite Hg; eexists;
    (split; [rewrite get_job_update_key; eapply get_job_update_same; [exact Hg | done] |]);
    (split; [done |]); (split; [| done]);
    intros id Hne; rewrite get_job_update_key; apply get_job_update_other; cbn; congruence.
Qed.

(** A status update after an error that can be retried. *)
Lemma update_job_status_retryable now job j' code message :
  ~ In code non_retryable -> code <> "" ->
  match decide_outcome job false (Some code) message with
  | CompleteSucceeded =>
      j' = set_finished_at (Some now) (set_error None None (set_status SUCCEEDED job))
  | Requeue => j' = set_started_at None (set_status QUEUED job)
  | CompleteFailed c m =>
      j' = set_finished_at (Some now) (set_error (Some c) (Some m) (set_status FAILED job))
  end ->
  retried_or_failed now job j' code.
Proof.
  intros Hc Hne. unfold decide_outcome. rewrite (should_retry_retryable _ _ Hc).
  assert (Ho : or_str (Some code) "RENDER_FAILED" = code).
  { unfold or_str. apply String.eqb_neq in Hne. by rewrite Hne. }
  rewrite Ho.
  destruct (attempts job <? max_retries job) eqn:E; intros ->; split; intros H;
    first [apply Z.ltb_lt in E | apply Z.ltb_ge in E]; try lia; done.
Qed.

(** After a run of a stored job, whatever happened in it, its row is no
    longer [RUNNING], the lock of its main domain is gone, and no other
    row has changed. What the row becomes follows from what happened:
    when [validate_redirects] returned a URL and the rendering of it
    returned, the job is [SUCCEEDED]; when [validate_redirects] raised
    [SSRFError], it is [FAILED] with [SSRF_BLOCKED], whatever its
    attempts; when the rendering ran into the time limit, it is [QUEUED]
    again if [attempts < max_retries] and else [FAILED] with
    [JOB_TIMEOUT]; and after any other error it is [QUEUED] again if
    [attempts < max_retries] and else [FAILED] with [RENDER_FAILED]. *)
Theorem run_job_settles_job g web now db job :
  get_job db (job_id job) = Some job ->
  let db' := run_job g web now db job in
  exists j',
    get_job db' (job_id job) = Some j'
    /\ status j' <> RUNNING
    /\ domain_locks db' = delete (main_domain job) (domain_locks db)
    /\ (forall id, id <> job_id job -> get_job db' id = get_job db id)
    /\ match validate_redirects g (web_head web) (normalized_url job) 5 with
       | FinalUrl final_url =>
           match web_render web final_url job with
           | Rendered =>
               status j' = SUCCEEDED /\ finished_at j' = Some now
               /\ error_code j' = None /\ error_message j' = None
           | RenderTimeout => retried_or_failed now job j' "JOB_TIMEOUT"
           | RenderException => retried_or_failed now job j' "RENDER_FAILED"
           end
       | RedirectRaises SSRFError =>
           status j' = FAILED /\ error_code j' = Some "SSRF_BLOCKED"
           /\ finished_at j' = Some now
       | RedirectRaises _ | ClientRaises => retried_or_failed now job j' "RENDER_FAILED"
       end.
Proof.
  intros Hg db'. subst db'. unfold run_job.
  destruct (process_job g web job) as [[success code] message] eqn:Ep.
  destruct (update_job_status_row now db job success code message Hg)
    as (j' & Hg' & Hl & Hframe & Hj').
  exists j'. split; [done |].
  assert (Hnr : status j' <> RUNNING).
  { destruct (decide_outcome job success code message); by subst j'. }
  split; [done |]. split; [done |]. split; [done |].
  assert (Hretry : forall code message,
             ~ In code non_retryable -> code <> "" ->
             success = false ->
             process_job g web job = (false, Some code, message) ->
             retried_or_failed now job j' code).
  { intros c m Hc Hne -> Ep'. rewrite Ep' in Ep. injection Ep as <- <-.
    exact (update_job_status_retryable now job j' c m Hc Hne Hj'). }
  unfold process_job in Ep, Hretry.
  destruct (validate_redirects _ _ _ _) as [u | [| |] |];
    [destruct (web_render web u job) | | | |];
    injection Ep as Es Ec Em; subst success code message.
  - unfold decide_outcome in Hj'. by subst j'.
  - eapply Hretry; [cbn; intuition discriminate | done | done | done].
  - eapply Hretry; [cbn; intuition discriminate | done | done | done].
  - eapply Hretry; [cbn; intuition discriminate | done | done | done].
  - unfold decide_outcome in Hj'. rewrite should_retry_ssrf_blocked in Hj'. by subst j'.
  - eapply Hretry; [cbn; intuition discriminate | done | done | done].
  - eapply Hretry; [cbn; intuition discriminate | done | done | done].
Qed.

Lemma run_job_settles_job_witness :
  exists j',
    get_job (run_job (fun _ => Gaierror) web_timeout (t0 + 9) db_first_claimed job_claimed)
      (job_id job_claimed) = Some j'
    /\ status j' = QUEUED
    /\ domain_locks (run_job (fun _ => Gaierror) web_timeout (t0 + 9) db_first_claimed
                       job_claimed)
       = delete (main_domain job_claimed) (domain_locks db_first_claimed).
Proof.
  destruct (run_job_settles_job (fun _ => Gaierror) web_timeout (t0 + 9) db_first_claimed
              job_claimed eq_refl) as (j' & Hg & _ & Hl & _ & Hcase).
  exists j'. split; [exact Hg |]. split; [| exact Hl].
  assert (Hc : retried_or_failed (t0 + 9) job_claimed j' "JOB_TIMEOUT") by exact Hcase.
  exact (proj1 (proj1 Hc eq_refl)).
Defined.

(** * More of the fingerprint *)

Section Normalized.
Import Str StrFacts Urllib UrlFacts.

(** ** Every fingerprint is in lower case and has no fragment *)

Lemma normalize_url_inv url n :
  normalize_url url = Ok n ->
  exists p, urlparse (lower url) = Ok p
    /\ n = urlunparse (mkParseResult (scheme p) (netloc p) (stripped (path p))
                         (params p) (query p) "").
Proof.
  unfold normalize_url. destruct (urlparse (lower url)) as [p | e]; [| done].
  cbn [mbind result_bind]. intros [= <-]. by exists p.
Qed.

Lemma urlparse_scheme_lower url p : urlparse url = Ok p -> lower (scheme p) = scheme p.
Proof.
  intros (r1 & r2 & r3 & r4 & E1 & _)%urlparse_Ok.
  apply split_scheme_inv in E1 as [[-> _] | (pre & -> & _)]; [done |].
  apply lower_idem.
Qed.

Lemma lower_unsplit_hier s n u :
  lower s = s -> lower n = n -> lower u = u ->
  lower (unsplit_hier s n u) = unsplit_hier s n u.
Proof.
  intros Hs Hn Hu. unfold unsplit_hier.
  destruct (_ || _); destruct (String.eqb s "");
    repeat first [rewrite lower_app | rewrite Hs | rewrite Hn | rewrite Hu];
    try done; by destruct (_ && _); rewrite ?lower_app, ?Hu.
Qed.

(** Whatever the URL, a fingerprint that [normalize_url] returns has no
    ["#"], so no fragment, and is in lower case: lower-casing it again
    changes nothing. *)
Theorem normalize_url_lower_without_fragment url n :
  normalize_url url = Ok n ->
  Str.contains "#" n = false /\ Str.lower n = n.
Proof.
  intros (p & Hp & ->)%normalize_url_inv.
  destruct (urlparse_no_hash _ _ Hp) as (Hs & Hn & Hpa & Hpr & Hq).
  destruct (urlparse_lower_fixed _ _ Hp) as (Ln & Lpa & Lpr & Lq).
  pose proof (urlparse_scheme_lower _ _ Hp) as Ls.
  unfold urlunparse, urlunsplit. cbn [scheme netloc path params query fragment].
  rewrite String.eqb_refl.
  set (u := if String.eqb (params p) "" then stripped (path p)
            else stripped (path p) +:+ ";" +:+ params p).
  assert (Hu : contains "#" u = false).
  { unfold u. destruct (String.eqb (params p) ""); [by apply stripped_without |].
    by rewrite !contains_app, stripped_without, Hpr. }
  assert (Lu : lower u = u).
  { unfold u. destruct (String.eqb (params p) ""); [by apply lower_stripped |].
    by rewrite !lower_app, lower_stripped, Lpr. }
  pose proof (unsplit_hier_without "#" (scheme p) (netloc p) u eq_refl eq_refl Hs Hn Hu) as Hh.
  pose proof (lower_unsplit_hier (scheme p) (netloc p) u Ls Ln Lu) as Lh.
  destruct (String.eqb (query p) ""); [done |].
  split.
  - by rewrite !contains_app, Hh, Hq.
  - by rewrite !lower_app, Lh, Lq.
Qed.

Lemma normalize_url_lower_without_fragment_witness :
  normalize_url "HTTP://Example.COM/A/b/?Q=1#Frag" = Ok "http://example.com/a/b?q=1"
  /\ Str.contains "#" "http://example.com/a/b?q=1" = false.
Proof.
  split; [reflexivity |].
  exact (proj1 (normalize_url_lower_without_fragment
                  "HTTP://Example.COM/A/b/?Q=1#Frag" _ eq_refl)).
Defined.

(** ** The fingerprint of an accepted URL is accepted *)

Lemma lower_eqb_at : respects lower_char (fun a => Ascii.eqb a "@").
Proof. by_cases_on_char. Qed.
Lemma lower_eqb_open : respects lower_char (Ascii.eqb "[").
Proof. by_cases_on_char. Qed.
Lemma lower_eqb_close : respects lower_char (Ascii.eqb "]").
Proof. by_cases_on_char. Qed.
Lemma lower_eqb_percent : respects lower_char (Ascii.eqb "%").
Proof. by_cases_on_char. Qed.
Lemma lower_eqb_percent' : respects lower_char (fun a => Ascii.eqb a "%").
Proof. by_cases_on_char. Qed.

Lemma partition_lower c s :
  respects lower_char (Ascii.eqb c) ->
  partition c (lower s) = (lower (fst (partition c s)), lower <$> snd (partition c s)).
Proof. apply partition_map. Qed.

Lemma contains_lower c s :
  respects lower_char (fun a => Ascii.eqb a c) -> contains c (lower s) = contains c s.
Proof. apply contains_map. Qed.

Lemma hostinfo_lower n : hostinfo (lower n) = lower (hostinfo n).
Proof.
  unfold hostinfo, lower. rewrite (rpartition_map _ _ _ lower_eqb_at).
  by destruct (rpartition "@" n) as [[l r] |].
Qed.

(** The host of a parse, before the zone is looked at. *)
Lemma hostname_lower p0 p :
  netloc p = lower (netloc p0) -> hostname p = lower <$> hostname p0.
Proof.
  intros Hn. unfold hostname. rewrite Hn, hostinfo_lower.
  rewrite (partition_lower _ _ lower_eqb_open).
  set (host0 := match partition "[" (hostinfo (netloc p0)) with
                | (_, Some bracketed) => fst (partition "]" bracketed)
                | (h, None) => fst (partition ":" h)
                end).
  assert (Hhost : match (lower (fst (partition "[" (hostinfo (netloc p0)))),
                         lower <$> snd (partition "[" (hostinfo (netloc p0)))) with
                  | (_, Some bracketed) => fst (partition "]" bracketed)
                  | (h, None) => fst (partition ":" h)
                  end = lower host0).
  { unfold host0. destruct (partition "[" (hostinfo (netloc p0))) as [l [b |]];
      cbn [fst snd fmap option_fmap option_map].
    - by rewrite (partition_lower _ _ lower_eqb_close).
    - by rewrite (partition_lower _ _ lower_eqb_colon). }
  rewrite Hhost. clearbody host0.
  destruct (String.eqb host0 "") eqn:E.
  - apply String.eqb_eq in E as ->. done.
  - assert (String.eqb (lower host0) "" = false) as ->.
    { apply String.eqb_neq. intros H. apply lower_nil in H. subst.
      by rewrite String.eqb_refl in E. }
    rewrite (partition_lower _ _ lower_eqb_percent).
    destruct (partition "%" host0) as [h [z |]]; cbn [fst snd fmap option_fmap option_map].
    + f_equal. by rewrite !lower_app.
    + done.
Qed.

Lemma hostname_netloc p p' : netloc p = netloc p' -> hostname p = hostname p'.
Proof. unfold hostname. by intros ->. Qed.

(** The shape of a host name: in lower case up to its zone. *)
Lemma hostname_shape p h :
  hostname p = Some h ->
  (lower h = h /\ contains "%" h = false)
  \/ exists a z, h = a +:+ String "%" z /\ lower a = a /\ contains "%" a = false.
Proof.
  unfold hostname.
  set (host := match partition "[" (hostinfo (netloc p)) with
               | (_, Some bracketed) => fst (partition "]" bracketed)
               | (h, None) => fst (partition ":" h)
               end). clearbody host.
  destruct (String.eqb host ""); [done |].
  destruct (partition "%" host) as [a [z |]] eqn:E;
    apply partition_inv in E as [Ha _]; intros [= <-].
  - right. exists (lower a), z. split; [done |]. split; [apply lower_idem |].
    by rewrite (contains_lower _ _ lower_eqb_percent').
  - left. split; [apply lower_idem |].
    by rewrite (contains_lower _ _ lower_eqb_percent').
Qed.

(** *** Addresses with a zone *)

Lemma split_contains c d s :
  Ascii.eqb d c = false -> contains d s = true ->
  exists x, In x (split c s) /\ contains d x = true.
Proof.
  intros Hdc. induction s as [| a s IH]; [done |].
  cbn [contains split]. destruct (Ascii.eqb a c) eqn:Eac.
  - apply Ascii.eqb_eq in Eac as ->. rewrite (eqb_sym c d), Hdc. cbn [orb].
    intros H. destruct (IH H) as (x & Hx & Hc). exists x. split; [by right | done].
  - intros H. apply orb_true_iff in H as [H | H].
    + destruct (split c s) as [| f fs]; eexists; (split; [by left |]);
        by rewrite contains_cons, H.
    + destruct (IH H) as (x & Hx & Hc).
      destruct (split c s) as [| f fs]; [done |].
      destruct Hx as [<- | Hx].
      * exists (String a f). split; [by left |]. by rewrite contains_cons, Hc, orb_true_r.
      * exists x. split; [by right | done].
Qed.

Lemma parse_octet_percent s : contains "%" s = true -> Ipaddress.parse_octet s = None.
Proof.
  intros H. unfold Ipaddress.parse_octet. destruct (String.eqb s ""); [done |].
  assert (forallb isdigit_char s = false) as ->; [| done].
  induction s as [| a s IH]; [done |].
  rewrite contains_cons in H. rewrite forallb_cons.
  apply orb_true_iff in H as [H | H].
  - apply Ascii.eqb_eq in H as ->. done.
  - rewrite (IH H). apply andb_false_r.
Qed.

Lemma IPv4Address_percent s : contains "%" s = true -> Ipaddress.IPv4Address s = None.
Proof.
  intros H. unfold Ipaddress.IPv4Address. destruct (contains "/" s); [done |].
  unfold Ipaddress.ipv4_int_from_string. destruct (String.eqb s ""); [done |].
  destruct (split_contains "." "%" s eq_refl H) as (x & Hx & Hc).
  destruct (split "." s) as [| a [| b [| c [| d [| e l]]]]]; try done.
  apply parse_octet_percent in Hc.
  destruct Hx as [<- | [<- | [<- | [<- | []]]]]; rewrite Hc; cbn [mbind option_bind]; try done;
    repeat (destruct (Ipaddress.parse_octet _); cbn [mbind option_bind option_fmap fmap];
            try done).
Qed.

(** The zone of an address is looked at for its being empty or having a
    second ["%"], not for its letters. *)
Lemma ip_address_zone a z :
  contains "%" a = false ->
  Ipaddress.ip_address (a +:+ String "%" (lower z)) = Ipaddress.ip_address (a +:+ String "%" z).
Proof.
  intros Ha. unfold Ipaddress.ip_address.
  rewrite !IPv4Address_percent
    by (by rewrite contains_app, contains_cons, Ascii.eqb_refl, orb_true_r).
  unfold Ipaddress.IPv6Address.
  rewrite !contains_app, !contains_cons.
  rewrite (contains_lower _ _ lower_eqb_slash').
  destruct (_ || _); [done |].
  rewrite !(partition_hit _ _ _ Ha).
  rewrite (contains_lower _ _ lower_eqb_percent').
  destruct (String.eqb z "") eqn:Ez.
  - apply String.eqb_eq in Ez as ->. done.
  - assert (String.eqb (lower z) "" = false) as ->; [| done].
    apply String.eqb_neq. intros H. apply lower_nil in H. subst.
    by rewrite String.eqb_refl in Ez.
Qed.

Lemma is_private_ip_lower_host p h :
  hostname p = Some h -> is_private_ip (lower h) = is_private_ip h.
Proof.
  intros [[-> _] | (a & z & -> & La & Ha)]%hostname_shape; [done |].
  unfold is_private_ip. rewrite lower_app, La.
  change (lower (String "%" z)) with (String "%" (lower z)).
  by rewrite ip_address_zone.
Qed.

(** The SSRF check, from the host on. *)
Lemma validate_ssrf_host g url p h :
  urlparse url = Ok p -> hostname p = Some h ->
  validate_ssrf g url
  = if is_metadata_endpoint h || is_private_ip h
       || mem (lower h) ["localhost"; "localhost.localdomain"]
    then Raise SSRFError else Ok ().
Proof.
  intros Hp Hh. unfold validate_ssrf. rewrite Hp. cbn [mbind result_bind]. rewrite Hh.
  destruct (is_metadata_endpoint h); [done |]. destruct (is_private_ip h); [done |].
  destruct (mem (lower h) _); [done |]. cbn [orb].
  by destruct (resolve_and_check (g h)) as [[| |] |].
Qed.

Lemma urlparse_fingerprint_authority p :
  accepted_parse p ->
  exists pa pr,
    urlparse (fingerprint p) = Ok (mkParseResult (scheme p) (netloc p) pa pr (query p) "").
Proof.
  intros [Hsc Hne Hnd Hbr Hroot Hsn Hsp Hspr Hsq Hqp Hqpr Hhp Hhpr Hhq Hslp Lnl Lp Lpr Lq].
  unfold fingerprint.
  pose proof (stripped_rooted _ Hroot) as Hr.
  eexists _, _. apply urlparse_assembled; try done.
  - unfold hier_tail. destruct (String.eqb (params p) ""); [by apply stripped_safe |].
    rewrite !forallb_app, Hspr.
    destruct (String.eqb (stripped (path p)) ""); [done |].
    by rewrite stripped_safe.
  - by apply hier_tail_rooted.
  - unfold hier_tail. destruct (String.eqb (params p) ""); [by apply stripped_without |].
    rewrite !contains_app, Hqpr.
    destruct (String.eqb (stripped (path p)) ""); [done |].
    by rewrite stripped_without.
  - unfold hier_tail. destruct (String.eqb (params p) ""); [by apply stripped_without |].
    rewrite !contains_app, Hhpr.
    destruct (String.eqb (stripped (path p)) ""); [done |].
    by rewrite stripped_without.
Qed.

(** When a URL has passed [validate_url_format] and [validate_ssrf] and
    has a fingerprint, the fingerprint passes both validators as well,
    for any resolver: it has the scheme of the URL and its host in lower
    case. So the [normalized_url] of a stored job, which is what the
    worker hands to [validate_redirects] and to the renderer, is an
    [http] or [https] URL whose host is not one that [validate_ssrf]
    refuses. *)
Theorem normalized_url_passes_validation g g' url n :
  validate_url_format url = Ok () -> validate_ssrf g url = Ok () ->
  normalize_url url = Ok n ->
  validate_url_format n = Ok () /\ validate_ssrf g' n = Ok ()
  /\ exists p0 p' h,
       urlparse url = Ok p0 /\ urlparse n = Ok p'
       /\ scheme p' = scheme p0 /\ netloc p' = lower (netloc p0)
       /\ hostname p0 = Some h /\ hostname p' = Some (lower h).
Proof.
  intros Hf Hs Hn.
  destruct (normalize_url_inv _ _ Hn) as (p & Hp & _).
  pose proof (accepted_parse_intro _ _ Hf Hp) as A.
  rewrite (normalize_url_fingerprint _ _ Hp A) in Hn. injection Hn as <-.
  destruct (urlparse_fingerprint_authority _ A) as (pa & pr & Hp').
  destruct (validate_ssrf_Ok_inv _ _ Hs) as (p0 & h & Hp0 & Hh & Hm & Hi & Hl).
  destruct (urlparse_lower _ _ _ Hp0 Hp) as (Hsch & Hnl & _).
  set (p' := mkParseResult (scheme p) (netloc p) pa pr (query p) "") in *.
  assert (Hh' : hostname p' = Some (lower h)).
  { rewrite (hostname_netloc p' p eq_refl), (hostname_lower p0 p Hnl), Hh. done. }
  destruct A as [Hsc Hne _ _ _ _ _ _ _ _ _ _ _ _ _ _ _ _ _].
  split; [| split].
  - unfold validate_url_format. rewrite Hp'. cbn [mbind result_bind scheme netloc p'].
    assert (String.eqb (fingerprint p) "" = false) as ->.
    { unfold fingerprint. by destruct Hsc as [-> | ->]. }
    assert (negb (mem (scheme p) ["http"; "https"]) = false) as ->
      by (by destruct Hsc as [-> | ->]).
    apply String.eqb_neq in Hne. by rewrite Hne.
  - rewrite (validate_ssrf_host g' _ _ _ Hp' Hh').
    unfold is_metadata_endpoint in *. rewrite lower_idem, Hm.
    rewrite (is_private_ip_lower_host _ _ Hh), Hi.
    apply mem_not_In in Hl. by rewrite Hl.
  - exists p0, p', h. done.
Qed.

Lemma normalized_url_passes_validation_witness :
  validate_url_format "http://example.com/a" = Ok ()
  /\ validate_ssrf (fun _ => Gaierror) "http://example.com/a" = Ok ().
Proof.
  pose proof (normalized_url_passes_validation (fun _ => Resolved ["93.184.216.34"])
                (fun _ => Gaierror) "HTTP://Example.com/a/#top" "http://example.com/a"
                eq_refl eq_refl eq_refl) as (Hf & Hs & _).
  split; [exact Hf | exact Hs].
Defined.

End Normalized.

(** ** Relative redirects *)

Section Relative.
Import Str StrFacts Urllib UrlFacts.

Lemma startswith_slash loc : startswith "/" loc = true -> exists t, loc = String "/" t.
Proof.
  destruct loc as [| a t]; [done |]. cbn [startswith].
  intros [H _]%andb_true_iff. apply Ascii.eqb_eq in H as <-. by exists t.
Qed.

Lemma strip_unsafe_authority s n t :
  s = "http" \/ s = "https" -> forallb safe n = true ->
  strip_unsafe (s +:+ "://" +:+ n +:+ String "/" t)
  = s +:+ "://" +:+ n +:+ String "/" (remove unsafe_url_byte t).
Proof.
  intros Hs Hn. unfold strip_unsafe.
  assert (Hr : remove unsafe_url_byte (n +:+ String "/" t)
               = n +:+ String "/" (remove unsafe_url_byte t)).
  { rewrite remove_app, (remove_id _ n); [done | exact Hn]. }
  destruct Hs as [-> | ->].
  - change ("http" +:+ "://" +:+ ?x) with (String "h" ("ttp" +:+ "://" +:+ x)).
    rewrite lstrip_head by done.
    change (String "h" ("ttp" +:+ "://" +:+ ?x)) with ("http://" +:+ x).
    by rewrite remove_app, Hr.
  - change ("https" +:+ "://" +:+ ?x) with (String "h" ("ttps" +:+ "://" +:+ x)).
    rewrite lstrip_head by done.
    change (String "h" ("ttps" +:+ "://" +:+ ?x)) with ("https://" +:+ x).
    by rewrite remove_app, Hr.
Qed.

(** A path put behind a scheme and a netloc leaves both as they are. *)
Lemma urlparse_relative s n t :
  s = "http" \/ s = "https" ->
  forallb no_delim n = true -> brackets_ok n = true -> forallb safe n = true ->
  exists p', urlparse (s +:+ "://" +:+ n +:+ String "/" t) = Ok p'
    /\ scheme p' = s /\ netloc p' = n.
Proof.
  intros Hs Hnd Hbr Hsafe.
  set (r2 := String "/" (remove unsafe_url_byte t)).
  destruct (split_fragment r2) as [r3 f] eqn:E3.
  destruct (split_query r3) as [r4 q] eqn:E4.
  destruct (split_params s r4) as [pa pr] eqn:E5.
  exists (mkParseResult s n pa pr q f). split; [| done].
  apply urlparse_Ok. cbn [scheme netloc path params query fragment].
  exists ("//" +:+ n +:+ r2), r2, r3, r4. repeat split; try done.
  - rewrite strip_unsafe_authority by done. fold r2.
    destruct Hs as [-> | ->]; [apply split_scheme_http | apply split_scheme_https].
  - by apply split_authority_app.
Qed.

(** What the loop keeps when every target is relative. *)
Lemma redirect_loop_relative g head s n h remaining :
  s = "http" \/ s = "https" -> n <> "" ->
  forallb no_delim n = true -> brackets_ok n = true -> forallb safe n = true ->
  is_metadata_endpoint h = false -> is_private_ip h = false ->
  mem (lower h) ["localhost"; "localhost.localdomain"] = false ->
  (forall k cur code loc,
     head k cur = Response code (Some loc) -> existsb (Z.eqb code) redirect_statuses = true ->
     loc = "" \/ startswith "/" loc = true) ->
  forall k cur pc,
    urlparse cur = Ok pc -> scheme pc = s -> netloc pc = n -> hostname pc = Some h ->
    match redirect_loop g head remaining k cur with
    | FinalUrl u =>
        exists p', urlparse u = Ok p' /\ scheme p' = s /\ netloc p' = n
    | RedirectRaises _ => False
    | ClientRaises => True
    end.
Proof.
  intros Hs Hne Hnd Hbr Hsafe Hm Hi Hl Hrel.
  induction remaining as [| r IH]; intros k cur pc Hp Hsc Hnl Hh.
  - cbn [redirect_loop]. eauto.
  - cbn [redirect_loop]. destruct (head k cur) as [code location | |] eqn:Eh; [| eauto | done].
    destruct (existsb _ _) eqn:Ec; [| eauto].
    destruct location as [loc |]; [| eauto].
    destruct (String.eqb loc "") eqn:El; [eauto |].
    destruct (Hrel _ _ _ _ Eh Ec) as [-> | Hst]; [done |].
    apply startswith_slash in Hst as [t ->].
    unfold absolute_redirect. cbn [startswith Ascii.eqb Bool.eqb andb].
    rewrite Hp. cbn [mbind result_bind]. rewrite Hsc, Hnl.
    destruct (urlparse_relative s n t Hs Hnd Hbr Hsafe) as (p' & Hp' & Hsc' & Hnl').
    assert (Hh' : hostname p' = Some h).
    { rewrite (hostname_netloc p' pc); [done | congruence]. }
    assert (Hf : validate_url_format (s +:+ "://" +:+ n +:+ String "/" t) = Ok ()).
    { unfold validate_url_format. rewrite Hp'. cbn [mbind result_bind].
      rewrite Hsc', Hnl'.
      assert (String.eqb (s +:+ "://" +:+ n +:+ String "/" t) "" = false) as ->
        by (by destruct Hs as [-> | ->]).
      assert (negb (mem s ["http"; "https"]) = false) as ->
        by (by destruct Hs as [-> | ->]).
      apply String.eqb_neq in Hne. by rewrite Hne. }
    assert (Hv : validate_ssrf g (s +:+ "://" +:+ n +:+ String "/" t) = Ok ()).
    { rewrite (validate_ssrf_host g _ _ _ Hp' Hh'). by rewrite Hm, Hi, Hl. }
    rewrite Hf. cbn [mbind result_bind]. rewrite Hv. cbn [mbind result_bind].
    by apply (IH _ _ p').
Qed.

(** When a URL has passed both validators and every redirect answer
    names a target that starts with a slash, [validate_redirects] raises
    nothing of the validators, and the URL it returns after any number
    of hops has the scheme and the netloc of the URL it was given: the
    target ["//other.example/x"] too is taken for a path on the same
    host, and checked as such. *)
Theorem validate_redirects_relative_same_host g head url p max_redirects :
  validate_url_format url = Ok () -> validate_ssrf g url = Ok () ->
  urlparse url = Ok p ->
  (forall k cur code loc,
     head k cur = Response code (Some loc) -> In code redirect_statuses ->
     loc = "" \/ startswith "/" loc = true) ->
  match validate_redirects g head url max_redirects with
  | FinalUrl u =>
      exists p', urlparse u = Ok p' /\ scheme p' = scheme p /\ netloc p' = netloc p
  | RedirectRaises _ => False
  | ClientRaises => True
  end.
Proof.
  intros Hf Hs Hp Hrel.
  destruct (validate_url_format_Ok _ Hf) as (p0 & Hp0 & Hsc & Hne).
  rewrite Hp in Hp0. injection Hp0 as <-.
  destruct (urlparse_authority _ _ Hp Hne) as (Hnd & Hbr & _).
  destruct (urlparse_safe _ _ Hp) as (Hsafe & _).
  destruct (validate_ssrf_Ok_inv _ _ Hs) as (p1 & h & Hp1 & Hh & Hm & Hi & Hl).
  rewrite Hp in Hp1. injection Hp1 as <-.
  apply mem_not_In in Hl.
  unfold validate_redirects.
  eapply (redirect_loop_relative g head (scheme p) (netloc p) h); eauto.
  intros k cur code loc Hhead Hcode. apply (Hrel k cur code loc Hhead).
  apply existsb_exists in Hcode as (x & Hx & Heq). apply Z.eqb_eq in Heq. by subst.
Qed.

Lemma validate_redirects_relative_same_host_witness :
  validate_redirects (fun _ => Gaierror) head_two_slashes "http://example.com/a" 5
  = FinalUrl "http://example.com//other.example/x"
  /\ exists p', Urllib.urlparse "http://example.com//other.example/x" = Ok p'
       /\ Urllib.netloc p' = "example.com".
Proof.
  split; [reflexivity |].
  pose proof (validate_redirects_relative_same_host (fun _ => Gaierror) head_two_slashes
                "http://example.com/a" _ 5 eq_refl eq_refl eq_refl) as H.
  destruct H as (p' & Hp' & _ & Hn).
  - intros k cur code loc Hh _. right. unfold head_two_slashes in Hh.
    destruct (k <? 2)%nat; [by injection Hh as _ <- | discriminate Hh].
  - exists p'. split; [exact Hp' | exact Hn].
Defined.


End Relative.

(** * The cleanup of the PDF directory *)

Lemma cleanup_file_dir now age st f :
  cleanup_dir (cleanup_file now age st f)
  = if unlinked now age (snd f) then delete (fst f) (cleanup_dir st) else cleanup_dir st.
Proof.
  unfold cleanup_file, unlinked. destruct (st_mtime (snd f)) as [m |]; [| done].
  destruct (Datetime.elapsed_exceeds m now age); [| done].
  by destruct (unlink_ok (snd f)).
Qed.

Lemma cleanup_file_deleted now age st f :
  deleted_count (cleanup_file now age st f)
  = deleted_count st + (if unlinked now age (snd f) then 1 else 0).
Proof.
  unfold cleanup_file, unlinked. destruct (st_mtime (snd f)) as [m |]; [| simpl; lia].
  destruct (Datetime.elapsed_exceeds m now age); [| simpl; lia].
  destruct (unlink_ok (snd f)); simpl; lia.
Qed.

(** After the loop over [l], a name is gone when [l] has it with an
    entry that is unlinked, and is as before when not. *)
Lemma cleanup_fold_lookup now age (l : list (string * DirEntry)) st name :
  cleanup_dir (foldl (cleanup_file now age) st l) !! name
  = if existsb (fun f => String.eqb (fst f) name && unlinked now age (snd f)) l
    then None else cleanup_dir st !! name.
Proof.
  revert st. induction l as [| f l IH]; intros st; [done |].
  cbn [foldl existsb]. rewrite IH, cleanup_file_dir.
  destruct (String.eqb (fst f) name) eqn:E.
  - apply String.eqb_eq in E. subst name.
    destruct (unlinked now age (snd f)); cbn [andb orb]; [| done].
    rewrite lookup_delete_eq. by case_match.
  - apply String.eqb_neq in E. cbn [andb orb].
    destruct (unlinked now age (snd f)); [| done].
    by rewrite lookup_delete_ne.
Qed.

Lemma cleanup_fold_count now age (l : list (string * DirEntry)) st :
  NoDup (l.*1) ->
  (forall f, In f l -> is_Some (cleanup_dir st !! fst f)) ->
  let st' := foldl (cleanup_file now age) st l in
  Z.of_nat (size (cleanup_dir st')) + deleted_count st'
  = Z.of_nat (size (cleanup_dir st)) + deleted_count st.
Proof.
  revert st. induction l as [| f l IH]; intros st Hnd Hin; [done |].
  cbn [foldl]. cbn [fmap list_fmap] in Hnd. apply NoDup_cons in Hnd as [Hf Hnd].
  cbn zeta in *. rewrite IH; [| done |].
  - rewrite cleanup_file_dir, cleanup_file_deleted.
    destruct (unlinked now age (snd f)); [| lia].
    rewrite map_size_delete_Some by (apply Hin; by left).
    assert (0 < size (cleanup_dir st))%nat; [| lia].
    destruct (Hin f (or_introl eq_refl)) as [e He].
    destruct (decide (size (cleanup_dir st) = 0%nat)) as [Hz |]; [| lia].
    apply map_size_empty_inv in Hz. rewrite Hz, lookup_empty in He. done.
  - intros g Hg. rewrite cleanup_file_dir.
    destruct (unlinked now age (snd f)); [| apply Hin; by right].
    rewrite lookup_delete_ne; [apply Hin; by right |].
    intros Heq. apply Hf. rewrite Heq. apply list_elem_of_fmap. exists g.
    split; [done |]. by apply list_elem_of_In.
Qed.

Lemma NoDup_fst_filter {A B : Type} (p : A * B -> bool) (l : list (A * B)) :
  NoDup (l.*1) -> NoDup ((List.filter p l).*1).
Proof.
  induction l as [| x l IH]; [done |].
  cbn [fmap list_fmap List.filter]. intros Hnd. apply NoDup_cons in Hnd as [Hx Hnd].
  destruct (p x); [| auto]. cbn [fmap list_fmap]. apply NoDup_cons. split; [| auto].
  intros Hin. apply Hx. apply list_elem_of_fmap in Hin as (y & -> & Hy).
  apply list_elem_of_fmap. exists y. split; [done |].
  apply list_elem_of_In. apply list_elem_of_In in Hy. by apply filter_In in Hy as [? _].
Qed.

Lemma In_glob_pdf dir name e :
  In (name, e) (glob_pdf dir) <-> dir !! name = Some e /\ endswith ".pdf" name = true.
Proof.
  unfold glob_pdf. rewrite filter_In. cbn [fst].
  by rewrite <- list_elem_of_In, elem_of_map_to_list.
Qed.

Lemma glob_pdf_existsb now age dir name :
  existsb (fun f => String.eqb (fst f) name && unlinked now age (snd f)) (glob_pdf dir)
  = match dir !! name with
    | Some e => endswith ".pdf" name && unlinked now age e
    | None => false
    end.
Proof.
  destruct (existsb _ _) eqn:Ex.
  - apply existsb_exists in Ex as ([n e] & Hin & Hb). cbn [fst snd] in Hb.
    apply andb_true_iff in Hb as [Hn Hu]. apply String.eqb_eq in Hn. subst n.
    apply In_glob_pdf in Hin as [-> Hend]. by rewrite Hend, Hu.
  - destruct (dir !! name) as [e |] eqn:El; [| done].
    destruct (endswith ".pdf" name && unlinked now age e) eqn:Eb; [| done].
    apply andb_true_iff in Eb as [Hend Hu].
    assert (existsb (fun f => String.eqb (fst f) name && unlinked now age (snd f))
              (glob_pdf dir) = true); [| congruence].
    apply existsb_exists. exists (name, e). split; [by apply In_glob_pdf |].
    cbn [fst snd]. by rewrite String.eqb_refl, Hu.
Qed.

Lemma cleanup_old_files_lookup now age_seconds dir st name :
  cleanup_old_files now age_seconds (Some dir) = Some st ->
  cleanup_dir st !! name
  = match dir !! name with
    | Some e => if endswith ".pdf" name && unlinked now age_seconds e then None else Some e
    | None => None
    end.
Proof.
  unfold cleanup_old_files. intros [= <-].
  rewrite cleanup_fold_lookup, glob_pdf_existsb. cbn [cleanup_dir].
  by destruct (dir !! name).
Qed.

(** After [cleanup_old_files], the directory has lost exactly the
    entries whose name ends in [".pdf"], whose modification time is more
    than the threshold before [now] and whose [unlink()] succeeded, and
    [deleted_count] is their number: an entry of another name, one that
    is exactly as old as the threshold or younger, and one that cannot be
    unlinked are all still there, and nothing is added. *)
Theorem cleanup_old_files_removes_old_pdfs now age_seconds dir st :
  cleanup_old_files now age_seconds (Some dir) = Some st ->
  (forall name e, dir !! name = Some e ->
     cleanup_dir st !! name
     = if endswith ".pdf" name
          && match st_mtime e with
             | Some mtime => (age_seconds * 1000000 <? now - mtime) && unlink_ok e
             | None => false
             end
       then None else Some e)
  /\ (forall name, dir !! name = None -> cleanup_dir st !! name = None)
  /\ Z.of_nat (size (cleanup_dir st)) + deleted_count st = Z.of_nat (size dir).
Proof.
  intros H. split; [| split].
  - intros name e He. rewrite (cleanup_old_files_lookup _ _ _ _ _ H), He.
    unfold unlinked, Datetime.elapsed_exceeds. by destruct (st_mtime e).
  - intros name He. by rewrite (cleanup_old_files_lookup _ _ _ _ _ H), He.
  - unfold cleanup_old_files in H. injection H as <-.
    rewrite cleanup_fold_count; cbn [cleanup_dir deleted_count]; [lia | |].
    + apply NoDup_fst_filter, NoDup_fst_map_to_list.
    + intros [n e] Hin. apply In_glob_pdf in Hin as [Hl _]. cbn [fst]. eauto.
Qed.

Lemma cleanup_old_files_removes_old_pdfs_witness :
  exists st,
    cleanup_old_files 6000000 3 (Some dir_three_files) = Some st
    /\ cleanup_dir st !! "a.pdf" = None
    /\ cleanup_dir st !! "b.pdf" = Some (mkDirEntry (Some 5000000) true)
    /\ cleanup_dir st !! "a.txt" = Some (mkDirEntry (Some 0) true)
    /\ deleted_count st = 1.
Proof.
  eexists. split; [reflexivity |].
  pose proof (cleanup_old_files_removes_old_pdfs 6000000 3 dir_three_files _ eq_refl)
    as (H & _ & Hc).
  split; [exact (H "a.pdf" _ eq_refl) |].
  split; [exact (H "b.pdf" _ eq_refl) |].
  split; [exact (H "a.txt" _ eq_refl) |].
  vm_compute in Hc. vm_compute. congruence.
Defined.

(** * The endpoints *)

(** A submission is answered with 202, 400 or 500. With 202, the job
    named in the answer is stored, [GET /v1/pdf-jobs/{job_id}] finds it
    (it does not answer 404) and reports the status of the answer, and
    the job is the one of the URL's fingerprint: a new [QUEUED] row, or,
    with [deduplicated] set, a row that was there, the tables being as
    before. With 400 or 500 the tables are as before, and 500 means that
    the identifier drawn for the job was taken. *)
Theorem submit_job_then_status settings env db url request resp db' :
  NoDup (List.map job_id (jobs db)) ->
  submit_job settings env db url request = (resp, db') ->
  match resp with
  | Returned code body =>
      code = 202
      /\ exists job,
           get_job db' (submitted_job_id body) = Some job
           /\ get_job_status db' (submitted_job_id body) = Returned 200 (model_validate job)
           /\ submitted_status body = status job
           /\ normalize_url url = Ok (normalized_url job)
           /\ (submitted_deduplicated body = true -> db' = db)
           /\ (submitted_deduplicated body = false ->
                 status job = QUEUED /\ jobs db' = (jobs db ++ [job])%list
                 /\ domain_locks db' = domain_locks db)
  | HTTPException code =>
      db' = db /\ (code = 400 \/ code = 500)
      /\ (code = 500 -> exists r, In r (jobs db) /\ job_id r = env_uuid4 env)
  end.
Proof.
  intros Hnd. unfold submit_job.
  destruct (create_job_cases settings env db url request)
    as [[e He] | [(x & He & Hin & Hn & _) | (nu & md & Hv & He & Hfresh)]].
  - assert (Hint : e = IntegrityError -> exists r, In r (jobs db) /\ job_id r = env_uuid4 env).
    { intros ->. unfold create_job in He.
      destruct (validated_submission env url) as [[nu md] | e'] eqn:Ev.
      - destruct (select_dedup db nu _) as [x |] eqn:Es; [done |].
        destruct (insert_job _ db) as [d |] eqn:Ei; [done |].
        apply insert_job_None in Ei as (r & Hr & [Hid | Hkey]); [eauto |].
        exfalso. eapply select_dedup_None; eauto.
      - injection He as ->.
        apply validated_submission_Raise in Ev as [Hv | Hv]; discriminate Hv. }
    rewrite He. destruct e; intros [= <- <-]; (split; [done |]); split; auto;
      intros H; discriminate H.
  - rewrite He. intros [= <- <-]. split; [done |]. exists x.
    pose proof (get_job_In_NoDup _ _ Hnd Hin) as Hg. cbn [submitted_job_id].
    unfold get_job_status. rewrite Hg. repeat split; try done.
  - rewrite He. intros [= <- <-]. split; [done |]. eexists.
    cbn [submitted_job_id submitted_status submitted_deduplicated].
    pose proof (validated_submission_fingerprint _ _ _ _ Hv) as Hn.
    assert (Hg : get_job (mkDatabase (jobs db ++ [new_job settings env request nu md
                            (Datetime.strftime_date (env_now env))]) (domain_locks db))
                   (env_uuid4 env)
                 = Some (new_job settings env request nu md
                           (Datetime.strftime_date (env_now env)))).
    { unfold get_job. cbn [jobs]. apply find_app_last; [| apply String.eqb_refl].
      destruct (List.find _ (jobs db)) as [y |] eqn:Ey; [| done].
      apply find_some in Ey as [Hy Hid]. apply String.eqb_eq in Hid.
      by apply Hfresh in Hy as [? _]. }
    split; [exact Hg |]. unfold get_job_status.
    cbn [job_id new_job]. rewrite Hg. repeat split; try done.
Qed.

Lemma submit_job_then_status_witness :
  exists body db',
    submit_job default_settings (example_env t0 "job-1") empty_db
      "https://example.com/a" no_overrides = (Returned 202 body, db')
    /\ exists job,
         get_job_status db' (submitted_job_id body) = Returned 200 (model_validate job)
         /\ submitted_status body = status job.
Proof.
  eexists _, _. split; [reflexivity |].
  pose proof (submit_job_then_status default_settings (example_env t0 "job-1") empty_db
                "https://example.com/a" no_overrides _ _ (NoDup_nil_2 (A:=string)) eq_refl)
    as (_ & job & _ & Hs & Hst & _).
  exists job. split; [exact Hs | exact Hst].
Defined.

(** A URL whose host is a metadata endpoint, a private address literal
    or a name of the local host is never queued, whatever the resolver
    answers: the submission is answered with 400 and both tables stay as
    they are; [create_job] raises [SSRFError] for it when the URL has
    passed the format check, and the [ValueError] of that check when
    not. *)
Theorem submit_job_rejects_blocked_host settings env db url request p h :
  Urllib.urlparse url = Ok p -> Urllib.hostname p = Some h ->
  is_metadata_endpoint h = true \/ is_private_ip h = true
  \/ In (Str.lower h) ["localhost"; "localhost.localdomain"] ->
  submit_job settings env db url request = (HTTPException 400, db)
  /\ (validate_url_format url = Ok () ->
        create_job settings env db url request = (Raise SSRFError, db))
  /\ (validate_url_format url <> Ok () ->
        create_job settings env db url request = (Raise ValueError, db)).
Proof.
  intros Hp Hh Hb.
  pose proof (validate_ssrf_blocks (env_getaddrinfo env) url p h Hp Hh Hb) as Hs.
  destruct (validate_url_format url) as [[] | e] eqn:Ef.
  - pose proof (create_job_ssrf_blocked settings env db url request Ef Hs) as Hc.
    unfold submit_job. rewrite Hc. done.
  - pose proof (validate_url_format_Raise _ _ Ef) as ->.
    assert (Hc : create_job settings env db url request = (Raise ValueError, db)).
    { unfold create_job, validated_submission. rewrite Ef. done. }
    unfold submit_job. rewrite Hc. done.
Qed.

Lemma submit_job_rejects_blocked_host_witness :
  submit_job default_settings env_private empty_db "http://[::1]:8080/admin" no_overrides
  = (HTTPException 400, empty_db).
Proof.
  refine (proj1 (submit_job_rejects_blocked_host default_settings env_private empty_db
                   "http://[::1]:8080/admin" no_overrides _ "::1" eq_refl eq_refl _)).
  right. left. reflexivity.
Defined.

(** ** Downloads *)

Lemma endswith_app suffix s : endswith suffix (s +:+ suffix) = true.
Proof.
  induction s as [| a s IH].
  - destruct suffix; cbn [String.append endswith]; by rewrite String.eqb_refl.
  - cbn [String.append endswith]. rewrite IH. apply orb_true_r.
Qed.

(** The file of a [SUCCEEDED] job after a cleanup: the download answers
    200 with the file when the file was there and the cleanup has left
    it (it was not older than the threshold, or could not be unlinked),
    and 404 when the cleanup has removed it or it was not there, the job
    being [SUCCEEDED] all the same. For a job that is stored with another
    status the answer is 400, and 404 for no job. *)
Theorem download_pdf_after_cleanup db dir now age_seconds st id :
  cleanup_old_files now age_seconds (Some dir) = Some st ->
  download_pdf db (Some (cleanup_dir st)) id
  = match get_job db id with
    | None => HTTPException 404
    | Some job =>
        if negb (bool_decide (status job = SUCCEEDED)) then HTTPException 400
        else
          match dir !! (id +:+ ".pdf") with
          | Some e =>
              match st_mtime e with
              | Some mtime =>
                  if (age_seconds * 1000000 <? now - mtime) && unlink_ok e
                  then HTTPException 404
                  else Returned 200 (id +:+ ".pdf")
              | None => HTTPException 404
              end
          | None => HTTPException 404
          end
    end.
Proof.
  intros H. unfold download_pdf, path_exists.
  destruct (get_job db id) as [job |]; [| done].
  destruct (negb _); [done |].
  rewrite (cleanup_old_files_lookup _ _ _ _ _ H), endswith_app.
  destruct (dir !! (id +:+ ".pdf")) as [e |]; [| done].
  unfold unlinked, Datetime.elapsed_exceeds. cbn [andb].
  destruct (st_mtime e) as [m |] eqn:Em.
  - destruct ((age_seconds * 1000000 <? now - m) && unlink_ok e); [done |].
    rewrite Em. done.
  - rewrite Em. done.
Qed.

Lemma download_pdf_after_cleanup_witness :
  download_pdf db_succeeded
    (cleanup_dir <$> cleanup_old_files (t0 + 2000000000) 1020 (Some dir_job_1)) "job-1"
  = HTTPException 404.
Proof.
  exact (download_pdf_after_cleanup db_succeeded dir_job_1 (t0 + 2000000000) 1020 _ "job-1"
           eq_refl).
Defined.


(** ** Requests *)

Lemma field_ge_le_Some lo hi x v :
  field_ge_le lo hi x = true -> x = Some v -> lo <= v <= hi.
Proof. intros H ->. unfold field_ge_le in H. lia. Qed.

Lemma or_int_nonzero v d : v <> 0 -> or_int (Some v) d = v.
Proof. intros H. unfold or_int. apply Z.eqb_neq in H. by rewrite H. Qed.

(** For a request that passes the validation of [JobSubmitRequest], the
    job that [create_job] inserts has the timeouts and the wait of the
    request, which are within the bounds of the schema, and its
    [max_retries] unless that is [0]; and when the configured default
    render mode is one of the two modes, the render mode of the job is
    one of them, so that [render_to_pdf] knows it. *)
Theorem valid_request_is_stored settings env db url request job db' :
  JobSubmitRequest_valid request = true ->
  create_job settings env db url request = (Ok (job, false), db') ->
  (forall v, ov_max_domain_wait_seconds request = Some v ->
     max_domain_wait_seconds job = v /\ 10 <= v <= 3600)
  /\ (forall v, ov_navigation_timeout_seconds request = Some v ->
        navigation_timeout_seconds job = v /\ 5 <= v <= 300)
  /\ (forall v, ov_job_timeout_seconds request = Some v ->
        job_timeout_seconds job = v /\ 10 <= v <= 600)
  /\ (forall v, ov_max_retries request = Some v ->
        0 <= v <= 5 /\ (v <> 0 -> max_retries job = v))
  /\ (In (default_render_mode settings) RenderMode_values ->
        In (render_mode job) RenderMode_values).
Proof.
  intros Hvalid H. apply create_job_new in H as (nu & md & _ & -> & _).
  unfold JobSubmitRequest_valid in Hvalid.
  apply andb_true_iff in Hvalid as [Hvalid Hr]. apply andb_true_iff in Hvalid as [Hvalid Hj].
  apply andb_true_iff in Hvalid as [Hvalid Hn]. apply andb_true_iff in Hvalid as [Hm Hw].
  cbn [new_job max_domain_wait_seconds navigation_timeout_seconds job_timeout_seconds
       max_retries render_mode].
  split; [| split; [| split; [| split]]].
  - intros v Hv. pose proof (field_ge_le_Some _ _ _ _ Hw Hv). rewrite Hv.
    rewrite or_int_nonzero by lia. lia.
  - intros v Hv. pose proof (field_ge_le_Some _ _ _ _ Hn Hv). rewrite Hv.
    rewrite or_int_nonzero by lia. lia.
  - intros v Hv. pose proof (field_ge_le_Some _ _ _ _ Hj Hv). rewrite Hv.
    rewrite or_int_nonzero by lia. lia.
  - intros v Hv. pose proof (field_ge_le_Some _ _ _ _ Hr Hv). rewrite Hv.
    split; [lia |]. intros Hne. by apply or_int_nonzero.
  - intros Hd. unfold validate_render_mode in Hm. unfold or_str.
    destruct (ov_render_mode request) as [v |]; [| done].
    destruct (String.eqb v ""); [done |]. cbn [negb andb] in Hm.
    apply negb_true_iff, negb_false_iff in Hm. by apply mem_In.
Qed.

Lemma valid_request_is_stored_witness :
  exists job db',
    create_job default_settings (example_env t0 "job-1") empty_db "https://example.com/a"
      (mkOverrides (Some "screenshot_to_pdf") None (Some 300) None (Some 5) None)
    = (Ok (job, false), db')
    /\ job_timeout_seconds job = 300 /\ max_retries job = 5
    /\ In (render_mode job) RenderMode_values.
Proof.
  eexists _, _. split; [reflexivity |].
  pose proof (valid_request_is_stored default_settings (example_env t0 "job-1") empty_db
                "https://example.com/a"
                (mkOverrides (Some "screenshot_to_pdf") None (Some 300) None (Some 5) None)
                _ _ eq_refl eq_refl) as (_ & _ & Hj & Hr & Hm).
  split; [exact (proj1 (Hj 300 eq_refl)) |].
  split; [exact (proj2 (Hr 5 eq_refl) ltac:(discriminate)) |].
  apply Hm. left. reflexivity.
Defined.

(** * The private ranges *)

Section PrivateRanges.
Import Str StrFacts.

Lemma digit_value_nonneg a : 0 <= digit_value a.
Proof.
  unfold digit_value, isdigit_char, in_range.
  repeat case_match; try lia;
    repeat match goal with
           | H : (_ && _) = true |- _ => apply andb_true_iff in H as [? ?]
           | H : (_ <=? _) = true |- _ => apply Z.leb_le in H
           end; lia.
Qed.

Lemma to_int_nonneg base s : 0 <= base -> 0 <= to_int base s.
Proof.
  intros Hb. unfold to_int.
  assert (forall acc, 0 <= acc ->
            0 <= (fix go (acc : Z) (s : string) : Z :=
                    match s with
                    | "" => acc
                    | String a s' => go (acc * base + digit_value a) s'
                    end) acc s) as H.
  { induction s as [| a s IH]; intros acc Hacc; [done |].
    apply IH. pose proof (digit_value_nonneg a). nia. }
  by apply H.
Qed.

Lemma parse_octet_range s n : Ipaddress.parse_octet s = Some n -> 0 <= n <= 255.
Proof.
  unfold Ipaddress.parse_octet. repeat case_match; try done. intros [= <-].
  split; [by apply to_int_nonneg | lia].
Qed.

Lemma ipv4_int_from_string_octets s n :
  Ipaddress.ipv4_int_from_string s = Some n ->
  exists a b c d,
    0 <= a <= 255 /\ 0 <= b <= 255 /\ 0 <= c <= 255 /\ 0 <= d <= 255
    /\ n = ((a * 256 + b) * 256 + c) * 256 + d.
Proof.
  unfold Ipaddress.ipv4_int_from_string. destruct (String.eqb s ""); [done |].
  destruct (split "." s) as [| a [| b [| c [| d [| e l]]]]]; try done.
  destruct (Ipaddress.parse_octet a) as [a' |] eqn:Ea; [| done].
  destruct (Ipaddress.parse_octet b) as [b' |] eqn:Eb; [| done].
  destruct (Ipaddress.parse_octet c) as [c' |] eqn:Ec; [| done].
  destruct (Ipaddress.parse_octet d) as [d' |] eqn:Ed; [| done].
  cbn [mbind option_bind]. intros [= <-].
  apply parse_octet_range in Ea, Eb, Ec, Ed. exists a', b', c', d'. done.
Qed.

Lemma ip_address_V4 h n :
  Ipaddress.ip_address h = Some (Ipaddress.Address Ipaddress.V4 n) ->
  Ipaddress.ipv4_int_from_string h = Some n.
Proof.
  unfold Ipaddress.ip_address, Ipaddress.IPv4Address, Ipaddress.IPv6Address.
  destruct (contains "/" h); [done |].
  destruct (Ipaddress.ipv4_int_from_string h) as [m |]; cbn [fmap option_fmap option_map].
  - by intros [= <-].
  - destruct (partition "%" h) as [a [z |]].
    + destruct (_ || _); [done |].
      by destruct (Ipaddress.ipv6_int_from_string a).
    + by destruct (Ipaddress.ipv6_int_from_string a).
Qed.

Lemma testbit_high w n i : 0 <= n < 2 ^ w -> w <= i -> Z.testbit n i = false.
Proof.
  intros Hn Hi. destruct (Z.eq_dec w i) as [<- |].
  - rewrite <- (Z.mod_small n (2 ^ w)) by lia.
    destruct (Z.le_gt_cases 0 w); [by apply Z.mod_pow2_bits_high |].
    rewrite Z.pow_neg_r in Hn; lia.
  - rewrite <- (Z.mod_small n (2 ^ w)) by lia.
    destruct (Z.le_gt_cases 0 w); [apply Z.mod_pow2_bits_high; lia |].
    rewrite Z.pow_neg_r in Hn; lia.
Qed.

(** Masking with a netmask clears the host bits. *)
Lemma land_netmask w k n :
  0 <= k <= w -> 0 <= n < 2 ^ w ->
  Z.land n (Z.lxor (Z.ones w) (Z.ones k)) = n / 2 ^ k * 2 ^ k.
Proof.
  intros Hk Hn. apply Z.bits_inj'. intros i Hi.
  rewrite Z.land_spec, Z.lxor_spec, Z.mul_pow2_bits by lia.
  rewrite !Z.testbit_ones by lia.
  destruct (Z.ltb_spec i k) as [Hik | Hik].
  - rewrite (Z.testbit_neg_r _ (i - k)) by lia.
    replace (0 <=? i) with true by (symmetry; apply Z.leb_le; lia).
    replace (i <? w) with true by (symmetry; apply Z.ltb_lt; lia).
    cbn. apply andb_false_r.
  - rewrite Z.div_pow2_bits by lia. replace (i - k + k) with i by lia.
    replace (0 <=? i) with true by (symmetry; apply Z.leb_le; lia).
    destruct (Z.ltb_spec i w) as [Hiw | Hiw]; cbn.
    + apply andb_true_r.
    + rewrite (testbit_high w n i) by lia. done.
Qed.

Lemma contains_V4 base p n :
  0 <= p <= 32 -> 0 <= n < 2 ^ 32 ->
  Ipaddress.contains (Ipaddress.Network Ipaddress.V4 base p)
    (Ipaddress.Address Ipaddress.V4 n)
  = (n / 2 ^ (32 - p) * 2 ^ (32 - p) =? base).
Proof.
  intros Hp Hn. unfold Ipaddress.contains, Ipaddress.netmask.
  cbn [Ipaddress.net_version Ipaddress.addr_version Ipaddress.addr_ip
       Ipaddress.prefixlen Ipaddress.network_address Ipaddress.version_eqb
       Ipaddress.max_prefixlen andb].
  by rewrite land_netmask by lia.
Qed.

Lemma PRIVATE_IP_RANGES_eq :
  PRIVATE_IP_RANGES
  = [Ipaddress.Network Ipaddress.V4 (10 * 2 ^ 24) 8;
     Ipaddress.Network Ipaddress.V4 (172 * 2 ^ 24 + 16 * 2 ^ 16) 12;
     Ipaddress.Network Ipaddress.V4 (192 * 2 ^ 24 + 168 * 2 ^ 16) 16;
     Ipaddress.Network Ipaddress.V4 (127 * 2 ^ 24) 8;
     Ipaddress.Network Ipaddress.V4 (169 * 2 ^ 24 + 254 * 2 ^ 16) 16;
     Ipaddress.Network Ipaddress.V6 1 128;
     Ipaddress.Network Ipaddress.V6 (64512 * 2 ^ 112) 7;
     Ipaddress.Network Ipaddress.V6 (65152 * 2 ^ 112) 10].
Proof. by vm_compute. Qed.

(** For a host that is an IPv4 literal, [is_private_ip] holds exactly
    in the five IPv4 ranges of [PRIVATE_IP_RANGES]: 10.0.0.0/8,
    172.16.0.0/12, 192.168.0.0/16, 127.0.0.0/8 and 169.254.0.0/16,
    read off the first two octets of the address; every other IPv4
    address, 0.0.0.0 and 100.64.0.1 for instance, passes. *)
Theorem is_private_ip_ipv4_ranges h n :
  Ipaddress.ip_address h = Some (Ipaddress.Address Ipaddress.V4 n) ->
  exists a b c d,
    0 <= a <= 255 /\ 0 <= b <= 255 /\ 0 <= c <= 255 /\ 0 <= d <= 255
    /\ n = ((a * 256 + b) * 256 + c) * 256 + d
    /\ (is_private_ip h = true <->
        a = 10 \/ (a = 172 /\ 16 <= b <= 31) \/ (a = 192 /\ b = 168) \/ a = 127
        \/ (a = 169 /\ b = 254)).
Proof.
  intros H. pose proof (ip_address_V4 _ _ H) as H4.
  apply ipv4_int_from_string_octets in H4 as (a & b & c & d & Ha & Hb & Hc & Hd & Hn).
  exists a, b, c, d. repeat (split; [done |]).
  unfold is_private_ip. rewrite H, PRIVATE_IP_RANGES_eq.
  assert (Hr : 0 <= n < 2 ^ 32) by lia.
  cbn [existsb]. rewrite !contains_V4 by lia.
  change (Ipaddress.contains (Ipaddress.Network Ipaddress.V6 ?x ?y)
            (Ipaddress.Address Ipaddress.V4 n)) with false.
  rewrite !orb_false_r, !orb_true_iff, !Z.eqb_eq.
  change (32 - 8) with 24. change (32 - 12) with 20. change (32 - 16) with 16.
  change (2 ^ 24) with 16777216. change (2 ^ 20) with 1048576.
  change (2 ^ 16) with 65536.
  clear Hr H. subst n. split.
  - intros [H1 | [H1 | [H1 | [H1 | H1]]]]; Z.div_mod_to_equations; lia.
  - intros [H1 | [[H1 H2] | [[H1 H2] | [H1 | [H1 H2]]]]]; subst;
      Z.div_mod_to_equations; lia.
Qed.

Lemma is_private_ip_ipv4_ranges_witness :
  exists a b c d,
    0 <= a <= 255 /\ 0 <= b <= 255 /\ 0 <= c <= 255 /\ 0 <= d <= 255
    /\ 167838211 = ((a * 256 + b) * 256 + c) * 256 + d
    /\ (is_private_ip "10.1.2.3" = true <->
        a = 10 \/ (a = 172 /\ 16 <= b <= 31) \/ (a = 192 /\ b = 168) \/ a = 127
        \/ (a = 169 /\ b = 254)).
Proof. exact (is_private_ip_ipv4_ranges "10.1.2.3" 167838211 eq_refl). Defined.

End PrivateRanges.
